(** * mozsvcdeploy.util: status polling and the cleanup ledger

    A shallow embedding of [deployment/mozsvcdeploy/mozsvcdeploy/util.py]:
    [wait_for_status], [wait_for_instance_ready], the [cleanup_context]
    class and [load_cfn_template], with the properties its specification
    states about them and further properties read off the code.

    Modelling choices.
    - A resource is a Python object reached through a reference ([oid]); the
      objects live in a store, so a resource registered twice is the same
      object twice.  What an object does when one of its methods is called
      is given by [ResourceOps] over an abstract object state: every
      behaviour of [update()], [terminate()] and [delete()] (return values,
      side effects on the [status] attribute, exceptions) is an instance.
    - [time.time()] reads the next value of a clock oracle, a connection
      attempt the next value of a network oracle.  Clock readings, timeouts
      and sleep times are integers (the code only adds and compares them);
      a sleep time is taken as [time.sleep] and [settimeout] accept it, not
      negative, and the properties of runs that sleep say so.
    - Every call to a collaborator and every log record is appended to a
      trace, in program order.
    - The two [while True] loops take fuel; running out of fuel is the
      result [Diverge], which no [except] clause catches.
    - [load_cfn_template] only reads: the file system and the two parsers
      are the oracles of a [Platform] record, a parsed document is a
      [value], and fuel bounds the depth of the recursion into
      directories. *)

From Stdlib Require Import List ZArith String Ascii Bool Arith Lia Permutation.
Import ListNotations.
Open Scope string_scope.

(** ** Values *)

(** A reference to a Python object. *)
Definition oid := nat.

(** The classes of [ordered_classes] in [_sortkey_for_cleanup_ordering]. *)
Inductive ec2class := Instance | Volume | Snapshot.

(** Exceptions.  [RuntimeError] and [AttributeError] are the ones the module
    itself gives rise to; [SocketError] is [socket.error]; a collaborator can
    raise any of them, or another subclass of [Exception], or an exception
    that derives from [BaseException] only ([KeyboardInterrupt],
    [SystemExit]). *)
Inductive exn :=
| RuntimeError (msg : string)
| AttributeError (attr : string)
| SocketError
| OtherException (name : string)
| NonException (name : string).

(** [isinstance(e, Exception)]: what [except Exception] catches. *)
Definition is_Exception (e : exn) : bool :=
  match e with
  | NonException _ => false
  | _ => true
  end.

(** [isinstance(e, socket.error)]: what [except socket.error] catches. *)
Definition is_socket_error (e : exn) : bool :=
  match e with
  | SocketError => true
  | _ => false
  end.

(** What a call to a collaborator comes back with. *)
Inductive outcome (A : Type) :=
| Returned (a : A)
| Raised (e : exn).
Arguments Returned {A} a.
Arguments Raised {A} e.

(** The methods the module calls on a resource. *)
Inductive method := m_update | m_terminate | m_delete.

Inductive level := DEBUG | WARNING | ERROR.

(** An argument of a log call: an object (formatted with [%s]) or a string. *)
Inductive logarg :=
| AObj (o : oid)
| AStr (s : string).

(** The observable events, in program order.  A log record keeps the format
    string and the arguments apart, as [logging] does; [logger.exception]
    attaches the exception being handled. *)
Inductive event :=
| ELog (l : level) (fmt : string) (args : list logarg) (exc_info : option exn)
| ECall (o : oid) (m : method)
| ETime (reading : Z)
| ESleep (secs : Z)
| EConnect (host : string) (port : Z) (connect_timeout : Z).

(** The value of [None], and the values [__exit__] can hand to the [with]
    statement. *)
Inductive pyvalue := PyNone | PyBool (b : bool).

Definition truthy (v : pyvalue) : bool :=
  match v with
  | PyNone => false
  | PyBool b => b
  end.

(** ** A stable sort by key

    [list.sort(key=f)] computes the key of every element once and sorts
    stably on the keys.  Insertion from the right is such a sort: an element
    is put before the first element of the sorted tail whose key is not
    smaller, that is before every later element of equal key. *)

Section Sort.
Context {A : Type} (key : A -> nat).

Fixpoint insert_by_key (x : A) (l : list A) : list A :=
  match l with
  | [] => [x]
  | y :: t => if Nat.leb (key x) (key y) then x :: y :: t else y :: insert_by_key x t
  end.

Fixpoint sort_by_key (l : list A) : list A :=
  match l with
  | [] => []
  | x :: t => insert_by_key x (sort_by_key t)
  end.

(** The elements of [l] whose key is [k], in the order of [l]. *)
Definition with_key (k : nat) (l : list A) : list A :=
  filter (fun x => Nat.eqb (key x) k) l.

(** Keys never decrease along the list. *)
Fixpoint keys_ascending (l : list A) : Prop :=
  match l with
  | [] => True
  | x :: t => Forall (fun y => key x <= key y) t /\ keys_ascending t
  end.
End Sort.

(** ** The resources and the world *)

(** What the objects are and do.  [St] is the state of one object. *)
Record ResourceOps (St : Type) := {
  (** [isinstance(resource, cls)] *)
  isinstance : St -> ec2class -> bool;
  (** [hasattr(resource, "update")], and so on *)
  has_update : St -> bool;
  has_terminate : St -> bool;
  has_delete : St -> bool;
  (** the [status] attribute, when the object has one *)
  get_status : St -> option string;
  (** [instance.public_dns_name] *)
  public_dns_name : St -> string;
  (** the effect and the outcome of each method *)
  do_update : St -> St * outcome string;
  do_terminate : St -> St * outcome unit;
  do_delete : St -> St * outcome unit
}.
Arguments isinstance {St} _ _ _.
Arguments has_update {St} _ _.
Arguments has_terminate {St} _ _.
Arguments has_delete {St} _ _.
Arguments get_status {St} _ _.
Arguments public_dns_name {St} _ _.
Arguments do_update {St} _ _.
Arguments do_terminate {St} _ _.
Arguments do_delete {St} _ _.

(** The world: the objects, the readings [time.time()] is going to return,
    the outcomes the next connection attempts are going to have ([None]: the
    connection is made), and the trace so far. *)
Record World (St : Type) := {
  store : oid -> St;
  clock : nat -> Z;
  net : nat -> option exn;
  trace : list event
}.
Arguments store {St} _ _.
Arguments clock {St} _ _.
Arguments net {St} _ _.
Arguments trace {St} _.

(** The result of running a piece of the program. *)
Inductive res (A : Type) :=
| Ret (a : A)
| Raise (e : exn)
| Diverge.
Arguments Ret {A} a.
Arguments Raise {A} e.
Arguments Diverge {A}.

(** A ledger entry: [(resource, keep_on_success, keep_on_error)]. *)
Definition entry : Type := oid * bool * bool.

(** [self.resources] of a [cleanup_context]. *)
Record cleanup_context := { resources : list entry }.

(** [cleanup_context.__init__] *)
Definition __init__ : cleanup_context := {| resources := [] |}.

(** [cleanup_context.add]: [self.resources.append(...)].  The keyword
    arguments default to [False]; [add_default] is the call [add(resource)]. *)
Definition add (self : cleanup_context) (resource : oid)
    (keep_on_success keep_on_error : bool) : cleanup_context :=
  {| resources := resources self ++ [(resource, keep_on_success, keep_on_error)] |}.

Definition add_default (self : cleanup_context) (resource : oid) : cleanup_context :=
  add self resource false false.


(** A sequence of [add] calls, first call first. *)
Definition add_all (self : cleanup_context) (calls : list entry) : cleanup_context :=
  fold_left (fun c e => add c (fst (fst e)) (snd (fst e)) (snd e)) calls self.

(** The test at the head of [__exit__]:
    [exc_typ is None and exc_val is None and exc_tb is None]. *)
Definition is_success_exit {T V B : Type}
    (exc_typ : option T) (exc_val : option V) (exc_tb : option B) : bool :=
  match exc_typ, exc_val, exc_tb with
  | None, None, None => true
  | _, _, _ => false
  end.

(** The list comprehensions of [__exit__]. *)
Definition to_cleanup {T V B : Type} (self : cleanup_context)
    (exc_typ : option T) (exc_val : option V) (exc_tb : option B) : list oid :=
  if is_success_exit exc_typ exc_val exc_tb
  then map (fun r => fst (fst r)) (filter (fun r => negb (snd (fst r))) (resources self))
  else map (fun r => fst (fst r)) (filter (fun r => negb (snd r)) (resources self)).

(** The defaults of [wait_for_status] and [wait_for_instance_ready]:
    [via=None, timeout=5*60, sleep_time=5]. *)
Definition default_via : option (list string) := None.
Definition default_timeout : option Z := Some (5 * 60)%Z.
Definition default_sleep_time : Z := 5%Z.

Section Program.
Context {St : Type} (ops : ResourceOps St).

(** *** The monad: world passing, with exceptions and fuel *)

Definition M (A : Type) : Type := World St -> res A * World St.

Definition ret {A} (a : A) : M A := fun w => (Ret a, w).

Definition raise {A} (e : exn) : M A := fun w => (Raise e, w).

Definition bind {A B} (m : M A) (k : A -> M B) : M B :=
  fun w =>
    match m w with
    | (Ret a, w') => k a w'
    | (Raise e, w') => (Raise e, w')
    | (Diverge, w') => (Diverge, w')
    end.

(** [try: m  except <cls>: h], where [catches e] is [isinstance(e, cls)]. *)
Definition try_except {A} (m : M A) (catches : exn -> bool) (h : exn -> M A) : M A :=
  fun w =>
    match m w with
    | (Raise e, w') => if catches e then h e w' else (Raise e, w')
    | r => r
    end.

Definition emit (ev : event) (w : World St) : World St :=
  {| store := store w; clock := clock w; net := net w; trace := trace w ++ [ev] |}.

Definition set_obj (o : oid) (s : St) (w : World St) : World St :=
  {| store := fun o' => if Nat.eqb o' o then s else store w o';
     clock := clock w; net := net w; trace := trace w |}.

(** [logger.debug], [logger.warn], [logger.exception]. *)
Definition log (l : level) (fmt : string) (args : list logarg) : M unit :=
  fun w => (Ret tt, emit (ELog l fmt args None) w).

Definition log_exception (fmt : string) (args : list logarg) (e : exn) : M unit :=
  fun w => (Ret tt, emit (ELog ERROR fmt args (Some e)) w).

(** [time.time()] *)
Definition time_time : M Z :=
  fun w =>
    let now := clock w 0 in
    (Ret now,
     emit (ETime now)
       {| store := store w; clock := fun k => clock w (S k); net := net w;
          trace := trace w |}).

(** [time.sleep(secs)], for a number of seconds that it takes: one that
    is not negative (it raises on a negative one).  What is proved of the
    runs that sleep is stated for [0 <= sleep_time]. *)
Definition time_sleep (secs : Z) : M unit :=
  fun w => (Ret tt, emit (ESleep secs) w).

(** The four lines [socket.socket(...)], [s.settimeout(t)],
    [s.connect((host, port))], [s.close()], for a timeout that
    [settimeout] takes: one that is not negative. *)
Definition connect (host : string) (port : Z) (t : Z) : M unit :=
  fun w =>
    let w' := emit (EConnect host port t)
                {| store := store w; clock := clock w; net := fun k => net w (S k);
                   trace := trace w |} in
    match net w 0 with
    | None => (Ret tt, w')
    | Some e => (Raise e, w')
    end.

(** A method call [obj.m()]: an [AttributeError] when the object has no
    such attribute, else the call, with its effect on the object. *)
Definition call {A} (obj : oid) (m : method) (name : string)
    (has : St -> bool) (run : St -> St * outcome A) : M A :=
  fun w =>
    if has (store w obj) then
      let (s', r) := run (store w obj) in
      let w' := emit (ECall obj m) (set_obj obj s' w) in
      match r with
      | Returned a => (Ret a, w')
      | Raised e => (Raise e, w')
      end
    else (Raise (AttributeError name), w).

Definition call_update (obj : oid) : M string :=
  call obj m_update "update" (has_update ops) (do_update ops).

Definition call_terminate (obj : oid) : M unit :=
  call obj m_terminate "terminate" (has_terminate ops) (do_terminate ops).

Definition call_delete (obj : oid) : M unit :=
  call obj m_delete "delete" (has_delete ops) (do_delete ops).

(** [getattr(obj, "status", default)] *)
Definition getattr_status (obj : oid) (default : string) : M string :=
  fun w =>
    match get_status ops (store w obj) with
    | Some s => (Ret s, w)
    | None => (Ret default, w)
    end.

(** [hasattr(resource, name)] for the two names [_cleanup_resource] asks. *)
Definition hasattr_terminate (obj : oid) : M bool :=
  fun w => (Ret (has_terminate ops (store w obj)), w).

Definition hasattr_delete (obj : oid) : M bool :=
  fun w => (Ret (has_delete ops (store w obj)), w).

Definition get_public_dns_name (obj : oid) : M string :=
  fun w => (Ret (public_dns_name ops (store w obj)), w).
End Program.
Arguments M : clear implicits.

Declare Scope monad_scope.
Delimit Scope monad_scope with monad.
Notation "x <- m ;; k" := (bind m (fun x => k))
  (at level 61, m at next level, right associativity) : monad_scope.
Notation "m ;; k" := (bind m (fun _ => k))
  (at level 61, right associativity) : monad_scope.

(** ** The functions of [util.py] *)

Section Util.
Context {St : Type} (ops : ResourceOps St).
Local Open Scope monad_scope.

(** [cur_status not in via], for [via] a list of strings. *)
Definition not_in (cur_status : string) (via : list string) : bool :=
  negb (existsb (String.eqb cur_status) via).

(** [if timeout is not None: max_time = time.time() + timeout].
    [max_time] is bound exactly when [timeout] is not [None]. *)
Definition set_max_time (timeout : option Z) : M St (option Z) :=
  match timeout with
  | Some t => now <- time_time ;; ret (Some (now + t)%Z)
  | None => ret None
  end.

(** [getattr(obj, "status", obj.update())]: the argument [obj.update()] is
    evaluated first, then the attribute is looked up. *)
Definition sample_status (obj : oid) : M St string :=
  default <- call_update ops obj ;;
  getattr_status ops obj default.

(** The [while True] loop of [wait_for_status]. *)
Fixpoint wait_for_status_loop (fuel : nat) (obj : oid) (status : string)
    (via : option (list string)) (max_time : option Z) (sleep_time : Z) : M St bool :=
  match fuel with
  | O => fun w => (Diverge, w)
  | S fuel' =>
      cur_status <- sample_status obj ;;
      log DEBUG "...%s is currently %r" [AObj obj; AStr cur_status] ;;
      if String.eqb cur_status status then ret true
      else if match via with
              | Some v => not_in cur_status v
              | None => false
              end
      then
        log WARNING "...%s has unexpected status %r" [AObj obj; AStr status] ;;
        raise (RuntimeError ("Unexpected status: " ++ status))
      else
        match max_time with
        | Some mt =>
            now <- time_time ;;
            if Z.leb mt now then
              log WARNING "...timeout waiting for %s status %r" [AObj obj; AStr status] ;;
              raise (RuntimeError "Operation timed out")
            else
              time_sleep sleep_time ;;
              wait_for_status_loop fuel' obj status via max_time sleep_time
        | None =>
            time_sleep sleep_time ;;
            wait_for_status_loop fuel' obj status via max_time sleep_time
        end
  end.

(** [wait_for_status(obj, status, via, timeout, sleep_time)] *)
Definition wait_for_status (fuel : nat) (obj : oid) (status : string)
    (via : option (list string)) (timeout : option Z) (sleep_time : Z) : M St bool :=
  log DEBUG "waiting for %s to reach status %r" [AObj obj; AStr status] ;;
  max_time <- set_max_time timeout ;;
  wait_for_status_loop fuel obj status via max_time sleep_time.

(** The [while True] loop of [wait_for_instance_ready]. *)
Fixpoint wait_for_ssh_loop (fuel : nat) (instance : oid)
    (max_time : option Z) (sleep_time : Z) : M St unit :=
  match fuel with
  | O => fun w => (Diverge, w)
  | S fuel' =>
      host <- get_public_dns_name ops instance ;;
      log DEBUG "...waiting for ssh on %s" [AStr host] ;;
      try_except
        (host' <- get_public_dns_name ops instance ;;
         connect host' 22 sleep_time)
        is_socket_error
        (fun _ =>
           match max_time with
           | Some mt =>
               now <- time_time ;;
               if Z.leb mt now then
                 log WARNING "...timeout waiting for %s to be ready" [AObj instance] ;;
                 raise (RuntimeError "Operation timed out")
               else
                 time_sleep sleep_time ;;
                 wait_for_ssh_loop fuel' instance max_time sleep_time
           | None =>
               time_sleep sleep_time ;;
               wait_for_ssh_loop fuel' instance max_time sleep_time
           end)
  end.

(** [wait_for_instance_ready(instance, timeout, sleep_time)] *)
Definition wait_for_instance_ready (fuel : nat) (instance : oid)
    (timeout : option Z) (sleep_time : Z) : M St unit :=
  log DEBUG "waiting for %s to be ready" [AObj instance] ;;
  max_time <- set_max_time timeout ;;
  wait_for_status fuel instance "running" (Some ["pending"]) timeout sleep_time ;;
  wait_for_ssh_loop fuel instance max_time sleep_time.

(** [cleanup_context._cleanup_resource] *)
Definition _cleanup_resource (fuel : nat) (resource : oid) : M St unit :=
  log DEBUG "cleaning up %s" [AObj resource] ;;
  t <- hasattr_terminate ops resource ;;
  (if t : bool then
     call_terminate ops resource ;;
     wait_for_status fuel resource "terminated"
       default_via default_timeout default_sleep_time ;;
     ret tt
   else ret tt) ;;
  d <- hasattr_delete ops resource ;;
  if d : bool then call_delete ops resource else ret tt.

(** [ordered_classes] and the loop over [enumerate(ordered_classes)]:
    the index of the first class the resource is an instance of, and one
    more than the last index when there is none. *)
Definition ordered_classes : list ec2class := [Instance; Volume; Snapshot].

Fixpoint sortkey_from (i : nat) (classes : list ec2class) (s : St) : nat :=
  match classes with
  | [] => i
  | cls :: rest => if isinstance ops s cls then i else sortkey_from (S i) rest s
  end.

(** [cleanup_context._sortkey_for_cleanup_ordering] *)
Definition _sortkey_for_cleanup_ordering (s : St) : nat :=
  sortkey_from 0 ordered_classes s.

(** The body of the [for] loop of [__exit__]. *)
Definition cleanup_or_log (fuel : nat) (r : oid) : M St unit :=
  try_except (_cleanup_resource fuel r) is_Exception
    (fun e => log_exception "failed to cleanup %s" [AObj r] e).

Fixpoint for_each (l : list oid) (body : oid -> M St unit) : M St unit :=
  match l with
  | [] => ret tt
  | r :: t => body r ;; for_each t body
  end.

(** [to_cleanup] after [to_cleanup.sort(key=...)], in the world where
    [__exit__] is called. *)
Definition cleanup_order {T V B : Type} (self : cleanup_context)
    (exc_typ : option T) (exc_val : option V) (exc_tb : option B)
    (w : World St) : list oid :=
  sort_by_key (fun r => _sortkey_for_cleanup_ordering (store w r))
    (to_cleanup self exc_typ exc_val exc_tb).

(** [cleanup_context.__exit__]; it ends without a [return], so with [None]. *)
Definition __exit__ {T V B : Type} (fuel : nat) (self : cleanup_context)
    (exc_typ : option T) (exc_val : option V) (exc_tb : option B) : M St pyvalue :=
  fun w =>
    (for_each (cleanup_order self exc_typ exc_val exc_tb w) (cleanup_or_log fuel) ;;
     ret PyNone) w.

(** The end of a [with cleanup_context() as cleanup:] block, as the
    language defines it: [__exit__] is called with the exception the body
    raised, or with three [None]s; the exception is raised again unless
    [__exit__] returned a true value. *)
Definition leave_with (fuel : nat) (self : cleanup_context)
    (body : res unit) : M St unit :=
  match body with
  | Ret _ =>
      __exit__ fuel self (@None string) (@None exn) (@None unit) ;; ret tt
  | Raise e =>
      suppress <- __exit__ fuel self (Some "type") (Some e) (Some tt) ;;
      if truthy suppress then ret tt else raise e
  | Diverge => fun w => (Diverge, w)
  end.

(** *** Reading a trace *)

(** The resources whose cleanup was started: one debug record each. *)
Definition attempt_of (ev : event) : option oid :=
  match ev with
  | ELog DEBUG fmt [AObj r] None =>
      if String.eqb fmt "cleaning up %s" then Some r else None
  | _ => None
  end.

Fixpoint attempts (tr : list event) : list oid :=
  match tr with
  | [] => []
  | ev :: t =>
      match attempt_of ev with
      | Some r => r :: attempts t
      | None => attempts t
      end
  end.

(** The method calls made, in order. *)
Fixpoint calls (tr : list event) : list (oid * method) :=
  match tr with
  | [] => []
  | ECall o m :: t => (o, m) :: calls t
  | _ :: t => calls t
  end.

(** The readings of the clock, in order. *)
Fixpoint readings (tr : list event) : list Z :=
  match tr with
  | [] => []
  | ETime z :: t => z :: readings t
  | _ :: t => readings t
  end.

(** The log records, in order. *)
Fixpoint logged (tr : list event) : list event :=
  match tr with
  | [] => []
  | ELog l f a e :: t => ELog l f a e :: logged t
  | _ :: t => logged t
  end.

(** The connection attempts, in order. *)
Fixpoint connections (tr : list event) : list event :=
  match tr with
  | [] => []
  | EConnect h p t' :: t => EConnect h p t' :: connections t
  | _ :: t => connections t
  end.

(** *** The statuses an object is going to show

    What one round of [getattr(obj, "status", obj.update())] observes on
    an object in state [s], and the state the object is left in; the
    object after [k] rounds; what round [k] (from 0) observes. *)
Definition sampled (s : St) : res string :=
  if has_update ops s then
    match snd (do_update ops s) with
    | Returned v =>
        Ret (match get_status ops (fst (do_update ops s)) with
             | Some st => st
             | None => v
             end)
    | Raised e => Raise e
    end
  else Raise (AttributeError "update").

Definition updated (s : St) : St :=
  if has_update ops s then fst (do_update ops s) else s.

Fixpoint after_updates (k : nat) (s : St) : St :=
  match k with
  | O => s
  | S k' => after_updates k' (updated s)
  end.

Definition status_at (s : St) (k : nat) : res string :=
  sampled (after_updates k s).

(** A status that keeps the loop of [wait_for_status] going: not the
    target, and one of [via] when [via] is given. *)
Definition in_transit (status : string) (via : option (list string))
    (cur_status : string) : bool :=
  negb (String.eqb cur_status status) &&
  match via with
  | Some v => negb (not_in cur_status v)
  | None => true
  end.

(** [timeout is not None and now >= max_time] *)
Definition reached (max_time : option Z) (now : Z) : bool :=
  match max_time with
  | Some mt => Z.leb mt now
  | None => false
  end.

(** The world after a round of the loop that goes on to the next one. *)
Definition after_round (obj : oid) (cur_status : string) (max_time : option Z)
    (sleep_time : Z) (w : World St) : World St :=
  let w1 := emit (ELog DEBUG "...%s is currently %r" [AObj obj; AStr cur_status] None)
              (emit (ECall obj m_update) (set_obj obj (updated (store w obj)) w)) in
  emit (ESleep sleep_time)
    match max_time with
    | Some _ => snd (time_time w1)
    | None => w1
    end.

(** [max_time] as [wait_for_status] and [wait_for_instance_ready] set it
    when they are entered in the world [w]. *)
Definition deadline (timeout : option Z) (w : World St) : option Z :=
  match timeout with
  | Some t => Some (clock w 0 + t)%Z
  | None => None
  end.
End Util.

(** The sleeps, in order. *)
Fixpoint sleeps (tr : list event) : list Z :=
  match tr with
  | [] => []
  | ESleep secs :: t => secs :: sleeps t
  | _ :: t => sleeps t
  end.

(** The calls and the sleeps, in the order in which they were made. *)
Inductive beat :=
| Called (o : oid) (m : method)
| Slept (secs : Z).

Fixpoint beats (tr : list event) : list beat :=
  match tr with
  | [] => []
  | ECall o m :: t => Called o m :: beats t
  | ESleep secs :: t => Slept secs :: beats t
  | _ :: t => beats t
  end.

(** [m] times over, a call of [obj.update()] and then a sleep of
    [sleep_time] seconds. *)
Fixpoint sample_and_sleep (obj : oid) (sleep_time : Z) (m : nat) : list beat :=
  match m with
  | O => []
  | S m' => Called obj m_update :: Slept sleep_time :: sample_and_sleep obj sleep_time m'
  end.

(** ** Scripted resources

    A family of concrete objects, to run the functions on: an object of
    this kind reports the statuses of a script, one per [update()], and
    [rest_status] once the script is used up. *)

Record robot := {
  (** its class, when it is one of the three of [ordered_classes] *)
  kind : option ec2class;
  can_update : bool;
  can_terminate : bool;
  can_delete : bool;
  (** the [status] attribute, when it has one; [update()] then writes it *)
  attr_status : option string;
  script : list string;
  rest_status : string;
  (** what [terminate()] and [delete()] raise, if anything *)
  terminate_raises : option exn;
  delete_raises : option exn;
  dns_name : string
}.

Definition ec2class_eqb (a b : ec2class) : bool :=
  match a, b with
  | Instance, Instance | Volume, Volume | Snapshot, Snapshot => true
  | _, _ => false
  end.

Definition robot_update (r : robot) : robot * outcome string :=
  let cur := match script r with
             | s :: _ => s
             | [] => rest_status r
             end in
  ({| kind := kind r; can_update := can_update r; can_terminate := can_terminate r;
      can_delete := can_delete r;
      attr_status := match attr_status r with
                     | Some _ => Some cur
                     | None => None
                     end;
      script := tl (script r); rest_status := rest_status r;
      terminate_raises := terminate_raises r; delete_raises := delete_raises r;
      dns_name := dns_name r |},
   Returned cur).

Definition robot_ops : ResourceOps robot := {|
  isinstance := fun r cls =>
    match kind r with
    | Some k => ec2class_eqb k cls
    | None => false
    end;
  has_update := can_update;
  has_terminate := can_terminate;
  has_delete := can_delete;
  get_status := attr_status;
  public_dns_name := dns_name;
  do_update := robot_update;
  do_terminate := fun r =>
    (r, match terminate_raises r with
        | Some e => Raised e
        | None => Returned tt
        end);
  do_delete := fun r =>
    (r, match delete_raises r with
        | Some e => Raised e
        | None => Returned tt
        end)
|}.

(** A robot that only has [update()], returning the statuses of [sc] and
    then [rest] for ever. *)
Definition poller (sc : list string) (rest : string) : robot :=
  {| kind := Some Instance; can_update := true; can_terminate := false;
     can_delete := false; attr_status := None; script := sc; rest_status := rest;
     terminate_raises := None; delete_raises := None;
     dns_name := "ec2-host.example" |}.

(** A world with the same robot behind every reference, a clock that reads
    [t0], [t0 + dt], [t0 + 2 dt], ... and a network where every connection
    attempt ends with [conn]. *)
Definition world_of (r : oid -> robot) (t0 dt : Z) (conn : option exn) : World robot :=
  {| store := r; clock := fun k => (t0 + dt * Z.of_nat k)%Z; net := fun _ => conn;
     trace := [] |}.

(** The three objects of the specification's example: statuses
    [pending, pending, running], [pending, stopped], and [pending] for
    ever, under a clock that advances five seconds a reading. *)
Definition w_pending_running : World robot :=
  world_of (fun _ => poller ["pending"; "pending"] "running") 0 5 None.

Definition w_pending_stopped : World robot :=
  world_of (fun _ => poller ["pending"] "stopped") 0 5 None.

Definition w_pending_forever : World robot :=
  world_of (fun _ => poller [] "pending") 0 5 None.

(** An object with a [status] attribute that [update()] refreshes, and an
    object that has the attribute, already at the target, but no
    [update()] method. *)
Definition with_status (st : string) (r : robot) : robot :=
  {| kind := kind r; can_update := can_update r; can_terminate := can_terminate r;
     can_delete := can_delete r; attr_status := Some st; script := script r;
     rest_status := rest_status r; terminate_raises := terminate_raises r;
     delete_raises := delete_raises r; dns_name := dns_name r |}.

Definition without_update (r : robot) : robot :=
  {| kind := kind r; can_update := false; can_terminate := can_terminate r;
     can_delete := can_delete r; attr_status := attr_status r; script := script r;
     rest_status := rest_status r; terminate_raises := terminate_raises r;
     delete_raises := delete_raises r; dns_name := dns_name r |}.

Definition w_stale_attribute : World robot :=
  world_of (fun _ => with_status "stale" (poller ["pending"] "running")) 0 5 None.

Definition w_no_update : World robot :=
  world_of (fun _ => without_update (with_status "running" (poller [] "running")))
    0 5 None.

(** Resources of the kinds the ledger meets: an instance, which can be
    terminated, polled and deleted and reports the statuses of [sc] and then
    [rest]; a volume and a snapshot, which can only be deleted; and an
    object with neither capability. *)
Definition instance (sc : list string) (rest : string) : robot :=
  {| kind := Some Instance; can_update := true; can_terminate := true;
     can_delete := true; attr_status := None; script := sc; rest_status := rest;
     terminate_raises := None; delete_raises := None;
     dns_name := "ec2-host.example" |}.

Definition volume : robot :=
  {| kind := Some Volume; can_update := false; can_terminate := false;
     can_delete := true; attr_status := None; script := []; rest_status := "available";
     terminate_raises := None; delete_raises := None; dns_name := "" |}.

Definition snapshot : robot :=
  {| kind := Some Snapshot; can_update := false; can_terminate := false;
     can_delete := true; attr_status := None; script := []; rest_status := "completed";
     terminate_raises := None; delete_raises := None; dns_name := "" |}.

Definition inert : robot :=
  {| kind := None; can_update := false; can_terminate := false;
     can_delete := false; attr_status := None; script := []; rest_status := "";
     terminate_raises := None; delete_raises := None; dns_name := "" |}.

(** A resource whose [terminate()], or [delete()], raises [e]. *)
Definition failing_terminate (e : exn) (r : robot) : robot :=
  {| kind := kind r; can_update := can_update r; can_terminate := can_terminate r;
     can_delete := can_delete r; attr_status := attr_status r; script := script r;
     rest_status := rest_status r; terminate_raises := Some e;
     delete_raises := delete_raises r; dns_name := dns_name r |}.

Definition failing_delete (e : exn) (r : robot) : robot :=
  {| kind := kind r; can_update := can_update r; can_terminate := can_terminate r;
     can_delete := can_delete r; attr_status := attr_status r; script := script r;
     rest_status := rest_status r; terminate_raises := terminate_raises r;
     delete_raises := Some e; dns_name := dns_name r |}.

(** The objects of a list behind the references [0], [1], ..., and
    [inert] behind the others. *)
Definition objects (l : list robot) : oid -> robot := fun o => nth o l inert.

(** An instance that terminates after one more status, a volume and an
    object with no capability; and an instance that stays in
    [shutting-down] for ever. *)
Definition w_teardown : World robot :=
  world_of (objects [instance ["shutting-down"] "terminated"; volume; inert]) 0 5 None.

Definition w_stuck : World robot :=
  world_of (objects [instance [] "shutting-down"; volume]) 0 5 None.

(** An instance that is seen in [shutting-down] seventy times and is
    [terminated] from the seventy-first sample on. *)
Definition w_late : World robot :=
  world_of (objects [instance (repeat "shutting-down" 70) "terminated"; volume]) 0 5 None.

(** A ledger with six resources of mixed kinds, none of them kept, in a
    world where the instances are terminated at the first poll. *)
Definition w_mixed : World robot :=
  world_of
    (objects [snapshot; inert; volume; instance [] "terminated"; volume;
              instance [] "terminated"]) 0 5 None.

Definition mixed_ledger : cleanup_context :=
  add_all __init__
    [(0, false, false); (1, false, false); (2, false, false);
     (3, false, false); (4, false, false); (5, false, false)].

(** Three resources A, B, C registered in that order, where destroying A
    fails: A is a volume whose [delete()] raises an error of the service;
    and two resources where the [terminate()] of the first is interrupted
    from the keyboard. *)
Definition w_partial : World robot :=
  world_of
    (objects [failing_delete (OtherException "EC2ResponseError") volume; volume; snapshot])
    0 5 None.

Definition w_interrupted : World robot :=
  world_of
    (objects [failing_terminate (NonException "KeyboardInterrupt")
                (instance [] "terminated"); volume])
    0 5 None.

Definition abc_ledger : cleanup_context :=
  add_default (add_default (add_default __init__ 0) 1) 2.

Definition ab_ledger : cleanup_context :=
  add_default (add_default __init__ 0) 1.

(** An instance that is [running] at the first poll, behind a port that
    never accepts a connection; and one that is [pending] once and then
    [running], under a clock that reads 0, 0, 299 and then, after the sleep
    of five seconds, 304: the status phase ends 304 seconds after the
    start. *)
Definition w_port_closed : World robot :=
  world_of (fun _ => poller [] "running") 0 5 (Some SocketError).

Definition w_slow_start : World robot :=
  {| store := fun _ => poller ["pending"] "running";
     clock := fun k => nth k [0; 0; 299]%Z 304%Z;
     net := fun _ => Some SocketError;
     trace := [] |}.

(** A clock that reads the values of a list, then [rest] for ever. *)
Definition clock_of (l : list Z) (rest : Z) : nat -> Z := fun k => nth k l rest.

Definition with_clock {St : Type} (c : nat -> Z) (w : World St) : World St :=
  {| store := store w; clock := c; net := net w; trace := trace w |}.

(** An instance that is [pending] once and then [running], behind a port
    that refuses two connections and accepts the third; and an instance
    that is [running], where the connection attempt is interrupted from the
    keyboard. *)
Definition w_port_opens : World robot :=
  {| store := fun _ => poller ["pending"] "running";
     clock := fun k => (5 * Z.of_nat k)%Z;
     net := fun k => nth k [Some SocketError; Some SocketError] None;
     trace := [] |}.

Definition w_connect_interrupted : World robot :=
  world_of (fun _ => poller [] "running") 0 5 (Some (NonException "KeyboardInterrupt")).

(** ** Templates on the file system *)

(** What [yaml.safe_load] and [json.load] hand back.  [load_cfn_template]
    only tells a [dict] from the rest; the keys of a [dict] are values too
    (a YAML mapping can have keys that are not strings).  [VOther] stands
    for the values of the other types: floats, dates, sets. *)
#[warnings="-register-all"]
Inductive value :=
| VNone
| VBool (b : bool)
| VInt (n : Z)
| VStr (s : string)
| VOther (repr : string)
| VList (elements : list value)
| VDict (items : list (value * value)).

(** [key == k], for a key of a [dict] and a string [k]. *)
Definition is_key (k : string) (key : value) : bool :=
  match key with
  | VStr s => String.eqb s k
  | _ => false
  end.

(** [d[k] = v] on the items of a [dict]: the value under [k] is replaced
    when the key is there, an item is added when it is not. *)
Fixpoint dict_setitem (k : string) (v : value) (items : list (value * value))
    : list (value * value) :=
  match items with
  | [] => [(VStr k, v)]
  | (key, old) :: rest =>
      if is_key k key then (key, v) :: rest else (key, old) :: dict_setitem k v rest
  end.

(** [d.get(k)] on the items of a [dict]. *)
Fixpoint dict_get (k : string) (items : list (value * value)) : option value :=
  match items with
  | [] => None
  | (key, v) :: rest => if is_key k key then Some v else dict_get k rest
  end.

(** [data[k] = v]: a [TypeError] on anything but a [dict] (a list takes
    no string index, the other types no item assignment at all). *)
Definition setitem (data : value) (k : string) (v : value) : outcome value :=
  match data with
  | VDict items => Returned (VDict (dict_setitem k v items))
  | _ => Raised (OtherException "TypeError")
  end.

(** What is under the key [k] of [data], when [data] is a [dict] that has
    the key. *)
Definition lookup (k : string) (data : value) : option value :=
  match data with
  | VDict items => dict_get k items
  | _ => None
  end.

Definition is_dict (data : value) : bool :=
  match data with
  | VDict _ => true
  | _ => false
  end.

(** [s.startswith(prefix)], [s.endswith(suffix)] and [s.split(sep)] for a
    separator of one character. *)
Definition startswith (s prefix : string) : bool := String.prefix prefix s.

Definition endswith (s suffix : string) : bool :=
  Nat.leb (String.length suffix) (String.length s) &&
  String.eqb
    (substring (String.length s - String.length suffix) (String.length suffix) s)
    suffix.

Fixpoint split (sep : ascii) (s : string) : list string :=
  match s with
  | EmptyString => [EmptyString]
  | String c t =>
      if Ascii.eqb c sep then EmptyString :: split sep t
      else
        match split sep t with
        | field :: fields => String c field :: fields
        | [] => [String c EmptyString]
        end
  end.

(** [nm.split(".")[0]] *)
Definition key_of (nm : string) : string := hd EmptyString (split "."%char nm).

(** [os.path.join(a, b)], as [posixpath] has it. *)
Definition os_path_join (a b : string) : string :=
  if startswith b "/" then b
  else if String.eqb a "" || endswith a "/" then a ++ b
  else a ++ "/" ++ b.

(** What the machine answers: [os.path.isdir], [os.path.exists],
    [os.listdir], [open(path, "r")] (the text of the file, or the error of
    opening or reading it) and the two parsers. *)
Record Platform := {
  os_path_isdir : string -> bool;
  os_path_exists : string -> bool;
  os_listdir : string -> outcome (list string);
  open_r : string -> outcome string;
  yaml_safe_load : string -> outcome value;
  json_load : string -> outcome value
}.

Definition of_outcome {A : Type} (o : outcome A) : res A :=
  match o with
  | Returned a => Ret a
  | Raised e => Raise e
  end.

Section Templates.
Context (host : Platform).

(** The loop [for main_file in ("main.json", "main.yaml", "main.yml")]
    with its [break]: the value the variable [main_file] is left with, and
    whether the loop was left by [break] (the [else] branch is run when it
    was not). *)
Fixpoint pick_main_file (path main_file : string) (others : list string)
    : string * bool :=
  if os_path_exists host (os_path_join path main_file) then (main_file, true)
  else
    match others with
    | [] => (main_file, false)
    | next :: others' => pick_main_file path next others'
    end.

(** The loop [for nm in os.listdir(path)], over the names listed, with
    [load] for the recursive call.  In [data[key] = load(...)] the right
    hand side is evaluated before the item is assigned. *)
Fixpoint merge_entries (load : string -> res value) (path main_file : string)
    (names : list string) (data : value) : res value :=
  match names with
  | [] => Ret data
  | nm :: rest =>
      if String.eqb nm main_file then merge_entries load path main_file rest data
      else if startswith nm "." then merge_entries load path main_file rest data
      else
        match load (os_path_join path nm) with
        | Ret v =>
            match setitem data (key_of nm) v with
            | Returned data' => merge_entries load path main_file rest data'
            | Raised e => Raise e
            end
        | Raise e => Raise e
        | Diverge => Diverge
        end
  end.

(** [load_cfn_template(path)].  The fuel bounds the depth of the
    recursion. *)
Fixpoint load_cfn_template (fuel : nat) (path : string) : res value :=
  match fuel with
  | O => Diverge
  | S fuel' =>
      if negb (os_path_isdir host path) then
        match open_r host path with
        | Returned f =>
            if endswith path ".yaml" || endswith path ".yml"
            then of_outcome (yaml_safe_load host f)
            else of_outcome (json_load host f)
        | Raised e => Raise e
        end
      else
        let (main_file, found) :=
          pick_main_file path "main.json" ["main.yaml"; "main.yml"] in
        match (if found : bool
               then load_cfn_template fuel' (os_path_join path main_file)
               else Ret (VDict [])) with
        | Ret data =>
            match os_listdir host path with
            | Returned names =>
                merge_entries (load_cfn_template fuel') path main_file names data
            | Raised e => Raise e
            end
        | Raise e => Raise e
        | Diverge => Diverge
        end
  end.

(** The value of [main_file] after the first loop, whether a main file
    was found, and what [data] is before the second loop. *)
Definition main_file_of (path : string) : string :=
  fst (pick_main_file path "main.json" ["main.yaml"; "main.yml"]).

Definition has_main_file (path : string) : bool :=
  snd (pick_main_file path "main.json" ["main.yaml"; "main.yml"]).

Definition main_data (fuel : nat) (path : string) : res value :=
  if has_main_file path
  then load_cfn_template fuel (os_path_join path (main_file_of path))
  else Ret (VDict []).

(** An entry that the second loop merges: not [main_file], and not
    hidden. *)
Definition merged (main_file nm : string) : bool :=
  negb (String.eqb nm main_file) && negb (startswith nm ".").

(** The last of the merged entries of a listing that lands on the key
    [k]. *)
Fixpoint entry_for (main_file k : string) (names : list string) : option string :=
  match names with
  | [] => None
  | nm :: rest =>
      match entry_for main_file k rest with
      | Some later => Some later
      | None =>
          if merged main_file nm && String.eqb (key_of nm) k then Some nm else None
      end
  end.

(** Below [path] the directories are nested at most [d] deep, along the
    names that [load_cfn_template] follows: the three main files and the
    names listed. *)
Fixpoint shallow (d : nat) (path : string) : Prop :=
  match d with
  | O => os_path_isdir host path = false
  | S d' =>
      os_path_isdir host path = true ->
      (forall c, In c ["main.json"; "main.yaml"; "main.yml"] ->
                 shallow d' (os_path_join path c)) /\
      (forall names nm, os_listdir host path = Returned names -> In nm names ->
                        shallow d' (os_path_join path nm))
  end.
End Templates.

(** The machine with the hidden entries taken out of every listing. *)
Definition without_hidden (host : Platform) : Platform :=
  {| os_path_isdir := os_path_isdir host;
     os_path_exists := os_path_exists host;
     os_listdir := fun path =>
       match os_listdir host path with
       | Returned names => Returned (filter (fun nm => negb (startswith nm ".")) names)
       | Raised e => Raised e
       end;
     open_r := open_r host;
     yaml_safe_load := yaml_safe_load host;
     json_load := json_load host |}.

(** A machine given by tables: the directories with their listings, the
    files with their text, and what the texts parse to; a text that is not
    in the table of a parser is an error of that parser. *)
Fixpoint assoc {A : Type} (k : string) (table : list (string * A)) : option A :=
  match table with
  | [] => None
  | (k', a) :: rest => if String.eqb k' k then Some a else assoc k rest
  end.

Definition machine (dirs : list (string * list string)) (files : list (string * string))
    (yaml json : list (string * value)) : Platform :=
  {| os_path_isdir := fun path =>
       match assoc path dirs with
       | Some _ => true
       | None => false
       end;
     os_path_exists := fun path =>
       match assoc path dirs, assoc path files with
       | None, None => false
       | _, _ => true
       end;
     os_listdir := fun path =>
       match assoc path dirs with
       | Some names => Returned names
       | None => Raised (OtherException "OSError")
       end;
     open_r := fun path =>
       match assoc path files with
       | Some text => Returned text
       | None => Raised (OtherException "IOError")
       end;
     yaml_safe_load := fun text =>
       match assoc text yaml with
       | Some v => Returned v
       | None => Raised (OtherException "YAMLError")
       end;
     json_load := fun text =>
       match assoc text json with
       | Some v => Returned v
       | None => Raised (OtherException "ValueError")
       end |}.

(** A template kept as a directory [stack]: a main file, a file and a
    directory of resources, a second main file and a hidden entry. *)
Definition stack_machine : Platform :=
  machine
    [("stack", ["Resources"; ".git"; "main.yaml"; "Outputs.json"; "main.json"]);
     ("stack/Resources", ["Bucket.yaml"; "Queue.json"]);
     ("stack/.git", ["HEAD"])]
    [("stack/main.json", "{}");
     ("stack/main.yaml", "Description: demo");
     ("stack/Outputs.json", "[]");
     ("stack/Resources/Bucket.yaml", "Type: AWS::S3::Bucket");
     ("stack/Resources/Queue.json", "7");
     ("stack/.git/HEAD", "ref: refs/heads/master")]
    [("Description: demo", VDict [(VStr "Description", VStr "demo")]);
     ("Type: AWS::S3::Bucket", VDict [(VStr "Type", VStr "AWS::S3::Bucket")])]
    [("{}", VDict []); ("[]", VList []); ("7", VInt 7)].

(** Directories that are not templates: one with a hidden entry only, one
    whose main file holds a list, and one with a file that does not
    parse. *)
Definition odd_machine : Platform :=
  machine
    [("bare", [".keep"]);
     ("listy", ["main.json"; "a.json"]);
     ("broken", ["ok.json"; "bad.json"; "never.json"])]
    [("listy/main.json", "[]"); ("listy/a.json", "7");
     ("broken/ok.json", "7"); ("broken/bad.json", "{")]
    []
    [("{}", VDict []); ("[]", VList []); ("7", VInt 7)].

(** A character of a string. *)
Fixpoint contains (c : ascii) (s : string) : bool :=
  match s with
  | EmptyString => false
  | String c' t => Ascii.eqb c' c || contains c t
  end.

(** * Properties *)

Local Open Scope list_scope.

(** ** The sort *)

Section SortFacts.
Context {A : Type} (key : A -> nat).

Lemma with_key_insert (k : nat) (x : A) (l : list A) :
  with_key key k (insert_by_key key x l) = with_key key k (x :: l).
Proof.
  induction l as [|y t IH]; [reflexivity|].
  simpl. destruct (Nat.leb (key x) (key y)) eqn:Hxy; [reflexivity|].
  apply Nat.leb_gt in Hxy.
  unfold with_key in *. simpl in *. rewrite IH.
  destruct (Nat.eqb (key x) k) eqn:Hx, (Nat.eqb (key y) k) eqn:Hy; try reflexivity.
  apply Nat.eqb_eq in Hx, Hy. lia.
Qed.

(** Stability: the elements of any one key keep their order. *)
Lemma with_key_sort (k : nat) (l : list A) :
  with_key key k (sort_by_key key l) = with_key key k l.
Proof.
  induction l as [|x t IH]; [reflexivity|].
  simpl. rewrite with_key_insert. unfold with_key in *. simpl. now rewrite IH.
Qed.

Lemma insert_perm (x : A) (l : list A) :
  Permutation (x :: l) (insert_by_key key x l).
Proof.
  induction l as [|y t IH]; simpl; [apply Permutation_refl|].
  destruct (Nat.leb (key x) (key y)); [apply Permutation_refl|].
  eapply perm_trans; [apply perm_swap|]. now apply perm_skip.
Qed.

Lemma sort_perm (l : list A) : Permutation l (sort_by_key key l).
Proof.
  induction l as [|x t IH]; simpl; [constructor|].
  eapply perm_trans; [apply perm_skip, IH|]. apply insert_perm.
Qed.

Lemma insert_ascending (x : A) (l : list A) :
  keys_ascending key l -> keys_ascending key (insert_by_key key x l).
Proof.
  induction l as [|y t IH]; simpl; intros H.
  - split; [constructor|exact I].
  - destruct H as [Hy Ht].
    destruct (Nat.leb (key x) (key y)) eqn:Hxy.
    + apply Nat.leb_le in Hxy. simpl. repeat split; auto.
      constructor; [exact Hxy|].
      eapply Forall_impl; [|exact Hy]. simpl. intros; lia.
    + apply Nat.leb_gt in Hxy. simpl. split; [|now apply IH].
      eapply Permutation_Forall; [apply insert_perm|].
      constructor; [lia|exact Hy].
Qed.

Lemma sort_ascending (l : list A) : keys_ascending key (sort_by_key key l).
Proof.
  induction l as [|x t IH]; simpl; [exact I|]. now apply insert_ascending.
Qed.

(** An ascending list whose keys start at [a] is its elements of key [a]
    followed by the others. *)
Lemma ascending_head_bucket (a : nat) (l : list A) :
  keys_ascending key l -> Forall (fun x => a <= key x) l ->
  l = with_key key a l ++ filter (fun x => Nat.ltb a (key x)) l.
Proof.
  induction l as [|x t IH]; [reflexivity|].
  simpl. intros [Hx Ht] Hall. inversion Hall as [|? ? Hax Hat]; subst.
  unfold with_key in *. simpl.
  destruct (Nat.eqb (key x) a) eqn:E.
  - apply Nat.eqb_eq in E.
    replace (Nat.ltb a (key x)) with false by (symmetry; apply Nat.ltb_ge; lia).
    simpl. f_equal. now apply IH.
  - apply Nat.eqb_neq in E.
    replace (Nat.ltb a (key x)) with true by (symmetry; apply Nat.ltb_lt; lia).
    assert (Hnone : filter (fun x0 => Nat.eqb (key x0) a) t = []).
    { clear IH Ht Hall Hat. induction Hx as [|y t' Hy _ IHt]; [reflexivity|].
      simpl. replace (Nat.eqb (key y) a) with false; [exact IHt|].
      symmetry. apply Nat.eqb_neq. lia. }
    assert (Hall' : filter (fun x0 => Nat.ltb a (key x0)) t = t).
    { clear IH Ht Hall Hat Hnone. induction Hx as [|y t' Hy _ IHt]; [reflexivity|].
      simpl. replace (Nat.ltb a (key y)) with true; [now rewrite IHt|].
      symmetry. apply Nat.ltb_lt. lia. }
    rewrite Hnone, Hall'. reflexivity.
Qed.

Lemma filter_ascending (f : A -> bool) (l : list A) :
  keys_ascending key l -> keys_ascending key (filter f l).
Proof.
  induction l as [|x t IH]; simpl; [auto|]. intros [Hx Ht].
  destruct (f x); simpl; [split|]; auto.
  rewrite Forall_forall in *. intros y Hy. apply Hx.
  apply filter_In in Hy. tauto.
Qed.

Lemma with_key_above (a k : nat) (l : list A) :
  a < k ->
  with_key key k (filter (fun x => Nat.ltb a (key x)) l) = with_key key k l.
Proof.
  intros Hak. unfold with_key. induction l as [|x t IH]; [reflexivity|].
  simpl. destruct (Nat.ltb a (key x)) eqn:E; simpl; rewrite IH; [reflexivity|].
  apply Nat.ltb_ge in E.
  replace (Nat.eqb (key x) k) with false; [reflexivity|].
  symmetry. apply Nat.eqb_neq. lia.
Qed.

Lemma flat_map_agree {B : Type} (f g : B -> list A) (l : list B) :
  (forall b, In b l -> f b = g b) -> flat_map f l = flat_map g l.
Proof.
  induction l as [|b t IH]; intros H; [reflexivity|].
  simpl. rewrite (H b (or_introl eq_refl)). f_equal.
  apply IH. intros b' Hb'. apply H. now right.
Qed.

(** An ascending list with keys in [a, a + n) is its buckets, in order. *)
Lemma ascending_buckets (n a : nat) (l : list A) :
  keys_ascending key l ->
  Forall (fun x => a <= key x < a + n) l ->
  l = flat_map (fun k => with_key key k l) (seq a n).
Proof.
  revert a l. induction n as [|n IH]; intros a l Hasc Hall.
  - destruct l as [|x t]; [reflexivity|].
    inversion Hall; subst. lia.
  - simpl.
    assert (Hlow : Forall (fun x => a <= key x) l)
      by (eapply Forall_impl; [|exact Hall]; simpl; intros; lia).
    rewrite (ascending_head_bucket a l Hasc Hlow) at 1. f_equal.
    rewrite (IH (S a) (filter (fun x => Nat.ltb a (key x)) l)).
    + apply flat_map_agree. intros k Hk. apply in_seq in Hk.
      apply with_key_above. lia.
    + now apply filter_ascending.
    + rewrite Forall_forall in *. intros x Hx. apply filter_In in Hx.
      destruct Hx as [Hx Hlt]. apply Nat.ltb_lt in Hlt.
      specialize (Hall x Hx). lia.
Qed.

(** The sort puts the buckets one after the other, each in the order its
    elements had in the input. *)
Lemma sort_by_key_buckets (n : nat) (l : list A) :
  (forall x, In x l -> key x < n) ->
  sort_by_key key l = flat_map (fun k => with_key key k l) (seq 0 n).
Proof.
  intros Hn.
  rewrite (ascending_buckets n 0 (sort_by_key key l)).
  - apply flat_map_agree. intros k _. apply with_key_sort.
  - apply sort_ascending.
  - apply Forall_forall. intros x Hx. split; [lia|]. simpl.
    apply Hn. eapply Permutation_in; [apply Permutation_sym, sort_perm|exact Hx].
Qed.
End SortFacts.

(** ** Traces *)

Lemma attempts_app (a b : list event) : attempts (a ++ b) = attempts a ++ attempts b.
Proof.
  induction a as [|ev t IH]; [reflexivity|].
  simpl. destruct (attempt_of ev); simpl; now rewrite IH.
Qed.

Lemma calls_app (a b : list event) : calls (a ++ b) = calls a ++ calls b.
Proof.
  induction a as [|ev t IH]; [reflexivity|].
  destruct ev; simpl; now rewrite IH.
Qed.

Lemma readings_app (a b : list event) : readings (a ++ b) = readings a ++ readings b.
Proof.
  induction a as [|ev t IH]; [reflexivity|].
  destruct ev; simpl; now rewrite IH.
Qed.

Lemma logged_app (a b : list event) : logged (a ++ b) = logged a ++ logged b.
Proof.
  induction a as [|ev t IH]; [reflexivity|].
  destruct ev; simpl; now rewrite IH.
Qed.

Lemma connections_app (a b : list event) :
  connections (a ++ b) = connections a ++ connections b.
Proof.
  induction a as [|ev t IH]; [reflexivity|].
  destruct ev; simpl; now rewrite IH.
Qed.

(** ** The polling loop *)

Section Polling.
Context {St : Type} (ops : ResourceOps St).

(** One round of sampling is [sampled], and leaves the object [updated]. *)
Lemma sample_status_run (obj : oid) (w : World St) :
  sample_status ops obj w =
    (sampled ops (store w obj),
     if has_update ops (store w obj)
     then emit (ECall obj m_update) (set_obj obj (updated ops (store w obj)) w)
     else w).
Proof.
  unfold sample_status, bind, call_update, call, sampled, updated, getattr_status.
  destruct (has_update ops (store w obj)); [|reflexivity].
  destruct (do_update ops (store w obj)) as [s' [v|e]]; simpl; [|reflexivity].
  rewrite Nat.eqb_refl. destruct (get_status ops s'); reflexivity.
Qed.

Lemma sampled_has_update (s : St) (c : string) :
  sampled ops s = Ret c -> has_update ops s = true.
Proof.
  unfold sampled. destruct (has_update ops s); [reflexivity|discriminate].
Qed.

Lemma in_transit_inv (status : string) (via : option (list string)) (c : string) :
  in_transit status via c = true ->
  String.eqb c status = false /\
  match via with
  | Some v => not_in c v
  | None => false
  end = false.
Proof.
  unfold in_transit. intros H. apply andb_prop in H. destruct H as [H1 H2].
  apply negb_true_iff in H1. split; [exact H1|].
  destruct via; [now apply negb_true_iff in H2|reflexivity].
Qed.

(** A round that sees a transit status before the deadline goes on to the
    next round. *)
Lemma loop_round (fuel : nat) (obj : oid) (status : string)
    (via : option (list string)) (max_time : option Z) (sleep_time : Z)
    (w : World St) (c : string) :
  sampled ops (store w obj) = Ret c ->
  in_transit status via c = true ->
  reached max_time (clock w 0) = false ->
  wait_for_status_loop ops (S fuel) obj status via max_time sleep_time w =
  wait_for_status_loop ops fuel obj status via max_time sleep_time
    (after_round ops obj c max_time sleep_time w).
Proof.
  intros Hs Ht Hr. apply in_transit_inv in Ht. destruct Ht as [Hne Hvia].
  cbn [wait_for_status_loop]. unfold bind at 1.
  rewrite sample_status_run, Hs, (sampled_has_update _ _ Hs).
  unfold bind at 1. cbn [log]. rewrite Hne, Hvia.
  unfold after_round. destruct max_time as [mt|]; simpl in Hr.
  - unfold bind at 1. cbn [time_time]. cbn [clock emit set_obj]. rewrite Hr.
    unfold bind at 1. cbn [time_sleep]. reflexivity.
  - unfold bind at 1. cbn [time_sleep]. reflexivity.
Qed.

(** A round that sees the target returns [True]. *)
Lemma loop_done (fuel : nat) (obj : oid) (status : string)
    (via : option (list string)) (max_time : option Z) (sleep_time : Z)
    (w : World St) :
  sampled ops (store w obj) = Ret status ->
  wait_for_status_loop ops (S fuel) obj status via max_time sleep_time w =
  (Ret true,
   emit (ELog DEBUG "...%s is currently %r" [AObj obj; AStr status] None)
     (emit (ECall obj m_update) (set_obj obj (updated ops (store w obj)) w))).
Proof.
  intros Hs.
  cbn [wait_for_status_loop]. unfold bind at 1.
  rewrite sample_status_run, Hs, (sampled_has_update _ _ Hs).
  unfold bind at 1. cbn [log]. rewrite String.eqb_refl. reflexivity.
Qed.

(** A round that sees a status that is neither the target nor one of
    [via] raises, without a look at the clock. *)
Lemma loop_unexpected (fuel : nat) (obj : oid) (status : string)
    (v : list string) (max_time : option Z) (sleep_time : Z)
    (w : World St) (c : string) :
  sampled ops (store w obj) = Ret c ->
  String.eqb c status = false ->
  not_in c v = true ->
  wait_for_status_loop ops (S fuel) obj status (Some v) max_time sleep_time w =
  (Raise (RuntimeError ("Unexpected status: " ++ status)%string),
   emit (ELog WARNING "...%s has unexpected status %r" [AObj obj; AStr status] None)
     (emit (ELog DEBUG "...%s is currently %r" [AObj obj; AStr c] None)
        (emit (ECall obj m_update) (set_obj obj (updated ops (store w obj)) w)))).
Proof.
  intros Hs Hne Hv.
  cbn [wait_for_status_loop]. unfold bind at 1.
  rewrite sample_status_run, Hs, (sampled_has_update _ _ Hs).
  unfold bind at 1. cbn [log]. rewrite Hne, Hv.
  unfold bind at 1. cbn [log]. reflexivity.
Qed.

(** A round that sees a transit status when the deadline is reached
    raises. *)
Lemma loop_timed_out (fuel : nat) (obj : oid) (status : string)
    (via : option (list string)) (mt : Z) (sleep_time : Z)
    (w : World St) (c : string) :
  sampled ops (store w obj) = Ret c ->
  in_transit status via c = true ->
  (mt <= clock w 0)%Z ->
  wait_for_status_loop ops (S fuel) obj status via (Some mt) sleep_time w =
  (Raise (RuntimeError "Operation timed out"),
   emit (ELog WARNING "...timeout waiting for %s status %r" [AObj obj; AStr status] None)
     (snd (time_time
        (emit (ELog DEBUG "...%s is currently %r" [AObj obj; AStr c] None)
           (emit (ECall obj m_update) (set_obj obj (updated ops (store w obj)) w)))))).
Proof.
  intros Hs Ht Hr. apply in_transit_inv in Ht. destruct Ht as [Hne Hvia].
  apply Z.leb_le in Hr.
  cbn [wait_for_status_loop]. unfold bind at 1.
  rewrite sample_status_run, Hs, (sampled_has_update _ _ Hs).
  unfold bind at 1. cbn [log]. rewrite Hne, Hvia.
  unfold bind at 1. cbn [time_time]. cbn [clock emit set_obj]. rewrite Hr.
  unfold bind at 1. cbn [log]. reflexivity.
Qed.

(** A round in which [obj.update()] fails, or is missing, raises what the
    call raised. *)
Lemma loop_sample_raises (fuel : nat) (obj : oid) (status : string)
    (via : option (list string)) (max_time : option Z) (sleep_time : Z)
    (w : World St) (e : exn) :
  sampled ops (store w obj) = Raise e ->
  wait_for_status_loop ops (S fuel) obj status via max_time sleep_time w =
  (Raise e,
   if has_update ops (store w obj)
   then emit (ECall obj m_update) (set_obj obj (updated ops (store w obj)) w)
   else w).
Proof.
  intros Hs.
  cbn [wait_for_status_loop]. unfold bind at 1.
  rewrite sample_status_run, Hs. reflexivity.
Qed.

(** How the world after some rounds on [obj] relates to the world before:
    the object has been updated [n] times and the clock read [r] times;
    nothing else has changed, no cleanup has been started and no
    connection attempted. *)
Definition polled (obj : oid) (r n : nat) (w w' : World St) : Prop :=
  store w' obj = after_updates ops n (store w obj) /\
  (forall o, o <> obj -> store w' o = store w o) /\
  (forall k, clock w' k = clock w (r + k)) /\
  (forall k, net w' k = net w k) /\
  calls (trace w') = calls (trace w) ++ repeat (obj, m_update) n /\
  attempts (trace w') = attempts (trace w) /\
  readings (trace w') = readings (trace w) ++ map (clock w) (seq 0 r) /\
  connections (trace w') = connections (trace w).

(** The number of clock readings a round makes: one when there is a
    deadline. *)
Definition reads (max_time : option Z) : nat :=
  match max_time with
  | Some _ => 1
  | None => 0
  end.

Lemma after_updates_add (n m : nat) (s : St) :
  after_updates ops (n + m) s = after_updates ops m (after_updates ops n s).
Proof.
  revert s. induction n as [|n IH]; intros s; [reflexivity|]. simpl. apply IH.
Qed.

Lemma map_seq_add {B : Type} (f : nat -> B) (a b n : nat) :
  map (fun k => f (a + k)) (seq b n) = map f (seq (a + b) n).
Proof.
  revert b. induction n as [|n IH]; intros b; [reflexivity|].
  simpl. f_equal. rewrite IH. f_equal. f_equal. lia.
Qed.

Lemma map_seq_from {B : Type} (f : nat -> B) (a n : nat) :
  map f (seq a n) = map (fun k => f (a + k)) (seq 0 n).
Proof.
  rewrite map_seq_add, Nat.add_0_r. reflexivity.
Qed.

Lemma polled_refl (obj : oid) (w : World St) : polled obj 0 0 w w.
Proof.
  unfold polled. simpl. rewrite !app_nil_r. repeat split; reflexivity.
Qed.

Lemma polled_trans (obj : oid) (r1 n1 r2 n2 : nat) (w w1 w2 : World St) :
  polled obj r1 n1 w w1 -> polled obj r2 n2 w1 w2 ->
  polled obj (r1 + r2) (n1 + n2) w w2.
Proof.
  intros (A1 & A2 & A3 & A4 & A5 & A6 & A7 & A8) (B1 & B2 & B3 & B4 & B5 & B6 & B7 & B8).
  unfold polled. repeat split.
  - rewrite B1, A1. symmetry. apply after_updates_add.
  - intros o Ho. now rewrite B2, A2.
  - intros k. rewrite B3, A3. f_equal. lia.
  - intros k. now rewrite B4, A4.
  - rewrite B5, A5, <- app_assoc, repeat_app. reflexivity.
  - now rewrite B6, A6.
  - rewrite B7, A7, <- app_assoc. f_equal.
    rewrite seq_app, map_app. f_equal. cbn [Nat.add].
    rewrite (map_seq_from (clock w) r1 r2).
    apply map_ext. intros k. apply A3.
  - now rewrite B8, A8.
Qed.

Ltac polled_now :=
  unfold polled;
  cbn [time_time snd emit set_obj store clock net trace after_updates repeat seq map
       Nat.add];
  rewrite ?Nat.eqb_refl, ?calls_app, ?attempts_app, ?readings_app, ?connections_app;
  cbn [calls attempts attempt_of readings connections app];
  rewrite ?app_nil_r;
  repeat split; try reflexivity;
  try (let o := fresh "o" in let Ho := fresh "Ho" in
       intros o Ho; apply Nat.eqb_neq in Ho; now rewrite Ho).

Lemma polled_round (obj : oid) (c : string) (max_time : option Z)
    (sleep_time : Z) (w : World St) :
  has_update ops (store w obj) = true ->
  polled obj (reads max_time) 1 w (after_round ops obj c max_time sleep_time w).
Proof.
  intros Hu. unfold after_round, updated. rewrite Hu.
  destruct max_time as [mt|]; cbn [reads]; polled_now.
  all: unfold updated; now rewrite Hu.
Qed.

(** [n] rounds that see transit statuses, all before the deadline. *)
Lemma loop_rounds (n : nat) (obj : oid) (status : string)
    (via : option (list string)) (max_time : option Z) (sleep_time : Z)
    (w : World St) :
  (forall k, k < n -> exists c,
      status_at ops (store w obj) k = Ret c /\ in_transit status via c = true) ->
  (forall k, k < n -> reached max_time (clock w k) = false) ->
  exists w',
    polled obj (reads max_time * n) n w w' /\
    forall fuel,
      wait_for_status_loop ops (n + fuel) obj status via max_time sleep_time w =
      wait_for_status_loop ops fuel obj status via max_time sleep_time w'.
Proof.
  revert w. induction n as [|n IH]; intros w Hst Hclk.
  - exists w. split; [|reflexivity]. rewrite Nat.mul_0_r. apply polled_refl.
  - destruct (Hst 0 (Nat.lt_0_succ n)) as (c & Hc & Htr).
    unfold status_at in Hc. cbn [after_updates] in Hc.
    pose proof (polled_round obj c max_time sleep_time w
                  (sampled_has_update _ _ Hc)) as P1.
    set (w1 := after_round ops obj c max_time sleep_time w) in *.
    destruct (IH w1) as (w' & P2 & Hrun).
    + intros k Hk.
      destruct (Hst (S k) (proj1 (Nat.succ_lt_mono k n) Hk)) as (c' & Hc' & Htr').
      exists c'. split; [|exact Htr'].
      destruct P1 as (A1 & _). unfold status_at in *. rewrite A1. exact Hc'.
    + intros k Hk. destruct P1 as (_ & _ & A3 & _). rewrite A3.
      destruct max_time as [mt|]; [|reflexivity].
      cbn [reads Nat.add]. apply Hclk. lia.
    + exists w'. split.
      * replace (reads max_time * S n) with (reads max_time + reads max_time * n) by lia.
        exact (polled_trans _ _ _ _ _ _ _ _ P1 P2).
      * intros fuel. cbn [Nat.add].
        rewrite (loop_round (n + fuel) obj status via max_time sleep_time w c Hc Htr
                   (Hclk 0 (Nat.lt_0_succ n))).
        apply Hrun.
Qed.

Lemma polled_sampled (obj : oid) (evs : list event) (w : World St) :
  has_update ops (store w obj) = true ->
  attempts evs = [] -> calls evs = [] -> readings evs = [] -> connections evs = [] ->
  polled obj 0 1 w
    {| store := store (set_obj obj (updated ops (store w obj)) w);
       clock := clock w; net := net w;
       trace := (trace w ++ [ECall obj m_update]) ++ evs |}.
Proof.
  intros Hu E1 E2 E3 E4. unfold polled.
  cbn [set_obj store clock net trace after_updates repeat seq map Nat.add].
  rewrite ?Nat.eqb_refl, !calls_app, !attempts_app, !readings_app, !connections_app.
  rewrite E1, E2, E3, E4. cbn [calls attempts attempt_of readings connections app].
  rewrite ?app_nil_r. repeat split; try reflexivity.
  intros o Ho. apply Nat.eqb_neq in Ho. now rewrite Ho.
Qed.

(** Entering [wait_for_status]: one log record, and one reading of the
    clock when there is a timeout. *)
Lemma wait_for_status_enter (obj : oid) (status : string)
    (via : option (list string)) (timeout : option Z) (sleep_time : Z)
    (w : World St) :
  exists w0,
    polled obj (reads timeout) 0 w w0 /\
    forall fuel,
      wait_for_status ops fuel obj status via timeout sleep_time w =
      wait_for_status_loop ops fuel obj status via (deadline timeout w) sleep_time w0.
Proof.
  unfold wait_for_status, set_max_time, deadline.
  destruct timeout as [t|].
  - eexists. split; [|intros fuel; unfold bind at 1; cbn [log];
                       unfold bind at 1; unfold bind at 1; cbn [time_time ret];
                       cbn [clock emit]; reflexivity].
    cbn [reads]. polled_now.
  - eexists. split; [|intros fuel; unfold bind at 1; cbn [log];
                       unfold bind at 1; cbn [ret]; reflexivity].
    cbn [reads]. polled_now.
Qed.

Section Rounds.
Variables (obj : oid) (status : string) (via : option (list string))
          (timeout : option Z) (sleep_time : Z) (w : World St) (n : nat).

(** The first [n] rounds see transit statuses ... *)
Hypothesis in_transit_before : forall k, k < n -> exists c,
  status_at ops (store w obj) k = Ret c /\ in_transit status via c = true.

(** ... and come before the deadline: round [k] reads the clock after
    the reading that set the deadline. *)
Hypothesis in_time_before : forall k, k < n ->
  reached (deadline timeout w) (clock w (reads timeout + k)) = false.

Lemma wait_for_status_rounds :
  exists w',
    polled obj (reads timeout * S n) n w w' /\
    forall fuel,
      wait_for_status ops (n + fuel) obj status via timeout sleep_time w =
      wait_for_status_loop ops fuel obj status via (deadline timeout w) sleep_time w'.
Proof.
  destruct (wait_for_status_enter obj status via timeout sleep_time w)
    as (w0 & P0 & Hrun0).
  destruct (loop_rounds n obj status via (deadline timeout w) sleep_time w0)
    as (w' & P1 & Hrun1).
  - intros k Hk. destruct P0 as (A1 & _). rewrite A1. cbn [after_updates].
    now apply in_transit_before.
  - intros k Hk. destruct P0 as (_ & _ & A3 & _). rewrite A3.
    now apply in_time_before.
  - exists w'. split.
    + pose proof (polled_trans _ _ _ _ _ _ _ _ P0 P1) as P.
      replace (reads (deadline timeout w)) with (reads timeout) in P
        by (destruct timeout; reflexivity).
      replace (reads timeout * S n) with (reads timeout + reads timeout * n) by lia.
      exact P.
    + intros fuel. rewrite Hrun0. apply Hrun1.
Qed.

(** The target at round [n]: [True] is returned, after [n + 1] calls of
    [update()]. *)
Lemma wait_for_status_returns (fuel : nat) :
  status_at ops (store w obj) n = Ret status ->
  n < fuel ->
  exists w',
    wait_for_status ops fuel obj status via timeout sleep_time w = (Ret true, w') /\
    polled obj (reads timeout * S n) (S n) w w'.
Proof.
  intros Hn Hf. destruct wait_for_status_rounds as (w1 & P1 & Hrun).
  replace fuel with (n + S (fuel - S n)) by lia. rewrite Hrun.
  assert (Hs : sampled ops (store w1 obj) = Ret status)
    by (destruct P1 as (A1 & _); rewrite A1; exact Hn).
  rewrite (loop_done _ _ _ _ _ _ _ Hs).
  eexists. split; [reflexivity|].
  replace (reads timeout * S n) with (reads timeout * S n + 0) by lia.
  replace (S n) with (n + 1) at 2 by lia.
  apply (polled_trans _ _ _ _ _ _ _ _ P1).
  apply (polled_sampled obj [_] w1 (sampled_has_update _ _ Hs)); reflexivity.
Qed.

(** A status outside [via] at round [n]: the unexpected-status error,
    whatever the clock reads. *)
Lemma wait_for_status_unexpected (fuel : nat) (v : list string) (c : string) :
  via = Some v ->
  status_at ops (store w obj) n = Ret c ->
  String.eqb c status = false ->
  not_in c v = true ->
  n < fuel ->
  exists w',
    wait_for_status ops fuel obj status via timeout sleep_time w =
      (Raise (RuntimeError ("Unexpected status: " ++ status)%string), w') /\
    polled obj (reads timeout * S n) (S n) w w' /\
    exists tr,
      trace w' = tr ++
        [ELog DEBUG "...%s is currently %r" [AObj obj; AStr c] None;
         ELog WARNING "...%s has unexpected status %r" [AObj obj; AStr status] None].
Proof.
  intros Hv Hn Hne Hout Hf. destruct wait_for_status_rounds as (w1 & P1 & Hrun).
  replace fuel with (n + S (fuel - S n)) by lia. rewrite Hrun.
  assert (Hs : sampled ops (store w1 obj) = Ret c)
    by (destruct P1 as (A1 & _); rewrite A1; exact Hn).
  rewrite Hv. rewrite (loop_unexpected _ _ _ _ _ _ _ _ Hs Hne Hout).
  eexists. split; [reflexivity|]. split.
  - replace (reads timeout * S n) with (reads timeout * S n + 0) by lia.
    replace (S n) with (n + 1) at 2 by lia.
    apply (polled_trans _ _ _ _ _ _ _ _ P1).
    pose proof (sampled_has_update _ _ Hs) as Hu.
    polled_now.
  - unfold emit. cbn [trace]. eexists. rewrite <- app_assoc. reflexivity.
Qed.

(** A transit status at round [n] when the deadline is reached: the
    timed-out error. *)
Lemma wait_for_status_times_out (fuel : nat) (t : Z) (c : string) :
  timeout = Some t ->
  status_at ops (store w obj) n = Ret c ->
  in_transit status via c = true ->
  (clock w 0 + t <= clock w (S n))%Z ->
  n < fuel ->
  exists w',
    wait_for_status ops fuel obj status via timeout sleep_time w =
      (Raise (RuntimeError "Operation timed out"), w') /\
    polled obj (n + 2) (S n) w w'.
Proof.
  intros Ht Hn Htr Hlate Hf. destruct wait_for_status_rounds as (w1 & P1 & Hrun).
  replace fuel with (n + S (fuel - S n)) by lia. rewrite Hrun.
  assert (Hs : sampled ops (store w1 obj) = Ret c)
    by (destruct P1 as (A1 & _); rewrite A1; exact Hn).
  rewrite Ht in *. cbn [deadline reads] in *.
  assert (Hr : (clock w 0 + t <= clock w1 0)%Z).
  { destruct P1 as (_ & _ & A3 & _). rewrite A3.
    replace (1 * S n + 0) with (S n) by lia. exact Hlate. }
  rewrite (loop_timed_out _ _ _ _ _ _ _ _ Hs Htr Hr).
  eexists. split; [reflexivity|].
  replace (n + 2) with (1 * S n + 1) by lia.
  replace (S n) with (n + 1) at 2 by lia.
  apply (polled_trans _ _ _ _ _ _ _ _ P1).
  pose proof (sampled_has_update _ _ Hs) as Hu.
  polled_now.
Qed.
End Rounds.

Lemma sampled_not_diverge (s : St) : sampled ops s <> Diverge.
Proof.
  unfold sampled. destruct (has_update ops s); [|discriminate].
  destruct (snd (do_update ops s)); discriminate.
Qed.

Lemma in_transit_cases (status : string) (via : option (list string)) (c : string) :
  c = status \/
  (exists v, via = Some v /\ String.eqb c status = false /\ not_in c v = true) \/
  in_transit status via c = true.
Proof.
  unfold in_transit. destruct (String.eqb c status) eqn:E.
  - left. now apply String.eqb_eq.
  - right. destruct via as [v|]; [|now right].
    destruct (not_in c v) eqn:Ev; [left; now exists v|now right].
Qed.

(** Without a deadline the loop never looks at the clock, and the only
    error of its own is the unexpected-status one: any other exception
    is what [obj.update()] raised, or the missing [update] attribute. *)
Lemma loop_untimed (fuel : nat) (obj : oid) (status : string)
    (via : option (list string)) (sleep_time : Z) (w : World St) :
  readings (trace (snd (wait_for_status_loop ops fuel obj status via None sleep_time w)))
    = readings (trace w) /\
  forall e,
    fst (wait_for_status_loop ops fuel obj status via None sleep_time w) = Raise e ->
    (exists v, via = Some v /\
               e = RuntimeError ("Unexpected status: " ++ status)%string) \/
    (exists s, sampled ops s = Raise e).
Proof.
  revert w. induction fuel as [|fuel IH]; intros w.
  - split; [reflexivity|discriminate].
  - destruct (sampled ops (store w obj)) as [c|e'|] eqn:Hs.
    + destruct (in_transit_cases status via c) as [->|[(v & -> & Hne & Hout)|Htr]].
      * rewrite (loop_done _ _ _ _ _ _ _ Hs). split; [|discriminate].
        unfold emit. cbn [snd trace set_obj]. now rewrite !readings_app, !app_nil_r.
      * rewrite (loop_unexpected _ _ _ _ _ _ _ _ Hs Hne Hout). split.
        -- unfold emit. cbn [snd trace set_obj]. now rewrite !readings_app, !app_nil_r.
        -- intros e He. left. exists v. split; [reflexivity|]. now inversion He.
      * rewrite (loop_round _ _ _ _ None _ _ _ Hs Htr eq_refl).
        destruct (IH (after_round ops obj c None sleep_time w)) as [IH1 IH2].
        split; [|exact IH2]. rewrite IH1.
        unfold after_round, emit. cbn [trace set_obj].
        now rewrite !readings_app, !app_nil_r.
    + rewrite (loop_sample_raises _ _ _ _ _ _ _ _ Hs). split.
      * destruct (has_update ops (store w obj)); [|reflexivity].
        unfold emit. cbn [snd trace set_obj]. now rewrite !readings_app, !app_nil_r.
      * intros e He. right. exists (store w obj). simpl in He. congruence.
    + now apply sampled_not_diverge in Hs.
Qed.

(** Without a timeout, as long as the statuses are transit ones the loop
    goes on: fuel [n] is used up by [n] rounds. *)
Lemma wait_for_status_goes_on (n : nat) (obj : oid) (status : string)
    (via : option (list string)) (sleep_time : Z) (w : World St) :
  (forall k, k < n -> exists c,
      status_at ops (store w obj) k = Ret c /\ in_transit status via c = true) ->
  exists w',
    wait_for_status ops n obj status via None sleep_time w = (Diverge, w') /\
    polled obj 0 n w w'.
Proof.
  intros Htr.
  destruct (wait_for_status_rounds obj status via None sleep_time w n Htr)
    as (w' & P & Hrun); [reflexivity|].
  exists w'. split; [|exact P].
  specialize (Hrun 0). rewrite Nat.add_0_r in Hrun. rewrite Hrun. reflexivity.
Qed.
End Polling.

(** ** What [wait_for_status] does *)

Section Poller.
Context {St : Type} (ops : ResourceOps St).

(** C3.  [wait_for_status] on an object whose first [n] samples are
    transit statuses seen before the deadline: if sample [n] is the
    target it returns [True], after [n + 1] calls of [update()]; if [via]
    is given and sample [n] is neither the target nor in [via] it raises
    the unexpected-status error, whatever the clock reads at that moment
    (the clock is not even read in that round); if sample [n] is a
    transit status and the clock then reads the deadline or more it
    raises the timed-out error.  With [timeout] [None] the clock is never
    read, the function goes on for as long as the statuses are transit
    ones, and it raises nothing of its own but the unexpected-status
    error.  The sleep time is one that [time.sleep] takes: not
    negative. *)
Theorem wait_for_status_outcomes (obj : oid) (status : string)
    (via : option (list string)) (timeout : option Z) (sleep_time : Z)
    (w : World St) (n fuel : nat) :
  (0 <= sleep_time)%Z ->
  (forall k, k < n -> exists c,
      status_at ops (store w obj) k = Ret c /\ in_transit status via c = true) ->
  (forall k, k < n ->
      reached (deadline timeout w) (clock w (reads timeout + k)) = false) ->
  n < fuel ->
  (status_at ops (store w obj) n = Ret status ->
   exists w',
     wait_for_status ops fuel obj status via timeout sleep_time w = (Ret true, w') /\
     calls (trace w') = calls (trace w) ++ repeat (obj, m_update) (S n)) /\
  (forall v c,
     via = Some v -> status_at ops (store w obj) n = Ret c ->
     c <> status -> not_in c v = true ->
     exists w',
       wait_for_status ops fuel obj status via timeout sleep_time w =
         (Raise (RuntimeError ("Unexpected status: " ++ status)%string), w') /\
       calls (trace w') = calls (trace w) ++ repeat (obj, m_update) (S n) /\
       readings (trace w') =
         readings (trace w) ++ map (clock w) (seq 0 (reads timeout * S n))) /\
  (forall t c,
     timeout = Some t -> status_at ops (store w obj) n = Ret c ->
     in_transit status via c = true ->
     (clock w 0 + t <= clock w (S n))%Z ->
     exists w',
       wait_for_status ops fuel obj status via timeout sleep_time w =
         (Raise (RuntimeError "Operation timed out"), w') /\
       calls (trace w') = calls (trace w) ++ repeat (obj, m_update) (S n)) /\
  (timeout = None ->
   (forall m,
      (forall k, k < m -> exists c,
          status_at ops (store w obj) k = Ret c /\ in_transit status via c = true) ->
      exists w',
        wait_for_status ops m obj status via timeout sleep_time w = (Diverge, w') /\
        calls (trace w') = calls (trace w) ++ repeat (obj, m_update) m) /\
   (forall m,
      readings (trace (snd (wait_for_status ops m obj status via timeout sleep_time w)))
        = readings (trace w)) /\
   (forall m e,
      fst (wait_for_status ops m obj status via timeout sleep_time w) = Raise e ->
      (exists v, via = Some v /\
                 e = RuntimeError ("Unexpected status: " ++ status)%string) \/
      (exists s, sampled ops s = Raise e))).
Proof.
  intros _ Htr Hclk Hf. repeat split.
  - intros Hn.
    destruct (wait_for_status_returns ops obj status via timeout sleep_time w n
                Htr Hclk fuel Hn Hf) as (w' & Hrun & P).
    exists w'. split; [exact Hrun|]. apply P.
  - intros v c Hv Hn Hne Hout. apply String.eqb_neq in Hne.
    destruct (wait_for_status_unexpected ops obj status via timeout sleep_time w n
                Htr Hclk fuel v c Hv Hn Hne Hout Hf) as (w' & Hrun & P & _).
    exists w'. split; [exact Hrun|]. split; apply P.
  - intros t c Ht Hn Hc Hlate.
    destruct (wait_for_status_times_out ops obj status via timeout sleep_time w n
                Htr Hclk fuel t c Ht Hn Hc Hlate Hf) as (w' & Hrun & P).
    exists w'. split; [exact Hrun|]. apply P.
  - subst timeout. intros m Hm.
    destruct (wait_for_status_goes_on ops m obj status via sleep_time w Hm)
      as (w' & Hrun & P).
    exists w'. split; [exact Hrun|]. apply P.
  - subst timeout. intros m.
    destruct (wait_for_status_enter ops obj status via None sleep_time w)
      as (w0 & P0 & Hrun).
    rewrite Hrun. cbn [deadline].
    rewrite (proj1 (loop_untimed ops m obj status via sleep_time w0)).
    destruct P0 as (_ & _ & _ & _ & _ & _ & A7 & _). rewrite A7.
    cbn [reads seq map]. apply app_nil_r.
  - subst timeout. intros m e.
    destruct (wait_for_status_enter ops obj status via None sleep_time w)
      as (w0 & P0 & Hrun).
    rewrite Hrun. cbn [deadline].
    apply (proj2 (loop_untimed ops m obj status via sleep_time w0)).
Qed.
End Poller.

Lemma poller_rest_forever (k : nat) (rest : string) :
  after_updates robot_ops k (poller [] rest) = poller [] rest.
Proof.
  induction k as [|k IH]; [reflexivity|]. exact IH.
Qed.

Lemma wait_for_status_outcomes_witness :
  (exists w',
     wait_for_status robot_ops 10 0 "running" (Some ["pending"]) default_timeout 5
       w_pending_running = (Ret true, w') /\
     calls (trace w') = [(0, m_update); (0, m_update); (0, m_update)]) /\
  (exists w',
     wait_for_status robot_ops 10 0 "running" (Some ["pending"]) default_timeout 5
       w_pending_stopped = (Raise (RuntimeError "Unexpected status: running"), w') /\
     calls (trace w') = [(0, m_update); (0, m_update)]) /\
  (exists w',
     wait_for_status robot_ops 100 0 "running" (Some ["pending"]) default_timeout 5
       w_pending_forever = (Raise (RuntimeError "Operation timed out"), w') /\
     calls (trace w') = repeat (0, m_update) 60) /\
  (exists w',
     wait_for_status robot_ops 100 0 "running" (Some ["pending"]) None 5
       w_pending_forever = (Diverge, w') /\
     calls (trace w') = repeat (0, m_update) 100).
Proof.
  repeat split.
  - assert (Htr : forall k, k < 2 -> exists c,
               status_at robot_ops (store w_pending_running 0) k = Ret c /\
               in_transit "running" (Some ["pending"]) c = true).
    { intros [|[|k]] Hk; [exists "pending"; split; reflexivity ..|lia]. }
    assert (Hclk : forall k, k < 2 ->
               reached (deadline default_timeout w_pending_running)
                 (clock w_pending_running (reads default_timeout + k)) = false).
    { intros [|[|k]] Hk; [reflexivity ..|lia]. }
    destruct (wait_for_status_outcomes robot_ops 0 "running" (Some ["pending"])
                default_timeout 5 w_pending_running 2 10 ltac:(lia) Htr Hclk ltac:(lia))
      as (H & _).
    exact (H eq_refl).
  - assert (Htr : forall k, k < 1 -> exists c,
               status_at robot_ops (store w_pending_stopped 0) k = Ret c /\
               in_transit "running" (Some ["pending"]) c = true).
    { intros [|k] Hk; [exists "pending"; split; reflexivity|lia]. }
    assert (Hclk : forall k, k < 1 ->
               reached (deadline default_timeout w_pending_stopped)
                 (clock w_pending_stopped (reads default_timeout + k)) = false).
    { intros [|k] Hk; [reflexivity|lia]. }
    destruct (wait_for_status_outcomes robot_ops 0 "running" (Some ["pending"])
                default_timeout 5 w_pending_stopped 1 10 ltac:(lia) Htr Hclk ltac:(lia))
      as (_ & H & _).
    destruct (H ["pending"] "stopped" eq_refl eq_refl ltac:(discriminate) eq_refl)
      as (w' & Hrun & Hcalls & _).
    exists w'. split; [exact Hrun|exact Hcalls].
  - assert (Htr : forall k, k < 59 -> exists c,
               status_at robot_ops (store w_pending_forever 0) k = Ret c /\
               in_transit "running" (Some ["pending"]) c = true).
    { intros k Hk. exists "pending". split; [|reflexivity].
      unfold status_at. cbn [w_pending_forever world_of store].
      rewrite poller_rest_forever. reflexivity. }
    assert (Hclk : forall k, k < 59 ->
               reached (deadline default_timeout w_pending_forever)
                 (clock w_pending_forever (reads default_timeout + k)) = false).
    { intros k Hk. cbn [default_timeout deadline reached reads w_pending_forever
                        world_of clock].
      apply Z.leb_gt. lia. }
    destruct (wait_for_status_outcomes robot_ops 0 "running" (Some ["pending"])
                default_timeout 5 w_pending_forever 59 100 ltac:(lia) Htr Hclk
                ltac:(lia))
      as (_ & _ & H & _).
    refine (H 300%Z "pending" eq_refl _ eq_refl _).
    + unfold status_at. cbn [w_pending_forever world_of store].
      rewrite poller_rest_forever. reflexivity.
    + cbn [w_pending_forever world_of clock]. lia.
  - destruct (wait_for_status_outcomes robot_ops 0 "running" (Some ["pending"])
                None 5 w_pending_forever 0 1 ltac:(lia)
                ltac:(intros k Hk; lia) ltac:(intros k Hk; lia) ltac:(lia))
      as (_ & _ & _ & H).
    destruct (H eq_refl) as (H1 & _).
    apply (H1 100). intros k Hk. exists "pending". split; [|reflexivity].
    unfold status_at. cbn [w_pending_forever world_of store].
    rewrite poller_rest_forever. reflexivity.
Defined.

Section PollerDetails.
Context {St : Type} (ops : ResourceOps St).

(** C9.  A round of sampling calls [update()] exactly once and then takes
    the status from the object as the call left it, also when the object
    had a [status] attribute before; so [n + 1] rounds make [n + 1] calls,
    and as many rounds as there is fuel when the function keeps polling
    (with a sleep time that [time.sleep] takes: not negative).  An object
    without an [update] attribute gives an [AttributeError] in the first
    round, before any call, whatever its [status] attribute is. *)
Theorem update_called_every_round (obj : oid) (w : World St) :
  (has_update ops (store w obj) = true ->
   calls (trace (snd (sample_status ops obj w))) = calls (trace w) ++ [(obj, m_update)] /\
   store (snd (sample_status ops obj w)) obj = fst (do_update ops (store w obj)) /\
   fst (sample_status ops obj w) =
     match snd (do_update ops (store w obj)) with
     | Returned v =>
         Ret (match get_status ops (fst (do_update ops (store w obj))) with
              | Some st => st
              | None => v
              end)
     | Raised e => Raise e
     end) /\
  (forall status via timeout sleep_time n fuel,
     (0 <= sleep_time)%Z ->
     (forall k, k < n -> exists c,
         status_at ops (store w obj) k = Ret c /\ in_transit status via c = true) ->
     (forall k, k < n ->
         reached (deadline timeout w) (clock w (reads timeout + k)) = false) ->
     (status_at ops (store w obj) n = Ret status -> n < fuel ->
      exists w',
        wait_for_status ops fuel obj status via timeout sleep_time w = (Ret true, w') /\
        calls (trace w') = calls (trace w) ++ repeat (obj, m_update) (S n)) /\
     (timeout = None ->
      exists w',
        wait_for_status ops n obj status via timeout sleep_time w = (Diverge, w') /\
        calls (trace w') = calls (trace w) ++ repeat (obj, m_update) n)) /\
  (has_update ops (store w obj) = false ->
   forall status via timeout sleep_time fuel,
   exists w',
     wait_for_status ops (S fuel) obj status via timeout sleep_time w =
       (Raise (AttributeError "update"), w') /\
     calls (trace w') = calls (trace w)).
Proof.
  split; [|split].
  - intros Hu. rewrite sample_status_run, Hu. unfold sampled, updated. rewrite Hu.
    cbn [fst snd emit set_obj trace store]. rewrite calls_app, Nat.eqb_refl.
    repeat split; reflexivity.
  - intros status via timeout sleep_time n fuel _ Htr Hclk. split.
    + intros Hn Hf.
      destruct (wait_for_status_returns ops obj status via timeout sleep_time w n
                  Htr Hclk fuel Hn Hf) as (w' & Hrun & P).
      exists w'. split; [exact Hrun|apply P].
    + intros ->.
      destruct (wait_for_status_goes_on ops n obj status via sleep_time w Htr)
        as (w' & Hrun & P).
      exists w'. split; [exact Hrun|apply P].
  - intros Hu status via timeout sleep_time fuel.
    destruct (wait_for_status_enter ops obj status via timeout sleep_time w)
      as (w0 & P0 & Hrun).
    destruct P0 as (A1 & _ & _ & _ & A5 & _). cbn [after_updates] in A1.
    assert (Hs : sampled ops (store w0 obj) = Raise (AttributeError "update"))
      by (unfold sampled; now rewrite A1, Hu).
    rewrite Hrun, (loop_sample_raises ops _ _ _ _ _ _ _ _ Hs), A1, Hu.
    exists w0. split; [reflexivity|]. rewrite A5. apply app_nil_r.
Qed.

(** C10.  When the status seen in round [n] is neither the target nor in
    [via], the error raised and the warning logged with it are made from
    the target status; the status that was seen is only in the debug
    record before them, and the message is not the one that would name
    it.  The sleep time is one that [time.sleep] takes: not negative. *)
Theorem unexpected_status_names_target (obj : oid) (status : string)
    (via : option (list string)) (timeout : option Z) (sleep_time : Z)
    (w : World St) (n fuel : nat) (v : list string) (c : string) :
  (0 <= sleep_time)%Z ->
  (forall k, k < n -> exists c',
      status_at ops (store w obj) k = Ret c' /\ in_transit status via c' = true) ->
  (forall k, k < n ->
      reached (deadline timeout w) (clock w (reads timeout + k)) = false) ->
  n < fuel ->
  via = Some v ->
  status_at ops (store w obj) n = Ret c ->
  c <> status ->
  not_in c v = true ->
  exists w' tr,
    wait_for_status ops fuel obj status via timeout sleep_time w =
      (Raise (RuntimeError ("Unexpected status: " ++ status)%string), w') /\
    trace w' = tr ++
      [ELog DEBUG "...%s is currently %r" [AObj obj; AStr c] None;
       ELog WARNING "...%s has unexpected status %r" [AObj obj; AStr status] None] /\
    RuntimeError ("Unexpected status: " ++ status)%string <>
    RuntimeError ("Unexpected status: " ++ c)%string.
Proof.
  intros _ Htr Hclk Hf Hv Hn Hne Hout.
  pose proof Hne as Hneb. apply String.eqb_neq in Hneb.
  destruct (wait_for_status_unexpected ops obj status via timeout sleep_time w n
              Htr Hclk fuel v c Hv Hn Hneb Hout Hf) as (w' & Hrun & _ & tr & Htrace).
  exists w', tr. split; [exact Hrun|]. split; [exact Htrace|].
  intros H. apply Hne. simpl in H. now inversion H.
Qed.
End PollerDetails.

Lemma update_called_every_round_witness :
  (calls (trace (snd (sample_status robot_ops 0 w_stale_attribute))) = [(0, m_update)] /\
   get_status robot_ops (store w_stale_attribute 0) = Some "stale" /\
   fst (sample_status robot_ops 0 w_stale_attribute) = Ret "pending") /\
  (exists w',
     wait_for_status robot_ops 5 0 "running" (Some ["pending"]) default_timeout 5
       w_stale_attribute = (Ret true, w') /\
     calls (trace w') = [(0, m_update); (0, m_update)]) /\
  (get_status robot_ops (store w_no_update 0) = Some "running" /\
   exists w',
     wait_for_status robot_ops 1 0 "running" None default_timeout 5 w_no_update =
       (Raise (AttributeError "update"), w') /\
     calls (trace w') = []).
Proof.
  destruct (update_called_every_round robot_ops 0 w_stale_attribute) as (H1 & H2 & _).
  destruct (update_called_every_round robot_ops 0 w_no_update) as (_ & _ & H3).
  split; [|split].
  - destruct (H1 eq_refl) as (Hc & _ & Hr).
    split; [exact Hc|split; [reflexivity|exact Hr]].
  - refine (proj1 (H2 "running" (Some ["pending"]) default_timeout 5%Z 1 5
                     ltac:(lia) _ _)
              eq_refl ltac:(lia)).
    + intros [|k] Hk; [exists "pending"; split; reflexivity|lia].
    + intros [|k] Hk; [reflexivity|lia].
  - split; [reflexivity|].
    exact (H3 eq_refl "running" None default_timeout 5%Z 0).
Defined.

Lemma unexpected_status_names_target_witness :
  exists w' tr,
    wait_for_status robot_ops 10 0 "running" (Some ["pending"]) default_timeout 5
      w_pending_stopped = (Raise (RuntimeError "Unexpected status: running"), w') /\
    trace w' = tr ++
      [ELog DEBUG "...%s is currently %r" [AObj 0; AStr "stopped"] None;
       ELog WARNING "...%s has unexpected status %r" [AObj 0; AStr "running"] None] /\
    RuntimeError "Unexpected status: running" <> RuntimeError "Unexpected status: stopped".
Proof.
  refine (unexpected_status_names_target robot_ops 0 "running" (Some ["pending"])
            default_timeout 5 w_pending_stopped 1 10 ["pending"] "stopped"
            _ _ _ _ eq_refl eq_refl _ eq_refl).
  - lia.
  - intros [|k] Hk; [exists "pending"; split; reflexivity|lia].
  - intros [|k] Hk; [reflexivity|lia].
  - lia.
  - discriminate.
Defined.

(** ** What every run leaves alone *)

Section Frames.
Context {St : Type} (ops : ResourceOps St).

(** Between [w] and [w'] no cleanup was started and no connection
    attempted, and the clock of [w'] is that of [w] after some readings. *)
Definition framed (w w' : World St) : Prop :=
  attempts (trace w') = attempts (trace w) /\
  connections (trace w') = connections (trace w) /\
  (forall k, net w' k = net w k) /\
  exists d, forall k, clock w' k = clock w (d + k).

Lemma framed_refl (w : World St) : framed w w.
Proof.
  repeat split. exists 0. reflexivity.
Qed.

Lemma framed_trans (w w1 w2 : World St) :
  framed w w1 -> framed w1 w2 -> framed w w2.
Proof.
  intros (A1 & A2 & A3 & d1 & A4) (B1 & B2 & B3 & d2 & B4).
  repeat split.
  - now rewrite B1.
  - now rewrite B2.
  - intros k. now rewrite B3.
  - exists (d1 + d2). intros k. rewrite B4, A4. f_equal. lia.
Qed.

Lemma polled_framed (obj : oid) (r n : nat) (w w' : World St) :
  polled ops obj r n w w' -> framed w w'.
Proof.
  intros (_ & _ & A3 & A4 & _ & A6 & _ & A8).
  repeat split; try assumption. exists r. exact A3.
Qed.

(** The five ways a round of the loop can go. *)
Lemma loop_cases (obj : oid) (status : string) (via : option (list string))
    (max_time : option Z) (w : World St) :
  (exists e, sampled ops (store w obj) = Raise e) \/
  sampled ops (store w obj) = Ret status \/
  (exists v c, via = Some v /\ sampled ops (store w obj) = Ret c /\
               String.eqb c status = false /\ not_in c v = true) \/
  (exists c mt, max_time = Some mt /\ sampled ops (store w obj) = Ret c /\
                in_transit status via c = true /\ (mt <= clock w 0)%Z) \/
  (exists c, sampled ops (store w obj) = Ret c /\
             in_transit status via c = true /\
             reached max_time (clock w 0) = false).
Proof.
  destruct (sampled ops (store w obj)) as [c|e|] eqn:Hs.
  - destruct (in_transit_cases status via c) as [->|[(v & Hv & Hne & Hout)|Htr]].
    + right. now left.
    + right. right. left. now exists v, c.
    + destruct (reached max_time (clock w 0)) eqn:Hr.
      * right. right. right. left. destruct max_time as [mt|]; [|discriminate].
        exists c, mt. repeat split; try assumption. now apply Z.leb_le.
      * right. right. right. right. now exists c.
  - left. now exists e.
  - now apply sampled_not_diverge in Hs.
Qed.

Ltac framed_now :=
  unfold framed;
  repeat (progress (unfold emit; cbn [time_time snd set_obj store clock net trace]));
  rewrite ?attempts_app, ?connections_app;
  cbn [attempts attempt_of connections app];
  rewrite ?app_nil_r;
  repeat split; try reflexivity;
  try (exists 0; reflexivity); try (exists 1; reflexivity).

Lemma loop_framed (fuel : nat) (obj : oid) (status : string)
    (via : option (list string)) (max_time : option Z) (sleep_time : Z)
    (w : World St) :
  framed w (snd (wait_for_status_loop ops fuel obj status via max_time sleep_time w)).
Proof.
  revert w. induction fuel as [|fuel IH]; intros w; [apply framed_refl|].
  destruct (loop_cases obj status via max_time w)
    as [(e & Hs)|[Hs|[(v & c & -> & Hs & Hne & Hout)|[(c & mt & -> & Hs & Htr & Hr)
       |(c & Hs & Htr & Hr)]]]].
  - rewrite (loop_sample_raises ops _ _ _ _ _ _ _ _ Hs).
    destruct (has_update ops (store w obj)); [framed_now|apply framed_refl].
  - rewrite (loop_done ops _ _ _ _ _ _ _ Hs). framed_now.
  - rewrite (loop_unexpected ops _ _ _ _ _ _ _ _ Hs Hne Hout). framed_now.
  - rewrite (loop_timed_out ops _ _ _ _ _ _ _ _ Hs Htr Hr). framed_now.
  - rewrite (loop_round ops _ _ _ _ _ _ _ _ Hs Htr Hr).
    eapply framed_trans; [|apply IH].
    apply (polled_framed obj _ _ _ _
             (polled_round ops obj c max_time sleep_time w (sampled_has_update ops _ _ Hs))).
Qed.

Lemma wait_for_status_framed (fuel : nat) (obj : oid) (status : string)
    (via : option (list string)) (timeout : option Z) (sleep_time : Z)
    (w : World St) :
  framed w (snd (wait_for_status ops fuel obj status via timeout sleep_time w)).
Proof.
  destruct (wait_for_status_enter ops obj status via timeout sleep_time w)
    as (w0 & P0 & Hrun).
  rewrite Hrun. eapply framed_trans; [exact (polled_framed _ _ _ _ _ P0)|].
  apply loop_framed.
Qed.
End Frames.

(** ** Destroying one resource *)

Section Cleanup.
Context {St : Type} (ops : ResourceOps St).

(** The world once the cleanup of [r] is announced, and once
    [r.terminate()] has been called. *)
Definition started (r : oid) (w : World St) : World St :=
  emit (ELog DEBUG "cleaning up %s" [AObj r] None) w.

Definition terminated (r : oid) (w : World St) : World St :=
  emit (ECall r m_terminate)
    (set_obj r (fst (do_terminate ops (store w r))) (started r w)).

(** The last two lines of [_cleanup_resource], run in [w]. *)
Definition delete_step (r : oid) (w : World St) : res unit * World St :=
  if has_delete ops (store w r) then
    (match snd (do_delete ops (store w r)) with
     | Returned _ => Ret tt
     | Raised e => Raise e
     end,
     emit (ECall r m_delete) (set_obj r (fst (do_delete ops (store w r))) w))
  else (Ret tt, w).

(** [_cleanup_resource], step by step. *)
Lemma cleanup_run (fuel : nat) (r : oid) (w : World St) :
  _cleanup_resource ops fuel r w =
  if has_terminate ops (store w r) then
    match snd (do_terminate ops (store w r)) with
    | Raised e => (Raise e, terminated r w)
    | Returned _ =>
        match wait_for_status ops fuel r "terminated"
                default_via default_timeout default_sleep_time (terminated r w) with
        | (Ret _, w2) => delete_step r w2
        | (Raise e, w2) => (Raise e, w2)
        | (Diverge, w2) => (Diverge, w2)
        end
    end
  else delete_step r (started r w).
Proof.
  unfold _cleanup_resource. unfold bind at 1. cbn [log]. fold (started r w).
  unfold bind at 1. unfold hasattr_terminate at 1.
  change (store (started r w) r) with (store w r).
  destruct (has_terminate ops (store w r)) eqn:Ht.
  - unfold bind at 1. unfold bind at 1. unfold call_terminate, call.
    change (store (started r w) r) with (store w r). rewrite Ht.
    unfold terminated.
    destruct (do_terminate ops (store w r)) as [s1 [u|e]]; cbn [fst snd]; [|reflexivity].
    unfold bind at 1.
    destruct (wait_for_status ops fuel r "terminated" default_via default_timeout
                default_sleep_time _) as [[b|e|] w2]; try reflexivity.
    unfold ret, bind, hasattr_delete, delete_step, call_delete, call. cbv beta.
    destruct (has_delete ops (store w2 r)) eqn:Hd; rewrite ?Hd; [|reflexivity].
    destruct (do_delete ops (store w2 r)) as [s2 [u2|e2]]; cbn [fst snd];
      [destruct u2|]; reflexivity.
  - unfold bind at 1. unfold ret at 1.
    unfold bind, hasattr_delete, delete_step, call_delete, call. cbv beta.
    destruct (has_delete ops (store (started r w) r)) eqn:Hd; rewrite ?Hd; [|reflexivity].
    destruct (do_delete ops (store (started r w) r)) as [s2 [u2|e2]]; cbn [fst snd];
      [destruct u2|]; reflexivity.
Qed.

(** Every run of [_cleanup_resource] starts the cleanup of [r], of nothing
    else, attempts no connection, and only moves the clock forward. *)
Lemma cleanup_framed (fuel : nat) (r : oid) (w : World St) :
  framed (started r w) (snd (_cleanup_resource ops fuel r w)) /\
  attempts (trace (snd (_cleanup_resource ops fuel r w))) = attempts (trace w) ++ [r].
Proof.
  assert (Hst : attempts (trace (started r w)) = attempts (trace w) ++ [r]).
  { unfold started, emit. cbn [trace]. rewrite attempts_app. reflexivity. }
  assert (Hdel : forall w2, framed w2 (snd (delete_step r w2))).
  { intros w2. unfold delete_step. destruct (has_delete ops (store w2 r)).
    - cbn [snd]. unfold framed, emit. cbn [set_obj store clock net trace].
      rewrite attempts_app, connections_app. cbn [attempts attempt_of connections].
      rewrite !app_nil_r. repeat split. exists 0. reflexivity.
    - apply framed_refl. }
  assert (Hterm : framed (started r w) (terminated r w)).
  { unfold terminated, framed, emit. cbn [set_obj store clock net trace].
    rewrite attempts_app, connections_app. cbn [attempts attempt_of connections].
    rewrite !app_nil_r. repeat split. exists 0. reflexivity. }
  assert (H : framed (started r w) (snd (_cleanup_resource ops fuel r w))).
  { rewrite cleanup_run. destruct (has_terminate ops (store w r)); [|apply Hdel].
    destruct (snd (do_terminate ops (store w r))); [|exact Hterm].
    pose proof (wait_for_status_framed ops fuel r "terminated" default_via
                  default_timeout default_sleep_time (terminated r w)) as Hw.
    destruct (wait_for_status ops fuel r "terminated" default_via default_timeout
                default_sleep_time (terminated r w)) as [[b|e|] w2]; cbn [snd] in Hw.
    - eapply framed_trans; [exact Hterm|]. eapply framed_trans; [exact Hw|apply Hdel].
    - eapply framed_trans; [exact Hterm|exact Hw].
    - eapply framed_trans; [exact Hterm|exact Hw]. }
  split; [exact H|]. destruct H as (H1 & _). now rewrite H1.
Qed.
End Cleanup.

(** ** The steps of [_cleanup_resource] *)

Section CleanupSteps.
Context {St : Type} (ops : ResourceOps St).

Lemma not_terminated_in_transit (c : string) :
  c <> "terminated" -> in_transit "terminated" default_via c = true.
Proof.
  intros H. unfold in_transit, default_via. apply String.eqb_neq in H.
  now rewrite H.
Qed.

Lemma before_default_deadline (r : oid) (w : World St) (k : nat) :
  (clock w (S k) < clock w 0 + 300)%Z ->
  reached (deadline default_timeout (terminated ops r w))
    (clock (terminated ops r w) (reads default_timeout + k)) = false.
Proof.
  intros H. cbn. apply Z.leb_gt. exact H.
Qed.

Lemma terminated_calls (r : oid) (w : World St) :
  calls (trace (terminated ops r w)) = calls (trace w) ++ [(r, m_terminate)].
Proof.
  unfold terminated, started, emit. cbn [set_obj trace].
  rewrite !calls_app. cbn [calls]. now rewrite app_nil_r.
Qed.

Lemma terminated_store (r : oid) (w : World St) :
  store (terminated ops r w) r = fst (do_terminate ops (store w r)).
Proof.
  unfold terminated, started, emit. cbn [set_obj store]. now rewrite Nat.eqb_refl.
Qed.

Lemma delete_step_calls (r : oid) (w : World St) :
  has_delete ops (store w r) = true ->
  calls (trace (snd (delete_step ops r w))) = calls (trace w) ++ [(r, m_delete)].
Proof.
  intros Hd. unfold delete_step. rewrite Hd. unfold emit. cbn [snd set_obj trace].
  now rewrite calls_app.
Qed.
End CleanupSteps.

Lemma instance_rest_forever (k : nat) (rest : string) :
  after_updates robot_ops k (instance [] rest) = instance [] rest.
Proof.
  induction k as [|k IH]; [reflexivity|]. exact IH.
Qed.

(** ** Termination of the poll, and where its exceptions come from *)

Section Settling.
Context {St : Type} (ops : ResourceOps St).

(** The clock gets past every instant, and stays past it. *)
Definition clock_passes (w : World St) : Prop :=
  forall T : Z, exists K, forall j, K <= j -> (T <= clock w j)%Z.

(** [e] is an exception that a method of some object raises. *)
Definition foreign (e : exn) : Prop :=
  exists s,
    snd (do_update ops s) = Raised e \/
    snd (do_terminate ops s) = Raised e \/
    snd (do_delete ops s) = Raised e.

(** An exception that [except Exception] catches, or a foreign one. *)
Definition accounted (e : exn) : Prop := is_Exception e = true \/ foreign e.

Lemma framed_clock_passes (w w' : World St) :
  framed w w' -> clock_passes w -> clock_passes w'.
Proof.
  intros (_ & _ & _ & d & Hd) Hp T. destruct (Hp T) as (K & HK).
  exists K. intros j Hj. rewrite Hd. apply HK. lia.
Qed.

Lemma sampled_raise_accounted (s : St) (e : exn) :
  sampled ops s = Raise e -> accounted e.
Proof.
  unfold sampled. destruct (has_update ops s).
  - destruct (snd (do_update ops s)) as [v|e'] eqn:Hu; [discriminate|].
    intros H. inversion H; subst. right. exists s. now left.
  - intros H. inversion H. now left.
Qed.

(** With a deadline that the clock reaches after at most [K] readings, the
    loop ends within [K + 1] rounds, the same way for any larger fuel, and
    not by running out of fuel. *)
Lemma loop_settles (K : nat) (obj : oid) (status : string)
    (via : option (list string)) (mt : Z) (sleep_time : Z) (w : World St) :
  (forall j, K <= j -> (mt <= clock w j)%Z) ->
  exists r w',
    r <> Diverge /\
    (forall e, r = Raise e -> accounted e) /\
    forall fuel, K < fuel ->
      wait_for_status_loop ops fuel obj status via (Some mt) sleep_time w = (r, w').
Proof.
  revert w. induction K as [|K IH]; intros w HK.
  all: destruct (loop_cases ops obj status via (Some mt) w)
    as [(e & Hs)|[Hs|[(v & c & -> & Hs & Hne & Hout)|[(c & mt' & Hmt & Hs & Htr & Hr)
       |(c & Hs & Htr & Hr)]]]].
  all: try (eexists; eexists; split; [|split];
            [| |intros [|fuel] Hf; [lia|];
                first [apply (loop_sample_raises ops _ _ _ _ _ _ _ _ Hs)
                      |apply (loop_done ops _ _ _ _ _ _ _ Hs)
                      |apply (loop_unexpected ops _ _ _ _ _ _ _ _ Hs Hne Hout)]];
            [discriminate|];
            intros e0 He0; inversion He0; subst;
            first [exact (sampled_raise_accounted _ _ Hs)|now left]).
  all: try (inversion Hmt; subst mt';
            eexists; eexists; split; [|split];
            [| |intros [|fuel] Hf; [lia|];
                apply (loop_timed_out ops _ _ _ _ _ _ _ _ Hs Htr Hr)];
            [discriminate|];
            intros e0 He0; inversion He0; subst; now left).
  - cbn [reached] in Hr. apply Z.leb_gt in Hr. specialize (HK 0 (Nat.le_refl 0)). lia.
  - destruct (IH (after_round ops obj c (Some mt) sleep_time w)) as (r & w' & Hr1 & Hr2 & Hrun).
    + intros j Hj. unfold after_round, emit. cbn [time_time snd clock]. apply HK. lia.
    + exists r, w'. split; [exact Hr1|]. split; [exact Hr2|].
      intros [|fuel] Hf; [lia|].
      rewrite (loop_round ops _ _ _ _ _ _ _ _ Hs Htr Hr). apply Hrun. lia.
Qed.

Lemma wait_for_status_settles (obj : oid) (status : string)
    (via : option (list string)) (t : Z) (sleep_time : Z) (w : World St) :
  clock_passes w ->
  exists fuel0 r w',
    r <> Diverge /\
    (forall e, r = Raise e -> accounted e) /\
    forall fuel, fuel0 <= fuel ->
      wait_for_status ops fuel obj status via (Some t) sleep_time w = (r, w').
Proof.
  intros Hp.
  destruct (wait_for_status_enter ops obj status via (Some t) sleep_time w)
    as (w0 & P0 & Hrun0).
  destruct (Hp (clock w 0 + t)%Z) as (K & HK).
  destruct (loop_settles K obj status via (clock w 0 + t)%Z sleep_time w0)
    as (r & w' & Hr1 & Hr2 & Hrun).
  - intros j Hj. destruct P0 as (_ & _ & A3 & _). rewrite A3. apply HK.
    cbn [reads]. lia.
  - exists (S K), r, w'. split; [exact Hr1|]. split; [exact Hr2|].
    intros fuel Hf. rewrite Hrun0. cbn [deadline]. apply Hrun. lia.
Qed.
End Settling.

(** ** The loop of [__exit__] *)

Section ExitLoop.
Context {St : Type} (ops : ResourceOps St).

Lemma delete_step_accounted (r : oid) (w : World St) :
  fst (delete_step ops r w) <> Diverge /\
  forall e, fst (delete_step ops r w) = Raise e -> accounted ops e.
Proof.
  unfold delete_step. destruct (has_delete ops (store w r)); cbn [fst].
  - destruct (snd (do_delete ops (store w r))) as [u|e'] eqn:Hd.
    + split; [discriminate|discriminate].
    + split; [discriminate|]. intros e He. inversion He; subst.
      right. exists (store w r). right. now right.
  - split; discriminate.
Qed.

Lemma started_clock_passes (r : oid) (w : World St) :
  clock_passes w -> clock_passes (terminated ops r w).
Proof.
  intros Hp T. destruct (Hp T) as (K & HK). exists K. exact HK.
Qed.

(** When the clock gets past every deadline, [_cleanup_resource] ends, the
    same way for any fuel large enough. *)
Lemma cleanup_settles (r : oid) (w : World St) :
  clock_passes w ->
  exists fuel0 res w',
    res <> Diverge /\
    (forall e, res = Raise e -> accounted ops e) /\
    forall fuel, fuel0 <= fuel -> _cleanup_resource ops fuel r w = (res, w').
Proof.
  intros Hp.
  destruct (has_terminate ops (store w r)) eqn:Ht.
  - destruct (snd (do_terminate ops (store w r))) as [u|e'] eqn:Hterm.
    + destruct (wait_for_status_settles ops r "terminated" default_via 300%Z
                  default_sleep_time (terminated ops r w)
                  (started_clock_passes r w Hp))
        as (fuel0 & rw & w2 & Hr1 & Hr2 & Hrun).
      destruct rw as [b|e|].
      * exists fuel0, (fst (delete_step ops r w2)), (snd (delete_step ops r w2)).
        destruct (delete_step_accounted r w2) as (D1 & D2).
        split; [exact D1|]. split; [exact D2|].
        intros fuel Hf. rewrite cleanup_run, Ht, Hterm.
        change default_timeout with (Some 300%Z). rewrite (Hrun fuel Hf).
        now destruct (delete_step ops r w2).
      * exists fuel0, (Raise e), w2. split; [discriminate|]. split.
        { intros e0 He0. inversion He0; subst. now apply Hr2. }
        intros fuel Hf. rewrite cleanup_run, Ht, Hterm.
        change default_timeout with (Some 300%Z). now rewrite (Hrun fuel Hf).
      * now contradiction Hr1.
    + exists 0, (Raise e'), (terminated ops r w). split; [discriminate|]. split.
      * intros e He. inversion He; subst. right. exists (store w r). right. now left.
      * intros fuel _. now rewrite cleanup_run, Ht, Hterm.
  - exists 0, (fst (delete_step ops r (started r w))), (snd (delete_step ops r (started r w))).
    destruct (delete_step_accounted r (started r w)) as (D1 & D2).
    split; [exact D1|]. split; [exact D2|].
    intros fuel _. rewrite cleanup_run, Ht. now destruct (delete_step ops r (started r w)).
Qed.

(** The body of the loop: an exception under [Exception] is logged and the
    loop goes on; another one goes through. *)
Lemma cleanup_or_log_run (fuel : nat) (r : oid) (w : World St) :
  cleanup_or_log ops fuel r w =
  match _cleanup_resource ops fuel r w with
  | (Raise e, w') =>
      if is_Exception e
      then (Ret tt, emit (ELog ERROR "failed to cleanup %s" [AObj r] (Some e)) w')
      else (Raise e, w')
  | rw => rw
  end.
Proof.
  unfold cleanup_or_log, try_except.
  destruct (_cleanup_resource ops fuel r w) as [[u|e|] w']; try reflexivity.
Qed.

Lemma cleanup_or_log_framed (fuel : nat) (r : oid) (w : World St) :
  framed (started r w) (snd (cleanup_or_log ops fuel r w)) /\
  attempts (trace (snd (cleanup_or_log ops fuel r w))) = attempts (trace w) ++ [r].
Proof.
  destruct (cleanup_framed ops fuel r w) as (F & A).
  rewrite cleanup_or_log_run.
  destruct (_cleanup_resource ops fuel r w) as [[u|e|] w']; cbn [snd] in *;
    try (split; assumption).
  destruct (is_Exception e); cbn [snd]; [|split; assumption].
  split.
  - eapply framed_trans; [exact F|].
    unfold framed, emit. cbn [trace clock net]. rewrite attempts_app, connections_app.
    cbn [attempts attempt_of connections]. rewrite !app_nil_r.
    repeat split. exists 0. reflexivity.
  - unfold emit. cbn [trace]. rewrite attempts_app. cbn [attempts attempt_of].
    now rewrite app_nil_r.
Qed.

Lemma cleanup_or_log_clock_passes (fuel : nat) (r : oid) (w : World St) :
  clock_passes w -> clock_passes (snd (cleanup_or_log ops fuel r w)).
Proof.
  intros Hp. destruct (cleanup_or_log_framed fuel r w) as (F & _).
  apply (framed_clock_passes _ _ F). exact Hp.
Qed.

(** The loop starts the cleanup of the candidates in order, one after the
    other, and of all of them when it comes to its end. *)
Lemma for_each_attempts (fuel : nat) (l : list oid) (w : World St) :
  exists done rest,
    l = done ++ rest /\
    attempts (trace (snd (for_each l (cleanup_or_log ops fuel) w))) =
      attempts (trace w) ++ done /\
    (fst (for_each l (cleanup_or_log ops fuel) w) = Ret tt -> rest = []).
Proof.
  revert w. induction l as [|r t IH]; intros w.
  - exists [], []. cbn. rewrite app_nil_r. repeat split.
  - cbn [for_each]. unfold bind.
    destruct (cleanup_or_log_framed fuel r w) as (_ & A).
    destruct (cleanup_or_log ops fuel r w) as [[u|e|] w1] eqn:E; cbn [snd] in A.
    + destruct (IH w1) as (done & rest & Hl & Ha & Hr).
      exists (r :: done), rest. split; [now rewrite Hl|]. split; [|exact Hr].
      rewrite Ha, A, <- app_assoc. reflexivity.
    + exists [r], t. split; [reflexivity|]. split; [exact A|discriminate].
    + exists [r], t. split; [reflexivity|]. split; [exact A|discriminate].
Qed.

(** When the clock gets past every deadline the loop ends, the same way
    for any fuel large enough: at its end, with the cleanup of every
    candidate started, or by an exception that is not under [Exception]
    and that a method of a resource raised. *)
Lemma for_each_settles (l : list oid) (w : World St) :
  clock_passes w ->
  exists fuel0 res w',
    (res = Ret tt /\ attempts (trace w') = attempts (trace w) ++ l \/
     exists e, res = Raise e /\ is_Exception e = false /\ foreign ops e) /\
    forall fuel, fuel0 <= fuel -> for_each l (cleanup_or_log ops fuel) w = (res, w').
Proof.
  revert w. induction l as [|r t IH]; intros w Hp.
  - exists 0, (Ret tt), w. split; [left; split; [reflexivity|now rewrite app_nil_r]|].
    reflexivity.
  - destruct (cleanup_settles r w Hp) as (f1 & res1 & w1 & R1 & R2 & Hrun1).
    assert (Hcl : forall fuel, f1 <= fuel ->
              cleanup_or_log ops fuel r w =
              match res1 with
              | Raise e =>
                  if is_Exception e
                  then (Ret tt, emit (ELog ERROR "failed to cleanup %s" [AObj r] (Some e)) w1)
                  else (Raise e, w1)
              | _ => (res1, w1)
              end).
    { intros fuel Hf. rewrite cleanup_or_log_run, (Hrun1 fuel Hf).
      now destruct res1. }
    assert (Hnext : forall w2,
              (forall fuel, f1 <= fuel -> cleanup_or_log ops fuel r w = (Ret tt, w2)) ->
              exists fuel0 res w',
                (res = Ret tt /\ attempts (trace w') = attempts (trace w) ++ r :: t \/
                 exists e, res = Raise e /\ is_Exception e = false /\ foreign ops e) /\
                forall fuel, fuel0 <= fuel ->
                  for_each (r :: t) (cleanup_or_log ops fuel) w = (res, w')).
    { intros w2 H2.
      pose proof (cleanup_or_log_clock_passes f1 r w Hp) as Hp2.
      pose proof (proj2 (cleanup_or_log_framed f1 r w)) as A2.
      rewrite (H2 f1 (Nat.le_refl f1)) in Hp2, A2. cbn [snd] in Hp2, A2.
      destruct (IH w2 Hp2) as (f2 & res & w' & Hres & Hrun2).
      exists (Nat.max f1 f2), res, w'. split.
      - destruct Hres as [(-> & Ha)|Hraise]; [left|now right].
        split; [reflexivity|]. rewrite Ha, A2, <- app_assoc. reflexivity.
      - intros fuel Hf. cbn [for_each]. unfold bind.
        rewrite (H2 fuel ltac:(lia)). apply Hrun2. lia. }
    destruct res1 as [u|e|].
    + apply (Hnext w1). intros fuel Hf. rewrite (Hcl fuel Hf). now destruct u.
    + destruct (is_Exception e) eqn:He.
      * apply (Hnext (emit (ELog ERROR "failed to cleanup %s" [AObj r] (Some e)) w1)).
        intros fuel Hf. now rewrite (Hcl fuel Hf).
      * exists f1, (Raise e), w1. split.
        -- right. exists e. split; [reflexivity|]. split; [exact He|].
           destruct (R2 e eq_refl) as [Hx|Hx]; [congruence|exact Hx].
        -- intros fuel Hf. cbn [for_each]. unfold bind. now rewrite (Hcl fuel Hf).
    + now contradiction R1.
Qed.
End ExitLoop.

(** ** The candidates of [__exit__] *)

Section Ledger.
Context {St : Type} (ops : ResourceOps St).

Lemma exit_run {T V B : Type} (fuel : nat) (self : cleanup_context)
    (exc_typ : option T) (exc_val : option V) (exc_tb : option B) (w : World St) :
  __exit__ ops fuel self exc_typ exc_val exc_tb w =
  match for_each (cleanup_order ops self exc_typ exc_val exc_tb w)
          (cleanup_or_log ops fuel) w with
  | (Ret _, w') => (Ret PyNone, w')
  | (Raise e, w') => (Raise e, w')
  | (Diverge, w') => (Diverge, w')
  end.
Proof.
  unfold __exit__, bind, ret.
  destruct (for_each _ _ w) as [[u|e|] w']; reflexivity.
Qed.


(** The sort key is the rank of the first class of [ordered_classes] that
    the resource is an instance of, and 3 when there is none. *)
Lemma sortkey_rank (s : St) :
  (_sortkey_for_cleanup_ordering ops s = 0 <-> isinstance ops s Instance = true) /\
  (_sortkey_for_cleanup_ordering ops s = 1 <->
     isinstance ops s Instance = false /\ isinstance ops s Volume = true) /\
  (_sortkey_for_cleanup_ordering ops s = 2 <->
     isinstance ops s Instance = false /\ isinstance ops s Volume = false /\
     isinstance ops s Snapshot = true) /\
  (_sortkey_for_cleanup_ordering ops s = 3 <->
     isinstance ops s Instance = false /\ isinstance ops s Volume = false /\
     isinstance ops s Snapshot = false).
Proof.
  unfold _sortkey_for_cleanup_ordering, ordered_classes. cbn [sortkey_from].
  destruct (isinstance ops s Instance), (isinstance ops s Volume),
    (isinstance ops s Snapshot); repeat split; intros; try discriminate;
    repeat match goal with H : _ /\ _ |- _ => destruct H end; try discriminate;
    reflexivity.
Qed.

Lemma sortkey_bound (s : St) : _sortkey_for_cleanup_ordering ops s < 4.
Proof.
  unfold _sortkey_for_cleanup_ordering, ordered_classes. cbn [sortkey_from].
  destruct (isinstance ops s Instance), (isinstance ops s Volume),
    (isinstance ops s Snapshot); lia.
Qed.

(** Whether an entry is kept at this exit: its [keep_on_success] flag at a
    success exit, its [keep_on_error] flag at a failure exit. *)
Definition kept {T V B : Type} (exc_typ : option T) (exc_val : option V)
    (exc_tb : option B) (e : entry) : bool :=
  if is_success_exit exc_typ exc_val exc_tb then snd (fst e) else snd e.

Lemma to_cleanup_In {T V B : Type} (self : cleanup_context)
    (exc_typ : option T) (exc_val : option V) (exc_tb : option B) (r : oid) :
  In r (to_cleanup self exc_typ exc_val exc_tb) <->
  exists e, In e (resources self) /\ fst (fst e) = r /\
            kept exc_typ exc_val exc_tb e = false.
Proof.
  unfold to_cleanup, kept.
  destruct (is_success_exit exc_typ exc_val exc_tb); rewrite in_map_iff; split.
  all: try (intros (e & He & Hin); apply filter_In in Hin; destruct Hin as (Hin & Hk);
            exists e; repeat split; try assumption; now apply negb_true_iff in Hk).
  all: intros (e & Hin & He & Hk); exists e; split; [exact He|];
       apply filter_In; split; [exact Hin|now apply negb_true_iff].
Qed.
End Ledger.

Section Register.
Context {St : Type} (ops : ResourceOps St).


End Register.

(** ** [__exit__] is best effort *)

Section BestEffort.
Context {St : Type} (ops : ResourceOps St).

Lemma exit_settles {T V B : Type} (self : cleanup_context)
    (exc_typ : option T) (exc_val : option V) (exc_tb : option B) (w : World St) :
  clock_passes w ->
  exists fuel0 res w',
    (res = Ret PyNone /\
     attempts (trace w') =
       attempts (trace w) ++ cleanup_order ops self exc_typ exc_val exc_tb w \/
     exists e, res = Raise e /\ is_Exception e = false /\ foreign ops e) /\
    forall fuel, fuel0 <= fuel ->
      __exit__ ops fuel self exc_typ exc_val exc_tb w = (res, w').
Proof.
  intros Hp.
  destruct (for_each_settles ops (cleanup_order ops self exc_typ exc_val exc_tb w) w Hp)
    as (fuel0 & res & w' & Hres & Hrun).
  destruct Hres as [(-> & Ha)|(e & -> & He & Hf)].
  - exists fuel0, (Ret PyNone), w'. split; [left; now split|].
    intros fuel Hfuel. now rewrite exit_run, (Hrun fuel Hfuel).
  - exists fuel0, (Raise e), w'. split; [right; now exists e|].
    intros fuel Hfuel. now rewrite exit_run, (Hrun fuel Hfuel).
Qed.

(** C6.  An error, that is an exception under [Exception], raised while
    one candidate is destroyed is caught and logged, and the next candidate
    is taken; when [__exit__] comes to the end of the candidates it has
    started the cleanup of each and returns [None], which is not a true
    value, so the [with] statement raises the exception of its body again.
    When the resources raise nothing but errors, [__exit__] always returns
    [None]; it ends because every poll has the default timeout, which the
    clock gets past.  (The only other way [__exit__] ends is by an
    exception that is not under [Exception], raised by a method of a
    resource: an interrupt from the keyboard, an exit of the interpreter.) *)
Theorem exit_is_best_effort {T V B : Type} (self : cleanup_context)
    (exc_typ : option T) (exc_val : option V) (exc_tb : option B) (w : World St) :
  clock_passes w ->
  (exists fuel0 res w',
     (forall fuel, fuel0 <= fuel ->
        __exit__ ops fuel self exc_typ exc_val exc_tb w = (res, w')) /\
     (res = Ret PyNone /\
      attempts (trace w') =
        attempts (trace w) ++ cleanup_order ops self exc_typ exc_val exc_tb w \/
      exists e, res = Raise e /\ is_Exception e = false /\ foreign ops e) /\
     ((forall e, foreign ops e -> is_Exception e = true) -> res = Ret PyNone)) /\
  (forall fuel r w1 e w2,
     _cleanup_resource ops fuel r w1 = (Raise e, w2) ->
     is_Exception e = true ->
     cleanup_or_log ops fuel r w1 =
       (Ret tt, emit (ELog ERROR "failed to cleanup %s" [AObj r] (Some e)) w2)) /\
  truthy PyNone = false /\
  (forall e0, exists fuel0 res w',
     (forall fuel, fuel0 <= fuel ->
        leave_with ops fuel self (Raise e0) w = (res, w')) /\
     (res = Raise e0 \/
      exists e, res = Raise e /\ is_Exception e = false /\ foreign ops e) /\
     ((forall e, foreign ops e -> is_Exception e = true) -> res = Raise e0)).
Proof.
  intros Hp. split; [|split; [|split]].
  - destruct (exit_settles self exc_typ exc_val exc_tb w Hp)
      as (fuel0 & res & w' & Hres & Hrun).
    exists fuel0, res, w'. split; [exact Hrun|]. split; [exact Hres|].
    intros Hall. destruct Hres as [(-> & _)|(e & -> & He & Hf)]; [reflexivity|].
    rewrite (Hall e Hf) in He. discriminate.
  - intros fuel r w1 e w2 Hcl He. now rewrite cleanup_or_log_run, Hcl, He.
  - reflexivity.
  - intros e0.
    destruct (exit_settles self (Some "type") (Some e0) (Some tt) w Hp)
      as (fuel0 & res & w' & Hres & Hrun).
    destruct Hres as [(-> & _)|(e & -> & He & Hf)].
    + exists fuel0, (Raise e0), w'. split; [|split; [now left|reflexivity]].
      intros fuel Hfuel. unfold leave_with, bind. now rewrite (Hrun fuel Hfuel).
    + exists fuel0, (Raise e), w'. split; [|split; [right; now exists e|]].
      * intros fuel Hfuel. unfold leave_with, bind. now rewrite (Hrun fuel Hfuel).
      * intros Hall. rewrite (Hall e Hf) in He. discriminate.
Qed.
End BestEffort.

Lemma world_of_clock_passes (r : oid -> robot) (t0 dt : Z) (conn : option exn) :
  (0 < dt)%Z -> clock_passes (world_of r t0 dt conn).
Proof.
  intros Hdt T. exists (Z.to_nat (T - t0)). intros j Hj.
  cbn [world_of clock]. nia.
Qed.

Lemma exit_is_best_effort_witness :
  exists fuel0 w',
    (forall fuel, fuel0 <= fuel ->
       __exit__ robot_ops fuel abc_ledger (@None string) (@None exn) (@None unit)
         w_partial = (Ret PyNone, w')) /\
    attempts (trace w') = [0; 1; 2] /\
    logged (trace w') =
      [ELog DEBUG "cleaning up %s" [AObj 0] None;
       ELog ERROR "failed to cleanup %s" [AObj 0]
         (Some (OtherException "EC2ResponseError"));
       ELog DEBUG "cleaning up %s" [AObj 1] None;
       ELog DEBUG "cleaning up %s" [AObj 2] None].
Proof.
  destruct (exit_is_best_effort robot_ops abc_ledger (@None string) (@None exn)
              (@None unit) w_partial
              (world_of_clock_passes _ 0 5 None ltac:(lia)))
    as ((fuel0 & res & w' & Hrun & Hres & _) & _).
  pose proof (Hrun fuel0 (Nat.le_refl fuel0)) as H0.
  assert (Hfst : res = Ret PyNone)
    by (change res with (fst (res, w')); rewrite <- H0; reflexivity).
  assert (Hsnd : logged (trace w') =
                 logged (trace (snd (__exit__ robot_ops fuel0 abc_ledger (@None string)
                                       (@None exn) (@None unit) w_partial))))
    by (rewrite H0; reflexivity).
  subst res. exists fuel0, w'. split; [exact Hrun|]. split.
  - destruct Hres as [(_ & Ha)|(e & He & _)]; [exact Ha|discriminate].
  - rewrite Hsnd. reflexivity.
Defined.

(** An interrupt from the keyboard is not an error in this sense, and
    [except Exception] does not catch it: when it comes during the
    [terminate()] of a resource it leaves [__exit__], with any fuel, and
    the volume registered after that resource is not attempted. *)
Lemma exit_raises_on_keyboard_interrupt :
  (forall fuel,
     fst (__exit__ robot_ops fuel ab_ledger (@None string) (@None exn) (@None unit)
            w_interrupted) = Raise (NonException "KeyboardInterrupt")) /\
  cleanup_order robot_ops ab_ledger (@None string) (@None exn) (@None unit)
    w_interrupted = [0; 1] /\
  attempts (trace (snd (__exit__ robot_ops 10 ab_ledger (@None string) (@None exn)
                          (@None unit) w_interrupted))) = [0].
Proof.
  split; [|split].
  - intros fuel. reflexivity.
  - reflexivity.
  - reflexivity.
Qed.

(** ** The readiness wait *)

Section Readiness.
Context {St : Type} (ops : ResourceOps St).

(** The world after a connection attempt that failed before the deadline. *)
Definition after_attempt (instance : oid) (sleep_time : Z) (w : World St) : World St :=
  let host := public_dns_name ops (store w instance) in
  emit (ESleep sleep_time)
    (snd (time_time
       (snd (connect host 22 sleep_time
          (emit (ELog DEBUG "...waiting for ssh on %s" [AStr host] None) w))))).

(** A failed attempt before the deadline is followed by another. *)
Lemma ssh_round (fuel : nat) (instance : oid) (mt : Z) (sleep_time : Z)
    (w : World St) (e : exn) :
  net w 0 = Some e -> is_socket_error e = true -> (clock w 0 < mt)%Z ->
  wait_for_ssh_loop ops (S fuel) instance (Some mt) sleep_time w =
  wait_for_ssh_loop ops fuel instance (Some mt) sleep_time
    (after_attempt instance sleep_time w).
Proof.
  intros Hn He Hc. apply Z.leb_gt in Hc.
  cbn [wait_for_ssh_loop]. unfold bind at 1. unfold get_public_dns_name at 1.
  unfold bind at 1. cbn [log]. unfold try_except.
  unfold bind at 1. unfold get_public_dns_name at 1. unfold connect at 1.
  cbn [emit net store]. rewrite Hn, He.
  unfold bind at 1. cbn [time_time]. cbn [clock emit]. rewrite Hc.
  unfold bind at 1. cbn [time_sleep].
  unfold after_attempt, connect. cbn [emit net store]. rewrite Hn. reflexivity.
Qed.

(** A failed attempt at or after the deadline raises. *)
Lemma ssh_timed_out (fuel : nat) (instance : oid) (mt : Z) (sleep_time : Z)
    (w : World St) (e : exn) :
  net w 0 = Some e -> is_socket_error e = true -> (mt <= clock w 0)%Z ->
  wait_for_ssh_loop ops (S fuel) instance (Some mt) sleep_time w =
  (Raise (RuntimeError "Operation timed out"),
   emit (ELog WARNING "...timeout waiting for %s to be ready" [AObj instance] None)
     (snd (time_time
        (snd (connect (public_dns_name ops (store w instance)) 22 sleep_time
           (emit (ELog DEBUG "...waiting for ssh on %s"
                    [AStr (public_dns_name ops (store w instance))] None) w)))))).
Proof.
  intros Hn He Hc. apply Z.leb_le in Hc.
  cbn [wait_for_ssh_loop]. unfold bind at 1. unfold get_public_dns_name at 1.
  unfold bind at 1. cbn [log]. unfold try_except.
  unfold bind at 1. unfold get_public_dns_name at 1. unfold connect at 1.
  cbn [emit net store]. rewrite Hn, He.
  unfold bind at 1. cbn [time_time]. cbn [clock emit]. rewrite Hc.
  unfold bind at 1. cbn [log].
  unfold connect. cbn [emit net store]. rewrite Hn. reflexivity.
Qed.

(** How the world after [m] failed attempts relates to the world before:
    the objects are as they were, and the clock and the network have been
    asked [m] times each. *)
Definition probed (m : nat) (w w' : World St) : Prop :=
  (forall o, store w' o = store w o) /\
  (forall k, clock w' k = clock w (m + k)) /\
  (forall k, net w' k = net w (m + k)) /\
  readings (trace w') = readings (trace w) ++ map (clock w) (seq 0 m) /\
  List.length (connections (trace w')) = List.length (connections (trace w)) + m.

Lemma probed_attempt (instance : oid) (sleep_time : Z) (w : World St) :
  probed 1 w (after_attempt instance sleep_time w).
Proof.
  unfold probed, after_attempt, connect.
  repeat (progress (unfold emit; cbn [time_time snd store clock net trace])).
  destruct (net w 0);
    repeat (progress (unfold emit; cbn [time_time snd store clock net trace]));
    rewrite ?readings_app, ?connections_app, ?length_app;
    cbn [readings connections app List.length seq map];
    rewrite ?app_nil_r; repeat split; try reflexivity; lia.
Qed.

Lemma probed_trans (m1 m2 : nat) (w w1 w2 : World St) :
  probed m1 w w1 -> probed m2 w1 w2 -> probed (m1 + m2) w w2.
Proof.
  intros (A1 & A2 & A3 & A4 & A5) (B1 & B2 & B3 & B4 & B5). unfold probed.
  repeat split.
  - intros o. now rewrite B1.
  - intros k. rewrite B2, A2. f_equal. lia.
  - intros k. rewrite B3, A3. f_equal. lia.
  - rewrite B4, A4, <- app_assoc. f_equal.
    rewrite seq_app, map_app. f_equal. cbn [Nat.add].
    rewrite (map_seq_from (clock w) m1 m2).
    apply map_ext. intros k. apply A2.
  - rewrite B5, A5. lia.
Qed.

(** [m] failed attempts, all before the deadline. *)
Lemma ssh_rounds (m : nat) (instance : oid) (mt : Z) (sleep_time : Z) (w : World St) :
  (forall j, j < m -> exists e, net w j = Some e /\ is_socket_error e = true) ->
  (forall j, j < m -> (clock w j < mt)%Z) ->
  exists w',
    probed m w w' /\
    forall fuel,
      wait_for_ssh_loop ops (m + fuel) instance (Some mt) sleep_time w =
      wait_for_ssh_loop ops fuel instance (Some mt) sleep_time w'.
Proof.
  revert w. induction m as [|m IH]; intros w Hnet Hclk.
  - exists w. split; [|reflexivity]. unfold probed. cbn. rewrite app_nil_r.
    repeat split. lia.
  - destruct (Hnet 0 (Nat.lt_0_succ m)) as (e & Hn & He).
    pose proof (probed_attempt instance sleep_time w) as P1.
    destruct (IH (after_attempt instance sleep_time w)) as (w' & P2 & Hrun).
    + intros j Hj. destruct P1 as (_ & _ & A3 & _). rewrite A3. apply Hnet. lia.
    + intros j Hj. destruct P1 as (_ & A2 & _). rewrite A2. apply Hclk. lia.
    + exists w'. split; [exact (probed_trans 1 m _ _ _ P1 P2)|].
      intros fuel. cbn [Nat.add].
      rewrite (ssh_round _ _ _ _ _ e Hn He (Hclk 0 (Nat.lt_0_succ m))). apply Hrun.
Qed.

(** Entering [wait_for_instance_ready] with a timeout: one log record and
    one reading of the clock, which sets the deadline of the connectivity
    phase. *)
Lemma ready_enter (fuel : nat) (instance : oid) (t : Z) (sleep_time : Z) (w : World St) :
  wait_for_instance_ready ops fuel instance (Some t) sleep_time w =
  match wait_for_status ops fuel instance "running" (Some ["pending"]) (Some t) sleep_time
          (snd (time_time (emit (ELog DEBUG "waiting for %s to be ready"
                                    [AObj instance] None) w))) with
  | (Ret _, w1) => wait_for_ssh_loop ops fuel instance (Some (clock w 0 + t)%Z) sleep_time w1
  | (Raise e, w1) => (Raise e, w1)
  | (Diverge, w1) => (Diverge, w1)
  end.
Proof.
  unfold wait_for_instance_ready. unfold bind at 1. cbn [log].
  unfold bind at 1. unfold set_max_time. unfold bind at 1. cbn [time_time ret].
  cbn [clock emit]. unfold bind at 1.
  destruct (wait_for_status ops fuel instance "running" (Some ["pending"]) (Some t)
              sleep_time _) as [[b|e|] w1]; reflexivity.
Qed.

(** Between [w] and [w'] the clock has been read [r] times. *)
Definition clocked (r : nat) (w w' : World St) : Prop :=
  (forall k, clock w' k = clock w (r + k)) /\
  readings (trace w') = readings (trace w) ++ map (clock w) (seq 0 r).

Lemma clocked_trans (r1 r2 : nat) (w w1 w2 : World St) :
  clocked r1 w w1 -> clocked r2 w1 w2 -> clocked (r1 + r2) w w2.
Proof.
  intros (A1 & A2) (B1 & B2). split.
  - intros k. rewrite B1, A1. f_equal. lia.
  - rewrite B2, A2, <- app_assoc. f_equal.
    rewrite seq_app, map_app. f_equal. cbn [Nat.add].
    rewrite (map_seq_from (clock w) r1 r2).
    apply map_ext. intros k. apply A1.
Qed.

Lemma polled_clocked (obj : oid) (r n : nat) (w w' : World St) :
  polled ops obj r n w w' -> clocked r w w'.
Proof.
  intros (_ & _ & A3 & _ & _ & _ & A7 & _). now split.
Qed.

Lemma probed_clocked (m : nat) (w w' : World St) : probed m w w' -> clocked m w w'.
Proof.
  intros (_ & A2 & _ & A4 & _). now split.
Qed.

(** C5, as the code has it.  [wait_for_instance_ready] reads the clock
    when it is entered and sets the deadline of the connectivity phase
    there and then, [timeout] after that reading; [wait_for_status] sets
    the deadline of the status phase at its own start, [timeout] after the
    next reading.  So when the status phase has ended after [n] rounds of
    [pending], the connectivity phase goes on only while the clock reads
    less than the reading at entry plus [timeout]: at the first failed
    connection attempt at which the clock has reached it the timed-out
    error is raised, however short of [timeout] the connectivity phase has
    lasted.  With [n = 0] this is the instance that is [running] at once
    behind a port that never accepts a connection.  The sleep time is one
    that [time.sleep] and [settimeout] take: not negative. *)
Theorem readiness_deadline_from_entry (fuel n m : nat) (instance : oid)
    (t sleep_time : Z) (w : World St) :
  (0 <= sleep_time)%Z ->
  (forall k, k < n -> status_at ops (store w instance) k = Ret "pending") ->
  status_at ops (store w instance) n = Ret "running" ->
  (forall k, k < n -> (clock w (2 + k) < clock w 1 + t)%Z) ->
  (forall j, j <= m -> exists e, net w j = Some e /\ is_socket_error e = true) ->
  (forall j, j < m -> (clock w (n + 2 + j) < clock w 0 + t)%Z) ->
  (clock w 0 + t <= clock w (n + 2 + m))%Z ->
  n < fuel -> m < fuel ->
  exists w',
    wait_for_instance_ready ops fuel instance (Some t) sleep_time w =
      (Raise (RuntimeError "Operation timed out"), w') /\
    readings (trace w') = readings (trace w) ++ map (clock w) (seq 0 (n + 3 + m)) /\
    List.length (connections (trace w')) = List.length (connections (trace w)) + S m.
Proof.
  intros _ Hpend Hrun Hin Hnet Hbefore Hlate Hfn Hfm.
  rewrite ready_enter.
  set (w0 := snd (time_time (emit (ELog DEBUG "waiting for %s to be ready"
                                     [AObj instance] None) w))).
  assert (C0 : clocked 1 w w0).
  { unfold w0, clocked.
    repeat (progress (unfold emit; cbn [time_time snd clock trace])).
    rewrite !readings_app. cbn [readings seq map]. rewrite app_nil_r. now split. }
  assert (N0 : connections (trace w0) = connections (trace w)).
  { unfold w0. repeat (progress (unfold emit; cbn [time_time snd trace])).
    rewrite !connections_app.
    cbn [connections]. now rewrite !app_nil_r. }
  destruct (wait_for_status_returns ops instance "running" (Some ["pending"]) (Some t)
              sleep_time w0 n) with (fuel := fuel) as (w1 & Hrun1 & P1).
  - intros k Hk. exists "pending". split; [|reflexivity]. now apply Hpend.
  - intros k Hk. cbn [deadline reached reads]. apply Z.leb_gt.
    destruct C0 as (C0 & _). rewrite !C0. cbn [Nat.add]. now apply Hin.
  - exact Hrun.
  - exact Hfn.
  - rewrite Hrun1.
    assert (C1 : clocked (1 + 1 * S n) w w1)
      by exact (clocked_trans _ _ _ _ _ C0 (polled_clocked _ _ _ _ _ P1)).
    destruct P1 as (_ & _ & _ & A4 & _ & _ & _ & A8).
    destruct (ssh_rounds m instance (clock w 0 + t)%Z sleep_time w1) as (w2 & P2 & Hrun2).
    + intros j Hj. rewrite A4. apply Hnet. lia.
    + intros j Hj. destruct C1 as (C1 & _). rewrite C1.
      replace (1 + 1 * S n + j) with (n + 2 + j) by lia. now apply Hbefore.
    + pose proof (clocked_trans _ _ _ _ _ C1 (probed_clocked _ _ _ P2)) as C2.
      destruct P2 as (_ & _ & B3 & _ & B5).
      destruct (Hnet m (Nat.le_refl m)) as (e & Hn & He).
      replace fuel with (m + S (fuel - S m)) by lia. rewrite Hrun2.
      rewrite (ssh_timed_out _ _ _ _ _ e).
      * eexists. split; [reflexivity|].
        set (R := 1 + 1 * S n + m) in *.
        destruct C2 as (C2a & C2b). split.
        -- unfold connect.
           repeat (progress (unfold emit; cbn [time_time snd trace clock net store])).
           destruct (net w2 0);
             repeat (progress (unfold emit; cbn [time_time snd trace clock net store]));
             rewrite !readings_app; cbn [readings]; rewrite !app_nil_r, C2b, <- app_assoc;
             f_equal;
             replace (n + 3 + m) with (R + 1) by (unfold R; lia);
             rewrite (seq_app R 1 0), map_app; f_equal; cbn [seq map];
             rewrite C2a; f_equal; f_equal; lia.
        -- unfold connect.
           repeat (progress (unfold emit; cbn [time_time snd trace clock net store])).
           destruct (net w2 0);
             repeat (progress (unfold emit; cbn [time_time snd trace clock net store]));
             rewrite !connections_app, !length_app; cbn [connections List.length];
             rewrite B5, A8, N0; lia.
      * rewrite B3, A4, Nat.add_0_r. exact Hn.
      * exact He.
      * destruct C2 as (C2a & _). rewrite C2a.
        replace (1 + 1 * S n + m + 0) with (n + 2 + m) by lia. exact Hlate.
Qed.
End Readiness.

Lemma readiness_deadline_from_entry_witness :
  exists w',
    wait_for_instance_ready robot_ops 10 0 (Some 20%Z) 5 w_port_closed =
      (Raise (RuntimeError "Operation timed out"), w') /\
    readings (trace w') = [0; 5; 10; 15; 20]%Z /\
    List.length (connections (trace w')) = 3.
Proof.
  refine (readiness_deadline_from_entry robot_ops 10 0 2 0 20 5 w_port_closed
            _ _ eq_refl _ _ _ _ _ _).
  - lia.
  - intros k Hk. lia.
  - intros k Hk. lia.
  - intros j Hj. exists SocketError. split; reflexivity.
  - intros [|[|j]] Hj; [reflexivity..|lia].
  - cbn. lia.
  - lia.
  - lia.
Defined.

(** C5 as the specification has it fails: the connectivity phase has no
    budget of its own.  With a timeout of 300 seconds and a status phase
    whose one round of [pending] is checked when the clock reads 299, the
    first connection attempt, made after the sleep of five seconds, fails
    and raises the timed-out error when the clock reads 304: the
    connectivity phase has made one attempt and has lasted nothing like 300
    seconds. *)
Lemma connectivity_phase_has_no_budget_of_its_own :
  fst (wait_for_instance_ready robot_ops 10 0 (Some 300%Z) 5 w_slow_start) =
    Raise (RuntimeError "Operation timed out") /\
  readings (trace (snd (wait_for_instance_ready robot_ops 10 0 (Some 300%Z) 5
                          w_slow_start))) = [0; 0; 299; 304]%Z /\
  connections (trace (snd (wait_for_instance_ready robot_ops 10 0 (Some 300%Z) 5
                             w_slow_start))) = [EConnect "ec2-host.example" 22 5] /\
  sleeps (trace (snd (wait_for_instance_ready robot_ops 10 0 (Some 300%Z) 5
                        w_slow_start))) = [5]%Z /\
  (304 - 299 < 300)%Z.
Proof.
  repeat split.
Qed.

(** ** Loading a template *)

(** *** Strings *)

Lemma substring_all (s : string) : substring 0 (String.length s) s = s.
Proof.
  induction s as [|c s IH]; [reflexivity|]. cbn. now rewrite IH.
Qed.

Lemma substring_after (pre suf : string) :
  substring (String.length pre) (String.length suf) (pre ++ suf)%string = suf.
Proof.
  induction pre as [|c pre IH]; [apply substring_all|exact IH].
Qed.

Lemma substring_split (n : nat) (s : string) :
  n <= String.length s ->
  s = (substring 0 n s ++ substring n (String.length s - n) s)%string.
Proof.
  revert n. induction s as [|c s IH]; intros [|n] Hn; cbn in *; try reflexivity; try lia.
  - now rewrite substring_all.
  - f_equal. apply IH. lia.
Qed.

Lemma length_append (a b : string) :
  String.length (a ++ b)%string = String.length a + String.length b.
Proof.
  induction a as [|c a IH]; [reflexivity|]. cbn. now rewrite IH.
Qed.

(** [endswith] is what its name says. *)
Lemma endswith_iff (s suffix : string) :
  endswith s suffix = true <-> exists stem, s = (stem ++ suffix)%string.
Proof.
  unfold endswith. split.
  - intros H. apply andb_prop in H. destruct H as [Hl He].
    apply Nat.leb_le in Hl. apply String.eqb_eq in He.
    exists (substring 0 (String.length s - String.length suffix) s).
    pose proof (substring_split (String.length s - String.length suffix) s
                  ltac:(lia)) as Hs.
    replace (String.length s - (String.length s - String.length suffix))
      with (String.length suffix) in Hs by lia.
    rewrite He in Hs. exact Hs.
  - intros (stem & ->). rewrite length_append.
    replace (String.length stem + String.length suffix - String.length suffix)
      with (String.length stem) by lia.
    rewrite substring_after, String.eqb_refl, andb_true_r.
    apply Nat.leb_le. lia.
Qed.

Lemma split_nonempty (sep : ascii) (s : string) : split sep s <> [].
Proof.
  destruct s as [|c t]; cbn; [discriminate|].
  destruct (Ascii.eqb c sep); [discriminate|].
  destruct (split sep t); discriminate.
Qed.

Lemma key_of_cons (c : ascii) (t : string) :
  key_of (String c t) = if Ascii.eqb c "."%char then EmptyString else String c (key_of t).
Proof.
  unfold key_of. cbn [split]. destruct (Ascii.eqb c "."); [reflexivity|].
  pose proof (split_nonempty "." t) as Hne.
  destruct (split "." t); [contradiction|reflexivity].
Qed.

Section TemplateFacts.
Context (host : Platform).

(** *** Items *)

Lemma dict_get_setitem_same (k : string) (v : value) (items : list (value * value)) :
  dict_get k (dict_setitem k v items) = Some v.
Proof.
  induction items as [|[key old] rest IH]; cbn [dict_setitem dict_get].
  - cbn [is_key]. now rewrite String.eqb_refl.
  - destruct (is_key k key) eqn:E; cbn [dict_get]; rewrite E; [reflexivity|exact IH].
Qed.

Lemma dict_get_setitem_other (k k' : string) (v : value) (items : list (value * value)) :
  k' <> k ->
  dict_get k' (dict_setitem k v items) = dict_get k' items.
Proof.
  intros Hne. induction items as [|[key old] rest IH]; cbn [dict_setitem dict_get].
  - cbn [is_key]. apply not_eq_sym in Hne. apply String.eqb_neq in Hne. now rewrite Hne.
  - destruct (is_key k key) eqn:E; cbn [dict_get].
    + destruct (is_key k' key) eqn:E'; [|reflexivity].
      destruct key; try discriminate. cbn [is_key] in E, E'.
      apply String.eqb_eq in E, E'. congruence.
    + destruct (is_key k' key); [reflexivity|exact IH].
Qed.

Lemma lookup_setitem (data data' : value) (k k' : string) (v : value) :
  setitem data k v = Returned data' ->
  lookup k' data' = if String.eqb k k' then Some v else lookup k' data.
Proof.
  destruct data; try discriminate. cbn [setitem]. intros H. inversion H; subst.
  cbn [lookup]. destruct (String.eqb k k') eqn:E.
  - apply String.eqb_eq in E. subst. apply dict_get_setitem_same.
  - apply String.eqb_neq in E. apply dict_get_setitem_other. congruence.
Qed.

Lemma setitem_dict (data : value) (k : string) (v : value) :
  is_dict data = true ->
  exists data', setitem data k v = Returned data' /\ is_dict data' = true.
Proof.
  destruct data; try discriminate. intros _. eexists. split; reflexivity.
Qed.

Lemma setitem_not_dict (data : value) (k : string) (v : value) :
  is_dict data = false -> setitem data k v = Raised (OtherException "TypeError").
Proof.
  destruct data; try discriminate; reflexivity.
Qed.

(** *** The second loop *)

Lemma entry_for_Some (main_file k : string) (names : list string) (nm : string) :
  entry_for main_file k names = Some nm ->
  In nm names /\ merged main_file nm = true /\ key_of nm = k.
Proof.
  induction names as [|n rest IH]; [discriminate|]. cbn [entry_for].
  destruct (entry_for main_file k rest) as [later|].
  - intros H. inversion H; subst. destruct (IH eq_refl) as (H1 & H2). split; [now right|exact H2].
  - destruct (merged main_file n && String.eqb (key_of n) k) eqn:E; [|discriminate].
    intros H. inversion H; subst. apply andb_prop in E. destruct E as [E1 E2].
    apply String.eqb_eq in E2. split; [now left|now split].
Qed.

Lemma entry_for_None (main_file k : string) (names : list string) :
  entry_for main_file k names = None ->
  forall nm, In nm names -> merged main_file nm = true -> key_of nm <> k.
Proof.
  induction names as [|n rest IH]; [intros _ nm []|]. cbn [entry_for].
  destruct (entry_for main_file k rest) as [later|]; [discriminate|].
  destruct (merged main_file n && String.eqb (key_of n) k) eqn:E; [discriminate|].
  intros _ nm [->|Hin] Hm.
  - rewrite Hm in E. cbn in E. now apply String.eqb_neq.
  - now apply IH.
Qed.

Lemma merge_entries_loads (load : string -> res value) (path main_file : string)
    (names : list string) (data result : value) :
  merge_entries load path main_file names data = Ret result ->
  forall nm, In nm names -> merged main_file nm = true ->
  exists v, load (os_path_join path nm) = Ret v.
Proof.
  revert data. induction names as [|n rest IH]; intros data H nm Hin Hm; [destruct Hin|].
  cbn [merge_entries] in H. unfold merged in Hm.
  destruct Hin as [->|Hin].
  - apply andb_prop in Hm. destruct Hm as [M1 M2].
    apply negb_true_iff in M1, M2. rewrite M1, M2 in H.
    destruct (load (os_path_join path nm)) as [v|e|]; try discriminate. now exists v.
  - destruct (String.eqb n main_file); [now apply (IH data H)|].
    destruct (startswith n "."); [now apply (IH data H)|].
    destruct (load (os_path_join path n)) as [v|e|]; try discriminate.
    destruct (setitem data (key_of n) v) as [data'|e]; try discriminate.
    now apply (IH data' H).
Qed.

(** What the second loop leaves under a key. *)
Lemma merge_entries_lookup (load : string -> res value) (path main_file : string)
    (names : list string) (data result : value) (k : string) :
  merge_entries load path main_file names data = Ret result ->
  lookup k result =
    match entry_for main_file k names with
    | Some nm =>
        match load (os_path_join path nm) with
        | Ret v => Some v
        | _ => None
        end
    | None => lookup k data
    end.
Proof.
  revert data. induction names as [|nm rest IH]; intros data H.
  - cbn in H. now inversion H.
  - cbn [merge_entries] in H. cbn [entry_for]. unfold merged.
    destruct (String.eqb nm main_file); [cbn [negb andb]|].
    { rewrite (IH data H). now destruct (entry_for main_file k rest). }
    destruct (startswith nm "."); [cbn [negb andb]|].
    { rewrite (IH data H). now destruct (entry_for main_file k rest). }
    cbn [negb andb].
    destruct (load (os_path_join path nm)) as [v|e|] eqn:Hl; try discriminate.
    destruct (setitem data (key_of nm) v) as [data'|e] eqn:Hs; try discriminate.
    rewrite (IH data' H).
    destruct (entry_for main_file k rest); [reflexivity|].
    rewrite (lookup_setitem _ _ _ k _ Hs).
    destruct (String.eqb (key_of nm) k); cbn [andb]; [now rewrite Hl|reflexivity].
Qed.

Lemma merge_entries_none (load : string -> res value) (path main_file : string)
    (names : list string) (data : value) :
  (forall nm, In nm names -> merged main_file nm = false) ->
  merge_entries load path main_file names data = Ret data.
Proof.
  induction names as [|nm rest IH]; intros H; [reflexivity|].
  cbn [merge_entries].
  pose proof (H nm (or_introl eq_refl)) as Hm. unfold merged in Hm.
  destruct (String.eqb nm main_file); [apply IH; intros; apply H; now right|].
  destruct (startswith nm "."); [apply IH; intros; apply H; now right|].
  discriminate.
Qed.

Lemma merge_entries_app (load : string -> res value) (path main_file : string)
    (pre post : list string) (data : value) :
  merge_entries load path main_file (pre ++ post) data =
  match merge_entries load path main_file pre data with
  | Ret data' => merge_entries load path main_file post data'
  | r => r
  end.
Proof.
  revert data. induction pre as [|nm rest IH]; intros data; [reflexivity|].
  cbn [app merge_entries].
  destruct (String.eqb nm main_file); [apply IH|].
  destruct (startswith nm "."); [apply IH|].
  destruct (load (os_path_join path nm)) as [v|e|]; try reflexivity.
  destruct (setitem data (key_of nm) v) as [data'|e]; [apply IH|reflexivity].
Qed.

Lemma merge_entries_dict (load : string -> res value) (path main_file : string)
    (names : list string) (data : value) :
  is_dict data = true ->
  (forall nm, In nm names -> merged main_file nm = true ->
              exists v, load (os_path_join path nm) = Ret v) ->
  exists data', merge_entries load path main_file names data = Ret data' /\
                is_dict data' = true.
Proof.
  revert data. induction names as [|nm rest IH]; intros data Hd H.
  - exists data. now split.
  - cbn [merge_entries].
    assert (H' : forall nm', In nm' rest -> merged main_file nm' = true ->
               exists v, load (os_path_join path nm') = Ret v)
      by (intros; apply H; [now right|assumption]).
    pose proof (H nm (or_introl eq_refl)) as Hn. unfold merged in Hn.
    destruct (String.eqb nm main_file); [now apply IH|].
    destruct (startswith nm "."); [now apply IH|].
    destruct (Hn eq_refl) as (v & ->).
    destruct (setitem_dict data (key_of nm) v Hd) as (data' & -> & Hd').
    now apply IH.
Qed.

Lemma merge_entries_ext (load load' : string -> res value) (path main_file : string)
    (names : list string) (data : value) :
  (forall nm, In nm names -> load (os_path_join path nm) = load' (os_path_join path nm)) ->
  merge_entries load path main_file names data =
  merge_entries load' path main_file names data.
Proof.
  revert data. induction names as [|nm rest IH]; intros data H; [reflexivity|].
  cbn [merge_entries]. rewrite <- (H nm (or_introl eq_refl)).
  assert (H' : forall nm', In nm' rest ->
             load (os_path_join path nm') = load' (os_path_join path nm'))
    by (intros; apply H; now right).
  destruct (String.eqb nm main_file); [now apply IH|].
  destruct (startswith nm "."); [now apply IH|].
  destruct (load (os_path_join path nm)) as [v|e|]; try reflexivity.
  destruct (setitem data (key_of nm) v) as [data'|e]; [now apply IH|reflexivity].
Qed.

Lemma merge_entries_ends (load : string -> res value) (path main_file : string)
    (names : list string) (data : value) :
  (forall nm, In nm names -> load (os_path_join path nm) <> Diverge) ->
  merge_entries load path main_file names data <> Diverge.
Proof.
  revert data. induction names as [|nm rest IH]; intros data H; [discriminate|].
  cbn [merge_entries].
  pose proof (H nm (or_introl eq_refl)) as Hn.
  assert (H' : forall nm', In nm' rest -> load (os_path_join path nm') <> Diverge)
    by (intros; apply H; now right).
  destruct (String.eqb nm main_file); [now apply IH|].
  destruct (startswith nm "."); [now apply IH|].
  destruct (load (os_path_join path nm)) as [v|e|]; [|discriminate|contradiction].
  destruct (setitem data (key_of nm) v) as [data'|e]; [now apply IH|discriminate].
Qed.

Lemma merge_entries_visible (load : string -> res value) (path main_file : string)
    (names : list string) (data : value) :
  merge_entries load path main_file
    (filter (fun nm => negb (startswith nm ".")) names) data =
  merge_entries load path main_file names data.
Proof.
  revert data. induction names as [|nm rest IH]; intros data; [reflexivity|].
  cbn [filter]. destruct (startswith nm ".") eqn:Hh; cbn [negb].
  - cbn [merge_entries]. rewrite Hh, IH. now destruct (String.eqb nm main_file).
  - cbn [merge_entries]. rewrite Hh.
    destruct (String.eqb nm main_file); [apply IH|].
    destruct (load (os_path_join path nm)) as [v|e|]; try reflexivity.
    destruct (setitem data (key_of nm) v) as [data'|e]; [apply IH|reflexivity].
Qed.

(** *** The function, step by step *)

Lemma load_dir (fuel : nat) (path : string) :
  os_path_isdir host path = true ->
  load_cfn_template host (S fuel) path =
  match main_data host fuel path with
  | Ret data =>
      match os_listdir host path with
      | Returned names =>
          merge_entries (load_cfn_template host fuel) path (main_file_of host path)
            names data
      | Raised e => Raise e
      end
  | Raise e => Raise e
  | Diverge => Diverge
  end.
Proof.
  intros Hd. cbn [load_cfn_template]. rewrite Hd. cbn [negb].
  unfold main_data, main_file_of, has_main_file.
  destruct (pick_main_file host path "main.json" ["main.yaml"; "main.yml"])
    as [main_file found].
  reflexivity.
Qed.

Lemma load_file (fuel : nat) (path : string) :
  os_path_isdir host path = false ->
  load_cfn_template host (S fuel) path =
  match open_r host path with
  | Returned f =>
      if endswith path ".yaml" || endswith path ".yml"
      then of_outcome (yaml_safe_load host f)
      else of_outcome (json_load host f)
  | Raised e => Raise e
  end.
Proof.
  intros Hd. cbn [load_cfn_template]. now rewrite Hd.
Qed.

Lemma main_file_among (path : string) :
  In (main_file_of host path) ["main.json"; "main.yaml"; "main.yml"].
Proof.
  unfold main_file_of. cbn [pick_main_file].
  destruct (os_path_exists host (os_path_join path "main.json")); [now left|].
  destruct (os_path_exists host (os_path_join path "main.yaml")); [right; now left|].
  destruct (os_path_exists host (os_path_join path "main.yml")); right; right; now left.
Qed.
End TemplateFacts.

Section TemplateTheorems.
Context (host : Platform).

Lemma of_outcome_ends {A : Type} (o : outcome A) : of_outcome o <> Diverge.
Proof.
  destruct o; discriminate.
Qed.

Lemma load_file_ends (fuel : nat) (path : string) :
  os_path_isdir host path = false ->
  load_cfn_template host (S fuel) path <> Diverge /\
  load_cfn_template host (S fuel) path = load_cfn_template host 1 path.
Proof.
  intros Hd. rewrite !(load_file host _ _ Hd). split; [|reflexivity].
  destruct (open_r host path); [|discriminate].
  destruct (endswith path ".yaml" || endswith path ".yml"); apply of_outcome_ends.
Qed.

Lemma entry_for_last (main_file k : string) (names : list string) (nm : string) :
  entry_for main_file k names = Some nm ->
  exists pre post,
    names = pre ++ nm :: post /\
    forall later, In later post -> merged main_file later = true -> key_of later <> k.
Proof.
  induction names as [|n rest IH]; [discriminate|]. cbn [entry_for].
  destruct (entry_for main_file k rest) as [later|] eqn:E.
  - intros H. inversion H; subst. destruct (IH eq_refl) as (pre & post & -> & Hpost).
    exists (n :: pre), post. now split.
  - destruct (merged main_file n && String.eqb (key_of n) k); [|discriminate].
    intros H. inversion H; subst. exists [], rest. split; [reflexivity|].
    now apply entry_for_None.
Qed.

Lemma entry_for_found (main_file k : string) (names : list string) (nm : string) :
  In nm names -> merged main_file nm = true -> key_of nm = k ->
  exists last, entry_for main_file k names = Some last.
Proof.
  intros Hin Hm Hk. destruct (entry_for main_file k names) as [last|] eqn:E.
  - now exists last.
  - now destruct (entry_for_None _ _ _ E nm Hin Hm).
Qed.

Lemma directory_lookup (fuel : nat) (path : string) (names : list string)
    (result : value) (k : string) :
  os_path_isdir host path = true ->
  os_listdir host path = Returned names ->
  load_cfn_template host (S fuel) path = Ret result ->
  match entry_for (main_file_of host path) k names with
  | Some nm =>
      (exists pre post,
         names = pre ++ nm :: post /\
         forall later, In later post -> merged (main_file_of host path) later = true ->
                       key_of later <> k) /\
      nm <> main_file_of host path /\ startswith nm "." = false /\ key_of nm = k /\
      exists v,
        load_cfn_template host fuel (os_path_join path nm) = Ret v /\
        lookup k result = Some v
  | None =>
      (forall nm, In nm names -> nm <> main_file_of host path ->
                  startswith nm "." = false -> key_of nm <> k) /\
      exists data, main_data host fuel path = Ret data /\ lookup k result = lookup k data
  end.
Proof.
  intros Hd Hl Hr. rewrite (load_dir host _ _ Hd), Hl in Hr.
  destruct (main_data host fuel path) as [data|e|] eqn:Hm; try discriminate.
  pose proof (merge_entries_lookup _ _ _ _ _ _ k Hr) as Hk.
  destruct (entry_for (main_file_of host path) k names) as [nm|] eqn:E.
  - destruct (entry_for_Some _ _ _ _ E) as (Hin & Hmg & Hkey).
    destruct (merge_entries_loads _ _ _ _ _ _ Hr nm Hin Hmg) as (v & Hv).
    rewrite Hv in Hk. split; [exact (entry_for_last _ _ _ _ E)|].
    unfold merged in Hmg. apply andb_prop in Hmg. destruct Hmg as [M1 M2].
    apply negb_true_iff in M1, M2. apply String.eqb_neq in M1.
    repeat split; try assumption. now exists v.
  - split; [|now exists data].
    intros nm Hin Hne Hvis. apply (entry_for_None _ _ _ E nm Hin).
    unfold merged. apply String.eqb_neq in Hne. now rewrite Hne, Hvis.
Qed.

(** X1.  What a directory holds under a key.  When [load_cfn_template]
    returns on a directory, the value under the key [k] is the template
    loaded from the last entry of the listing that is neither the main file
    nor hidden and whose name up to the first dot is [k]: an entry listed
    later replaces an earlier one of the same key, and what the main file
    had under that key.  When no entry has the key, the value is the one
    the main data has under [k]. *)
Theorem directory_entries_by_key (fuel : nat) (path : string) (names : list string)
    (result : value) (k : string) :
  os_path_isdir host path = true ->
  os_listdir host path = Returned names ->
  load_cfn_template host (S fuel) path = Ret result ->
  match entry_for (main_file_of host path) k names with
  | Some nm =>
      (exists pre post,
         names = pre ++ nm :: post /\
         forall later, In later post -> merged (main_file_of host path) later = true ->
                       key_of later <> k) /\
      nm <> main_file_of host path /\ startswith nm "." = false /\ key_of nm = k /\
      exists v,
        load_cfn_template host fuel (os_path_join path nm) = Ret v /\
        lookup k result = Some v
  | None =>
      (forall nm, In nm names -> nm <> main_file_of host path ->
                  startswith nm "." = false -> key_of nm <> k) /\
      exists data, main_data host fuel path = Ret data /\ lookup k result = lookup k data
  end.
Proof.
  exact (directory_lookup fuel path names result k).
Qed.

(** X2.  Which file gives the top-level mapping of a directory:
    [main.json] when it exists, else [main.yaml], else [main.yml], each
    loaded by a recursive call; when none of the three exists the mapping
    starts empty and the variable [main_file] is left at ["main.yml"].  The
    entries of the listing are then merged into that data. *)
Theorem main_file_precedence (fuel : nat) (path : string) :
  (os_path_exists host (os_path_join path "main.json") = true ->
   main_file_of host path = "main.json" /\
   main_data host fuel path =
     load_cfn_template host fuel (os_path_join path "main.json")) /\
  (os_path_exists host (os_path_join path "main.json") = false ->
   os_path_exists host (os_path_join path "main.yaml") = true ->
   main_file_of host path = "main.yaml" /\
   main_data host fuel path =
     load_cfn_template host fuel (os_path_join path "main.yaml")) /\
  (os_path_exists host (os_path_join path "main.json") = false ->
   os_path_exists host (os_path_join path "main.yaml") = false ->
   os_path_exists host (os_path_join path "main.yml") = true ->
   main_file_of host path = "main.yml" /\
   main_data host fuel path =
     load_cfn_template host fuel (os_path_join path "main.yml")) /\
  (os_path_exists host (os_path_join path "main.json") = false ->
   os_path_exists host (os_path_join path "main.yaml") = false ->
   os_path_exists host (os_path_join path "main.yml") = false ->
   main_file_of host path = "main.yml" /\
   main_data host fuel path = Ret (VDict [])) /\
  (os_path_isdir host path = true ->
   load_cfn_template host (S fuel) path =
   match main_data host fuel path with
   | Ret data =>
       match os_listdir host path with
       | Returned names =>
           merge_entries (load_cfn_template host fuel) path (main_file_of host path)
             names data
       | Raised e => Raise e
       end
   | Raise e => Raise e
   | Diverge => Diverge
   end).
Proof.
  unfold main_data, main_file_of, has_main_file. cbn [pick_main_file].
  repeat split; intros;
    repeat match goal with H : os_path_exists _ _ = _ |- _ => rewrite H; clear H end;
    try reflexivity.
  now apply load_dir.
Qed.

(** X3.  Only the main file that was taken is kept out of the second
    loop.  Another of the three main file names that is in the listing (a
    [main.yaml] beside [main.json]) is merged like any entry: the result
    has a key ["main"], with the template loaded from an entry of that
    key. *)
Theorem other_main_files_are_entries (fuel : nat) (path : string) (names : list string)
    (result : value) (c : string) :
  os_path_isdir host path = true ->
  os_listdir host path = Returned names ->
  load_cfn_template host (S fuel) path = Ret result ->
  In c ["main.json"; "main.yaml"; "main.yml"] ->
  c <> main_file_of host path ->
  In c names ->
  exists nm v,
    In nm names /\ nm <> main_file_of host path /\ key_of nm = "main" /\
    load_cfn_template host fuel (os_path_join path nm) = Ret v /\
    lookup "main" result = Some v.
Proof.
  intros Hd Hl Hr Hc Hne Hin.
  assert (Hm : merged (main_file_of host path) c = true).
  { unfold merged. apply String.eqb_neq in Hne. rewrite Hne.
    destruct Hc as [<-|[<-|[<-|[]]]]; reflexivity. }
  assert (Hk : key_of c = "main")
    by (destruct Hc as [<-|[<-|[<-|[]]]]; reflexivity).
  destruct (entry_for_found _ _ _ _ Hin Hm Hk) as (nm & E).
  pose proof (directory_lookup fuel path names result "main" Hd Hl Hr) as H.
  rewrite E in H. destruct H as (_ & H1 & _ & H2 & v & H3 & H4).
  destruct (entry_for_Some _ _ _ _ E) as (Hnm & _).
  exists nm, v. repeat split; assumption.
Qed.

(** X4.  Entries can only be merged into a mapping.  When the main file
    of a directory holds something else (a list, a string, a number,
    [None]), the first entry to be merged, once it is loaded, raises a
    [TypeError] at the item assignment. *)
Theorem entries_need_a_mapping (fuel : nat) (path : string) (names pre post : list string)
    (nm : string) (data v : value) :
  os_path_isdir host path = true ->
  os_listdir host path = Returned names ->
  main_data host fuel path = Ret data ->
  is_dict data = false ->
  names = pre ++ nm :: post ->
  (forall skipped, In skipped pre -> merged (main_file_of host path) skipped = false) ->
  merged (main_file_of host path) nm = true ->
  load_cfn_template host fuel (os_path_join path nm) = Ret v ->
  load_cfn_template host (S fuel) path = Raise (OtherException "TypeError").
Proof.
  intros Hd Hl Hm Hnd -> Hpre Hmg Hv.
  rewrite (load_dir host _ _ Hd), Hm, Hl, merge_entries_app.
  rewrite (merge_entries_none _ _ _ _ _ Hpre).
  cbn [merge_entries]. unfold merged in Hmg. apply andb_prop in Hmg.
  destruct Hmg as [M1 M2]. apply negb_true_iff in M1, M2.
  now rewrite M1, M2, Hv, (setitem_not_dict _ _ _ Hnd).
Qed.

(** X5.  A directory where every name listed is the main file or is
    hidden loads as its main data and nothing else: what the main file
    holds, a mapping or not, and the empty mapping when there is no main
    file. *)
Theorem directory_without_entries (fuel : nat) (path : string) (names : list string) :
  os_path_isdir host path = true ->
  os_listdir host path = Returned names ->
  (forall nm, In nm names -> nm = main_file_of host path \/ startswith nm "." = true) ->
  load_cfn_template host (S fuel) path = main_data host fuel path /\
  (has_main_file host path = false ->
   load_cfn_template host (S fuel) path = Ret (VDict [])).
Proof.
  intros Hd Hl Hnone.
  assert (H : load_cfn_template host (S fuel) path = main_data host fuel path).
  { rewrite (load_dir host _ _ Hd), Hl.
    destruct (main_data host fuel path) as [data|e|]; try reflexivity.
    apply merge_entries_none. intros nm Hin. unfold merged.
    destruct (Hnone nm Hin) as [-> | ->]; [now rewrite String.eqb_refl|].
    now rewrite andb_false_r. }
  split; [exact H|]. intros Hno. rewrite H. unfold main_data. now rewrite Hno.
Qed.

Lemma load_without_hidden (fuel : nat) (path : string) :
  load_cfn_template (without_hidden host) fuel path = load_cfn_template host fuel path.
Proof.
  revert path. induction fuel as [|fuel IH]; intros path; [reflexivity|].
  destruct (os_path_isdir host path) eqn:Hd.
  - rewrite (load_dir host _ _ Hd), (load_dir (without_hidden host) _ _ Hd).
    change (main_file_of (without_hidden host) path) with (main_file_of host path).
    assert (Hm : main_data (without_hidden host) fuel path = main_data host fuel path).
    { unfold main_data.
      change (has_main_file (without_hidden host) path) with (has_main_file host path).
      change (main_file_of (without_hidden host) path) with (main_file_of host path).
      destruct (has_main_file host path); [apply IH|reflexivity]. }
    rewrite Hm. destruct (main_data host fuel path) as [data|e|]; try reflexivity.
    cbn [without_hidden os_listdir].
    destruct (os_listdir host path) as [names|e]; [|reflexivity].
    rewrite (merge_entries_ext _ (load_cfn_template host fuel)) by (intros; apply IH).
    apply merge_entries_visible.
  - rewrite (load_file host _ _ Hd), (load_file (without_hidden host) _ _ Hd).
    reflexivity.
Qed.

(** X6.  Hidden entries (names that start with a dot) are never read:
    the outcome is the same on the machine where they are taken out of
    every listing, at every depth. *)
Theorem hidden_entries_are_never_read (fuel : nat) (path : string) :
  load_cfn_template (without_hidden host) fuel path = load_cfn_template host fuel path /\
  forall names,
    os_listdir host path = Returned names ->
    os_listdir (without_hidden host) path =
      Returned (filter (fun nm => negb (startswith nm ".")) names).
Proof.
  split; [apply load_without_hidden|].
  intros names Hl. cbn [without_hidden os_listdir]. now rewrite Hl.
Qed.

Lemma shallow_settles (d : nat) :
  forall path, shallow host d path ->
  forall fuel, d < fuel ->
    load_cfn_template host fuel path = load_cfn_template host (S d) path /\
    load_cfn_template host (S d) path <> Diverge.
Proof.
  induction d as [|d IH]; intros path Hs [|fuel] Hf; try lia.
  - cbn [shallow] in Hs. destruct (load_file_ends fuel path Hs) as (_ & H2).
    rewrite H2. split; [reflexivity|]. apply (load_file_ends 0 path Hs).
  - destruct (os_path_isdir host path) eqn:Hd.
    + cbn [shallow] in Hs. destruct (Hs Hd) as (Hmain & Hnames).
      assert (Hdeep : forall p, shallow host d p ->
                load_cfn_template host fuel p = load_cfn_template host (S d) p /\
                load_cfn_template host (S d) p <> Diverge)
        by (intros p Hp; apply IH; [exact Hp|lia]).
      rewrite !(load_dir host _ _ Hd).
      assert (Hm : main_data host fuel path = main_data host (S d) path /\
                   main_data host (S d) path <> Diverge).
      { unfold main_data.
        destruct (has_main_file host path); [|split; [reflexivity|discriminate]].
        apply Hdeep, Hmain, main_file_among. }
      destruct Hm as (Hm1 & Hm2). rewrite Hm1.
      destruct (main_data host (S d) path) as [data|e|];
        [|split; [reflexivity|discriminate]|contradiction].
      destruct (os_listdir host path) as [names|e] eqn:Hl;
        [|split; [reflexivity|discriminate]].
      split.
      * apply merge_entries_ext. intros nm Hin.
        apply (Hdeep _ (Hnames names nm eq_refl Hin)).
      * apply merge_entries_ends. intros nm Hin.
        apply (Hdeep _ (Hnames names nm eq_refl Hin)).
    + destruct (load_file_ends fuel path Hd) as (_ & H2).
      destruct (load_file_ends (S d) path Hd) as (H3 & H4).
      rewrite H2, H4. split; [reflexivity|]. rewrite <- H4. exact H3.
Qed.

(** X7.  On a tree whose directories are nested at most [d] deep,
    [load_cfn_template] ends: with fuel [d + 1] the run does not run out of
    fuel, and any larger fuel gives the same outcome. *)
Theorem load_ends_on_shallow_trees (d fuel : nat) (path : string) :
  shallow host d path ->
  d < fuel ->
  load_cfn_template host fuel path = load_cfn_template host (S d) path /\
  load_cfn_template host (S d) path <> Diverge.
Proof.
  intros Hs Hf. now apply shallow_settles.
Qed.

(** X8.  No error is swallowed.  On a directory, the error of loading the
    main file, the error of [os.listdir], and the error of loading an entry
    (the entries merged before it having loaded) are each the error of the
    whole load, whatever is listed after the failing entry. *)
Theorem first_error_stops_the_load (fuel : nat) (path : string) :
  os_path_isdir host path = true ->
  (forall e, main_data host fuel path = Raise e ->
             load_cfn_template host (S fuel) path = Raise e) /\
  (forall data e, main_data host fuel path = Ret data ->
                  os_listdir host path = Raised e ->
                  load_cfn_template host (S fuel) path = Raise e) /\
  (forall data names pre nm post e,
     main_data host fuel path = Ret data ->
     is_dict data = true ->
     os_listdir host path = Returned names ->
     names = pre ++ nm :: post ->
     (forall before, In before pre -> merged (main_file_of host path) before = true ->
                     exists v, load_cfn_template host fuel (os_path_join path before) = Ret v) ->
     merged (main_file_of host path) nm = true ->
     load_cfn_template host fuel (os_path_join path nm) = Raise e ->
     load_cfn_template host (S fuel) path = Raise e).
Proof.
  intros Hd. rewrite (load_dir host _ _ Hd). repeat split.
  - intros e ->. reflexivity.
  - intros data e -> ->. reflexivity.
  - intros data names pre nm post e -> Hdict -> -> Hpre Hmg He.
    rewrite merge_entries_app.
    destruct (merge_entries_dict _ _ _ _ _ Hdict Hpre) as (data' & -> & _).
    cbn [merge_entries]. unfold merged in Hmg. apply andb_prop in Hmg.
    destruct Hmg as [M1 M2]. apply negb_true_iff in M1, M2.
    now rewrite M1, M2, He.
Qed.

(** X9.  A path that is not a directory is opened and parsed: by
    [yaml.safe_load] when the path ends in [.yaml] or [.yml], by
    [json.load] in every other case (any other extension, or none).  The
    outcome is the parser's; an error of [open] is raised as it is. *)
Theorem parser_follows_the_extension (fuel : nat) (path : string) :
  os_path_isdir host path = false ->
  match open_r host path with
  | Returned f =>
      ((exists stem, path = (stem ++ ".yaml")%string \/ path = (stem ++ ".yml")%string) ->
       load_cfn_template host (S fuel) path = of_outcome (yaml_safe_load host f)) /\
      (~ (exists stem, path = (stem ++ ".yaml")%string \/ path = (stem ++ ".yml")%string) ->
       load_cfn_template host (S fuel) path = of_outcome (json_load host f))
  | Raised e => load_cfn_template host (S fuel) path = Raise e
  end.
Proof.
  intros Hd. rewrite (load_file host _ _ Hd).
  destruct (open_r host path) as [f|e]; [|reflexivity]. split.
  - intros (stem & [H|H]).
    + rewrite (proj2 (endswith_iff path ".yaml")); [reflexivity|now exists stem].
    + rewrite (proj2 (endswith_iff path ".yml")); [|now exists stem].
      now rewrite orb_true_r.
  - intros Hno. destruct (endswith path ".yaml") eqn:E1.
    + apply endswith_iff in E1. destruct E1 as (stem & E1).
      contradiction Hno. exists stem. now left.
    + destruct (endswith path ".yml") eqn:E2; [|reflexivity].
      apply endswith_iff in E2. destruct E2 as (stem & E2).
      contradiction Hno. exists stem. now right.
Qed.
End TemplateTheorems.

Lemma key_of_stem (stem rest : string) :
  contains "."%char stem = false ->
  key_of (stem ++ String "."%char rest)%string = stem /\ key_of stem = stem.
Proof.
  induction stem as [|c stem IH]; intros H.
  - split; reflexivity.
  - cbn [contains] in H. apply orb_false_elim in H. destruct H as [H1 H2].
    destruct (IH H2) as (IH1 & IH2).
    cbn [append]. rewrite !key_of_cons, H1, IH1, IH2. now split.
Qed.

(** X10.  The key of an entry is its name up to the first dot: when
    [stem] has no dot, [stem.rest] and [stem] both have the key [stem], so
    a file [a.json], a file [a.b.yaml] and a directory [a] land on the same
    key; the key has no dot. *)
Theorem entry_key_is_name_up_to_first_dot (stem rest : string) :
  contains "."%char stem = false ->
  key_of (stem ++ String "."%char rest)%string = stem /\
  key_of stem = stem /\
  contains "."%char (key_of (stem ++ String "."%char rest)%string) = false.
Proof.
  intros H. destruct (key_of_stem stem rest H) as (H1 & H2).
  split; [exact H1|]. split; [exact H2|]. now rewrite H1.
Qed.

(** The theorems on the two machines. *)

Lemma directory_entries_by_key_witness :
  lookup "main"
    (VDict
       [(VStr "Resources",
         VDict [(VStr "Bucket", VDict [(VStr "Type", VStr "AWS::S3::Bucket")]);
                (VStr "Queue", VInt 7)]);
        (VStr "main", VDict [(VStr "Description", VStr "demo")]);
        (VStr "Outputs", VList [])]) =
  Some (VDict [(VStr "Description", VStr "demo")]) /\
  load_cfn_template stack_machine 2 "stack/main.yaml" =
    Ret (VDict [(VStr "Description", VStr "demo")]).
Proof.
  pose proof (directory_entries_by_key stack_machine 2 "stack"
                ["Resources"; ".git"; "main.yaml"; "Outputs.json"; "main.json"]
                _ "main" eq_refl eq_refl eq_refl) as H.
  vm_compute in H. destruct H as (_ & _ & _ & _ & v & H1 & H2).
  inversion H1; subst. split; [exact H2|reflexivity].
Defined.

Lemma other_main_files_are_entries_witness :
  main_file_of stack_machine "stack" = "main.json" /\
  exists nm v,
    In nm ["Resources"; ".git"; "main.yaml"; "Outputs.json"; "main.json"] /\
    nm <> "main.json" /\ key_of nm = "main" /\
    load_cfn_template stack_machine 2 (os_path_join "stack" nm) = Ret v /\
    lookup "main"
      (VDict
         [(VStr "Resources",
           VDict [(VStr "Bucket", VDict [(VStr "Type", VStr "AWS::S3::Bucket")]);
                  (VStr "Queue", VInt 7)]);
          (VStr "main", VDict [(VStr "Description", VStr "demo")]);
          (VStr "Outputs", VList [])]) = Some v.
Proof.
  split; [reflexivity|].
  refine (other_main_files_are_entries stack_machine 2 "stack" _ _ "main.yaml"
            eq_refl eq_refl eq_refl _ _ _).
  - right. now left.
  - discriminate.
  - right. right. now left.
Defined.

Lemma entries_need_a_mapping_witness :
  main_data odd_machine 1 "listy" = Ret (VList []) /\
  load_cfn_template odd_machine 2 "listy" = Raise (OtherException "TypeError").
Proof.
  split; [reflexivity|].
  refine (entries_need_a_mapping odd_machine 1 "listy" ["main.json"; "a.json"]
            ["main.json"] [] "a.json" (VList []) (VInt 7)
            eq_refl eq_refl eq_refl eq_refl eq_refl _ eq_refl eq_refl).
  intros skipped [<-|[]]. reflexivity.
Defined.

Lemma directory_without_entries_witness :
  load_cfn_template odd_machine 1 "bare" = main_data odd_machine 0 "bare" /\
  (has_main_file odd_machine "bare" = false ->
   load_cfn_template odd_machine 1 "bare" = Ret (VDict [])).
Proof.
  refine (directory_without_entries odd_machine 0 "bare" [".keep"] eq_refl eq_refl _).
  intros nm [<-|[]]. now right.
Defined.

Lemma load_ends_on_shallow_trees_witness :
  load_cfn_template stack_machine 7 "stack" = load_cfn_template stack_machine 3 "stack" /\
  load_cfn_template stack_machine 3 "stack" <> Diverge.
Proof.
  refine (load_ends_on_shallow_trees stack_machine 2 7 "stack" _ ltac:(lia)).
  intros _. split.
  - intros c [<-|[<-|[<-|[]]]]; intros Hd; discriminate Hd.
  - intros names nm Hl Hin. vm_compute in Hl. inversion Hl; subst names.
    destruct Hin as [<-|[<-|[<-|[<-|[<-|[]]]]]];
      try (intros Hd; discriminate Hd);
      (intros _; split;
       [intros c [<-|[<-|[<-|[]]]]; reflexivity
       |intros names nm Hl' Hin; vm_compute in Hl'; inversion Hl'; subst names;
        repeat (destruct Hin as [<-|Hin]; [reflexivity|]); destruct Hin]).
Defined.

Lemma first_error_stops_the_load_witness :
  load_cfn_template odd_machine 1 "broken/bad.json" = Raise (OtherException "ValueError") /\
  load_cfn_template odd_machine 2 "broken" = Raise (OtherException "ValueError").
Proof.
  split; [reflexivity|].
  destruct (first_error_stops_the_load odd_machine 1 "broken" eq_refl) as (_ & _ & H).
  refine (H (VDict []) ["ok.json"; "bad.json"; "never.json"] ["ok.json"] "bad.json"
            ["never.json"] _ eq_refl eq_refl eq_refl eq_refl _ eq_refl eq_refl).
  intros before [<-|[]] _. now exists (VInt 7).
Defined.

Lemma parser_follows_the_extension_witness :
  load_cfn_template stack_machine 1 "stack/Resources/Bucket.yaml" =
    of_outcome (yaml_safe_load stack_machine "Type: AWS::S3::Bucket") /\
  load_cfn_template stack_machine 1 "stack/Outputs.json" =
    of_outcome (json_load stack_machine "[]") /\
  load_cfn_template stack_machine 1 "stack/nowhere.json" =
    Raise (OtherException "IOError").
Proof.
  pose proof (parser_follows_the_extension stack_machine 0
                "stack/Resources/Bucket.yaml" eq_refl) as H1.
  pose proof (parser_follows_the_extension stack_machine 0
                "stack/Outputs.json" eq_refl) as H2.
  pose proof (parser_follows_the_extension stack_machine 0
                "stack/nowhere.json" eq_refl) as H3.
  change (open_r stack_machine "stack/Resources/Bucket.yaml")
    with (@Returned string "Type: AWS::S3::Bucket") in H1.
  change (open_r stack_machine "stack/Outputs.json") with (@Returned string "[]") in H2.
  change (open_r stack_machine "stack/nowhere.json")
    with (@Raised string (OtherException "IOError")) in H3.
  cbv iota beta in H1, H2, H3.
  split; [|split; [|exact H3]].
  - apply (proj1 H1). exists "stack/Resources/Bucket". now left.
  - apply (proj2 H2). intros (stem & [H|H]).
    + assert (E : endswith "stack/Outputs.json" ".yaml" = true)
        by (apply endswith_iff; now exists stem).
      discriminate E.
    + assert (E : endswith "stack/Outputs.json" ".yml" = true)
        by (apply endswith_iff; now exists stem).
      discriminate E.
Defined.

Lemma entry_key_is_name_up_to_first_dot_witness :
  key_of "Resources.yaml" = "Resources" /\
  key_of "Resources" = "Resources" /\
  contains "."%char (key_of "Resources.yaml") = false.
Proof.
  exact (entry_key_is_name_up_to_first_dot "Resources" "yaml" eq_refl).
Defined.

(** ** More on the polling loop *)

Lemma sleeps_app (a b : list event) : sleeps (a ++ b) = sleeps a ++ sleeps b.
Proof.
  induction a as [|ev t IH]; [reflexivity|].
  destruct ev; simpl; now rewrite IH.
Qed.

Lemma beats_app (a b : list event) : beats (a ++ b) = beats a ++ beats b.
Proof.
  induction a as [|ev t IH]; [reflexivity|].
  destruct ev; simpl; now rewrite IH.
Qed.

Section Sampling.
Context {St : Type} (ops : ResourceOps St).

(** How the world after a run of the loop on [obj] relates to the world
    before: [m] sleeps of [sleep_time] seconds and [k] calls of
    [obj.update()] have been made, and nothing else has been called,
    changed, connected to or cleaned up. *)
Definition sampling (obj : oid) (sleep_time : Z) (m k : nat) (w w' : World St) : Prop :=
  sleeps (trace w') = sleeps (trace w) ++ repeat sleep_time m /\
  calls (trace w') = calls (trace w) ++ repeat (obj, m_update) k /\
  (forall o, o <> obj -> store w' o = store w o) /\
  connections (trace w') = connections (trace w) /\
  attempts (trace w') = attempts (trace w) /\
  (forall j, net w' j = net w j).

Lemma sampling_refl (obj : oid) (sleep_time : Z) (w : World St) :
  sampling obj sleep_time 0 0 w w.
Proof.
  unfold sampling. cbn [repeat]. rewrite !app_nil_r. repeat split.
Qed.

Lemma sampling_trans (obj : oid) (sleep_time : Z) (m1 k1 m2 k2 : nat)
    (w w1 w2 : World St) :
  sampling obj sleep_time m1 k1 w w1 -> sampling obj sleep_time m2 k2 w1 w2 ->
  sampling obj sleep_time (m1 + m2) (k1 + k2) w w2.
Proof.
  intros (A1 & A2 & A3 & A4 & A5 & A6) (B1 & B2 & B3 & B4 & B5 & B6).
  unfold sampling. repeat split.
  - now rewrite B1, A1, <- app_assoc, repeat_app.
  - now rewrite B2, A2, <- app_assoc, repeat_app.
  - intros o Ho. now rewrite B3, A3.
  - now rewrite B4.
  - now rewrite B5.
  - intros j. now rewrite B6.
Qed.

Ltac sampling_now :=
  unfold sampling;
  repeat (progress (unfold emit; cbn [time_time snd set_obj store clock net trace]));
  rewrite ?sleeps_app, ?calls_app, ?attempts_app, ?connections_app;
  cbn [sleeps calls attempts attempt_of connections app repeat];
  rewrite ?app_nil_r;
  repeat split; try reflexivity;
  try (let o := fresh "o" in let Ho := fresh "Ho" in
       intros o Ho; apply Nat.eqb_neq in Ho; now rewrite Ho).

Lemma sampling_round (obj : oid) (c : string) (max_time : option Z)
    (sleep_time : Z) (w : World St) :
  sampling obj sleep_time 1 1 w (after_round ops obj c max_time sleep_time w).
Proof.
  unfold after_round. destruct max_time as [mt|]; sampling_now.
Qed.

Lemma sampling_enter (obj : oid) (status : string) (via : option (list string))
    (timeout : option Z) (sleep_time : Z) (w : World St) :
  exists w0,
    sampling obj sleep_time 0 0 w w0 /\
    store w0 obj = store w obj /\
    (forall fuel,
       wait_for_status ops fuel obj status via timeout sleep_time w =
       wait_for_status_loop ops fuel obj status via (deadline timeout w) sleep_time w0).
Proof.
  unfold wait_for_status, set_max_time, deadline.
  destruct timeout as [t|].
  - eexists. split; [|split; [|intros fuel; unfold bind at 1; cbn [log];
                       unfold bind at 1; unfold bind at 1; cbn [time_time ret];
                       cbn [clock emit]; reflexivity]].
    + sampling_now.
    + reflexivity.
  - eexists. split; [|split; [|intros fuel; unfold bind at 1; cbn [log];
                       unfold bind at 1; cbn [ret]; reflexivity]].
    + sampling_now.
    + reflexivity.
Qed.

(** Every run of the loop: the sleeps and the calls it makes. *)
Lemma loop_sampling (fuel : nat) (obj : oid) (status : string)
    (via : option (list string)) (max_time : option Z) (sleep_time : Z)
    (w : World St) :
  exists m k,
    sampling obj sleep_time m k w
      (snd (wait_for_status_loop ops fuel obj status via max_time sleep_time w)) /\
    match fst (wait_for_status_loop ops fuel obj status via max_time sleep_time w) with
    | Ret _ => k = S m /\ m < fuel
    | Raise e => m < fuel /\ (k = S m \/ k = m /\ e = AttributeError "update")
    | Diverge => m = fuel /\ k = fuel
    end.
Proof.
  revert w. induction fuel as [|fuel IH]; intros w.
  - exists 0, 0. split; [apply sampling_refl|now split].
  - destruct (loop_cases ops obj status via max_time w)
      as [(e & Hs)|[Hs|[(v & c & -> & Hs & Hne & Hout)|[(c & mt & -> & Hs & Htr & Hr)
         |(c & Hs & Htr & Hr)]]]].
    + rewrite (loop_sample_raises ops _ _ _ _ _ _ _ _ Hs). cbn [fst snd].
      destruct (has_update ops (store w obj)) eqn:Hu.
      * exists 0, 1. split; [sampling_now|]. split; [lia|now left].
      * exists 0, 0. split; [apply sampling_refl|]. split; [lia|right].
        split; [reflexivity|]. unfold sampled in Hs. rewrite Hu in Hs. now inversion Hs.
    + rewrite (loop_done ops _ _ _ _ _ _ _ Hs). cbn [fst snd].
      exists 0, 1. split; [sampling_now|]. split; [reflexivity|lia].
    + rewrite (loop_unexpected ops _ _ _ _ _ _ _ _ Hs Hne Hout). cbn [fst snd].
      exists 0, 1. split; [sampling_now|]. split; [lia|now left].
    + rewrite (loop_timed_out ops _ _ _ _ _ _ _ _ Hs Htr Hr). cbn [fst snd].
      exists 0, 1. split; [sampling_now|]. split; [lia|now left].
    + rewrite (loop_round ops _ _ _ _ _ _ _ _ Hs Htr Hr).
      destruct (IH (after_round ops obj c max_time sleep_time w)) as (m & k & P & Hres).
      exists (1 + m), (1 + k). split.
      * exact (sampling_trans _ _ _ _ _ _ _ _ _ (sampling_round obj c max_time sleep_time w) P).
      * destruct (fst (wait_for_status_loop ops fuel obj status via max_time sleep_time
                        (after_round ops obj c max_time sleep_time w))).
        -- destruct Hres. split; lia.
        -- destruct Hres as (H1 & [H2|(H2 & H3)]); (split; [lia|]);
           [left; lia|right; split; [lia|exact H3]].
        -- destruct Hres. split; lia.
Qed.

Lemma wait_for_status_sampling (fuel : nat) (obj : oid) (status : string)
    (via : option (list string)) (timeout : option Z) (sleep_time : Z)
    (w : World St) :
  exists m k,
    sampling obj sleep_time m k w
      (snd (wait_for_status ops fuel obj status via timeout sleep_time w)) /\
    match fst (wait_for_status ops fuel obj status via timeout sleep_time w) with
    | Ret _ => k = S m /\ m < fuel
    | Raise e => m < fuel /\ (k = S m \/ k = m /\ e = AttributeError "update")
    | Diverge => m = fuel /\ k = fuel
    end.
Proof.
  destruct (sampling_enter obj status via timeout sleep_time w) as (w0 & P0 & _ & Hrun).
  rewrite Hrun.
  destruct (loop_sampling fuel obj status via (deadline timeout w) sleep_time w0)
    as (m & k & P & Hres).
  exists m, k. split; [|exact Hres].
  exact (sampling_trans _ _ _ _ _ _ _ _ _ P0 P).
Qed.

(** Every run of the loop: what its outcome says about the statuses. *)
Lemma loop_sound (fuel : nat) (obj : oid) (status : string)
    (via : option (list string)) (max_time : option Z) (sleep_time : Z)
    (w : World St) :
  match fst (wait_for_status_loop ops fuel obj status via max_time sleep_time w) with
  | Ret b =>
      b = true /\
      exists n, n < fuel /\ status_at ops (store w obj) n = Ret status /\
                forall k, k < n -> exists c,
                    status_at ops (store w obj) k = Ret c /\ in_transit status via c = true
  | Raise e =>
      (exists v n c,
         via = Some v /\ status_at ops (store w obj) n = Ret c /\ c <> status /\
         not_in c v = true /\
         e = RuntimeError ("Unexpected status: " ++ status)%string) \/
      (exists mt n c,
         max_time = Some mt /\ status_at ops (store w obj) n = Ret c /\
         in_transit status via c = true /\ e = RuntimeError "Operation timed out") \/
      (exists n, status_at ops (store w obj) n = Raise e)
  | Diverge =>
      forall k, k < fuel -> exists c,
          status_at ops (store w obj) k = Ret c /\ in_transit status via c = true
  end.
Proof.
  revert w. induction fuel as [|fuel IH]; intros w.
  - cbn. intros k Hk. lia.
  - destruct (loop_cases ops obj status via max_time w)
      as [(e & Hs)|[Hs|[(v & c & -> & Hs & Hne & Hout)|[(c & mt & -> & Hs & Htr & Hr)
         |(c & Hs & Htr & Hr)]]]].
    + rewrite (loop_sample_raises ops _ _ _ _ _ _ _ _ Hs). cbn [fst].
      right. right. now exists 0.
    + rewrite (loop_done ops _ _ _ _ _ _ _ Hs). cbn [fst].
      split; [reflexivity|]. exists 0. split; [lia|]. split; [exact Hs|]. intros k Hk. lia.
    + rewrite (loop_unexpected ops _ _ _ _ _ _ _ _ Hs Hne Hout). cbn [fst].
      left. exists v, 0, c. apply String.eqb_neq in Hne. now repeat split.
    + rewrite (loop_timed_out ops _ _ _ _ _ _ _ _ Hs Htr Hr). cbn [fst].
      right. left. exists mt, 0, c. now repeat split.
    + rewrite (loop_round ops _ _ _ _ _ _ _ _ Hs Htr Hr).
      specialize (IH (after_round ops obj c max_time sleep_time w)).
      pose proof (polled_round ops obj c max_time sleep_time w
                    (sampled_has_update ops _ _ Hs)) as (A1 & _).
      assert (Hshift : forall k,
                status_at ops (store (after_round ops obj c max_time sleep_time w) obj) k =
                status_at ops (store w obj) (S k)).
      { intros k. unfold status_at. rewrite A1. reflexivity. }
      assert (Hfirst : forall n,
                (forall k, k < n -> exists c',
                    status_at ops (store (after_round ops obj c max_time sleep_time w) obj) k
                      = Ret c' /\ in_transit status via c' = true) ->
                forall k, k < S n -> exists c',
                    status_at ops (store w obj) k = Ret c' /\
                    in_transit status via c' = true).
      { intros n Hn [|k] Hk; [now exists c|].
        destruct (Hn k ltac:(lia)) as (c' & Hc' & Ht'). exists c'.
        rewrite <- Hshift. now split. }
      destruct (fst (wait_for_status_loop ops fuel obj status via max_time sleep_time
                      (after_round ops obj c max_time sleep_time w))) as [b|e|].
      * destruct IH as (Hb & n & Hn & Hst & Hbefore). split; [exact Hb|].
        exists (S n). split; [lia|]. split; [now rewrite <- Hshift|]. now apply Hfirst.
      * destruct IH as [(v & n & c' & H1 & H2 & H3)|[(mt & n & c' & H1 & H2 & H3)|(n & H1)]].
        -- left. exists v, (S n), c'. rewrite <- Hshift. now split.
        -- right. left. exists mt, (S n), c'. rewrite <- Hshift. now split.
        -- right. right. exists (S n). now rewrite <- Hshift.
      * now apply Hfirst.
Qed.

Lemma wait_for_status_verdict (fuel : nat) (obj : oid) (status : string)
    (via : option (list string)) (timeout : option Z) (sleep_time : Z)
    (w : World St) :
  match fst (wait_for_status ops fuel obj status via timeout sleep_time w) with
  | Ret b =>
      b = true /\
      exists n, n < fuel /\ status_at ops (store w obj) n = Ret status /\
                forall k, k < n -> exists c,
                    status_at ops (store w obj) k = Ret c /\ in_transit status via c = true
  | Raise e =>
      (exists v n c,
         via = Some v /\ status_at ops (store w obj) n = Ret c /\ c <> status /\
         not_in c v = true /\
         e = RuntimeError ("Unexpected status: " ++ status)%string) \/
      (exists t n c,
         timeout = Some t /\ status_at ops (store w obj) n = Ret c /\
         in_transit status via c = true /\ e = RuntimeError "Operation timed out") \/
      (exists n, status_at ops (store w obj) n = Raise e)
  | Diverge =>
      forall k, k < fuel -> exists c,
          status_at ops (store w obj) k = Ret c /\ in_transit status via c = true
  end.
Proof.
  destruct (sampling_enter obj status via timeout sleep_time w) as (w0 & _ & Hst & Hrun).
  rewrite Hrun.
  pose proof (loop_sound fuel obj status via (deadline timeout w) sleep_time w0) as H.
  rewrite Hst in H.
  destruct (fst (wait_for_status_loop ops fuel obj status via (deadline timeout w)
                  sleep_time w0)) as [b|e|]; try exact H.
  destruct H as [H|[(mt & n & c & H1 & H2)|H]]; [now left| |now right; right].
  right. left. destruct timeout as [t|]; [|discriminate]. now exists t, n, c.
Qed.

(** X11.  What the outcome of [wait_for_status] says.  It returns nothing
    but [True], and only when a sample was the target and every sample
    before it a transit status.  It raises nothing but the
    unexpected-status error (when [via] is given and a sample is neither
    the target nor in it), the timed-out error (when a timeout is given),
    and what [obj.update()] raised or the [AttributeError] of a missing
    [update].  It goes on only as long as the samples are transit
    statuses.  ([time.sleep] takes no negative
    argument.) *)
Theorem wait_for_status_sound (fuel : nat) (obj : oid) (status : string)
    (via : option (list string)) (timeout : option Z) (sleep_time : Z)
    (w : World St) :
  (0 <= sleep_time)%Z ->
  match fst (wait_for_status ops fuel obj status via timeout sleep_time w) with
  | Ret b =>
      b = true /\
      exists n, n < fuel /\ status_at ops (store w obj) n = Ret status /\
                forall k, k < n -> exists c,
                    status_at ops (store w obj) k = Ret c /\ in_transit status via c = true
  | Raise e =>
      (exists v n c,
         via = Some v /\ status_at ops (store w obj) n = Ret c /\ c <> status /\
         not_in c v = true /\
         e = RuntimeError ("Unexpected status: " ++ status)%string) \/
      (exists t n c,
         timeout = Some t /\ status_at ops (store w obj) n = Ret c /\
         in_transit status via c = true /\ e = RuntimeError "Operation timed out") \/
      (exists n, status_at ops (store w obj) n = Raise e)
  | Diverge =>
      forall k, k < fuel -> exists c,
          status_at ops (store w obj) k = Ret c /\ in_transit status via c = true
  end.
Proof.
  intros _. apply wait_for_status_verdict.
Qed.

(** X13.  What [wait_for_status] leaves alone.  Whatever the outcome, the
    only calls it makes are calls of [obj.update()], at most one more than
    the fuel (the rounds) allows; no other object is changed, no connection
    is attempted, no cleanup is started and the network is as it was. *)
Theorem wait_for_status_touches_only_obj (fuel : nat) (obj : oid) (status : string)
    (via : option (list string)) (timeout : option Z) (sleep_time : Z)
    (w : World St) :
  (exists k, k <= fuel /\
     calls (trace (snd (wait_for_status ops fuel obj status via timeout sleep_time w))) =
       calls (trace w) ++ repeat (obj, m_update) k) /\
  (forall o, o <> obj ->
     store (snd (wait_for_status ops fuel obj status via timeout sleep_time w)) o =
     store w o) /\
  connections (trace (snd (wait_for_status ops fuel obj status via timeout sleep_time w))) =
    connections (trace w) /\
  attempts (trace (snd (wait_for_status ops fuel obj status via timeout sleep_time w))) =
    attempts (trace w) /\
  (forall j,
     net (snd (wait_for_status ops fuel obj status via timeout sleep_time w)) j = net w j).
Proof.
  destruct (wait_for_status_sampling fuel obj status via timeout sleep_time w)
    as (m & k & (P1 & P2 & P3 & P4 & P5 & P6) & Hres).
  split; [|now repeat split].
  exists k. split; [|exact P2].
  destruct (fst (wait_for_status ops fuel obj status via timeout sleep_time w)).
  - destruct Hres. lia.
  - destruct Hres as (H1 & [H2|(H2 & _)]); lia.
  - destruct Hres. lia.
Qed.
(** The world in which the loop of [wait_for_status] starts. *)
Definition entered (obj : oid) (status : string) (timeout : option Z) (w : World St)
    : World St :=
  let w1 := emit (ELog DEBUG "waiting for %s to reach status %r"
                    [AObj obj; AStr status] None) w in
  match timeout with
  | Some _ => snd (time_time w1)
  | None => w1
  end.

Lemma wait_for_status_entered (fuel : nat) (obj : oid) (status : string)
    (via : option (list string)) (timeout : option Z) (sleep_time : Z) (w : World St) :
  wait_for_status ops fuel obj status via timeout sleep_time w =
  wait_for_status_loop ops fuel obj status via (deadline timeout w) sleep_time
    (entered obj status timeout w).
Proof.
  unfold wait_for_status, set_max_time, deadline, entered.
  destruct timeout as [t|].
  - unfold bind at 1. cbn [log]. unfold bind at 1. unfold bind at 1.
    cbn [time_time ret]. cbn [clock emit]. reflexivity.
  - unfold bind at 1. cbn [log]. unfold bind at 1. cbn [ret]. reflexivity.
Qed.

(** What a first round says when no transit status can keep the loop
    going. *)
Definition first_verdict (status : string) (via : option (list string))
    (sample : res string) : res bool :=
  match sample with
  | Ret c =>
      if String.eqb c status then Ret true
      else if match via with
              | Some v => not_in c v
              | None => false
              end
      then Raise (RuntimeError ("Unexpected status: " ++ status))
      else Raise (RuntimeError "Operation timed out")
  | Raise e => Raise e
  | Diverge => Diverge
  end.

Lemma loop_single_round (fuel : nat) (obj : oid) (status : string)
    (via : option (list string)) (max_time : option Z) (sleep_time : Z)
    (w : World St) :
  (forall c, in_transit status via c = true -> reached max_time (clock w 0) = true) ->
  exists w',
    wait_for_status_loop ops (S fuel) obj status via max_time sleep_time w =
      (first_verdict status via (sampled ops (store w obj)), w') /\
    sleeps (trace w') = sleeps (trace w) /\
    calls (trace w') =
      calls (trace w) ++
      (if has_update ops (store w obj) then [(obj, m_update)] else []).
Proof.
  intros Hstop.
  destruct (loop_cases ops obj status via max_time w)
    as [(e & Hs)|[Hs|[(v & c & -> & Hs & Hne & Hout)|[(c & mt & -> & Hs & Htr & Hr)
       |(c & Hs & Htr & Hr)]]]].
  - rewrite (loop_sample_raises ops _ _ _ _ _ _ _ _ Hs), Hs. cbn [first_verdict].
    eexists. split; [reflexivity|].
    destruct (has_update ops (store w obj)); [|now rewrite app_nil_r].
    unfold emit. cbn [set_obj trace]. rewrite sleeps_app, calls_app. cbn [sleeps calls].
    now rewrite app_nil_r.
  - rewrite (loop_done ops _ _ _ _ _ _ _ Hs), Hs, (sampled_has_update ops _ _ Hs).
    cbn [first_verdict]. rewrite String.eqb_refl.
    eexists. split; [reflexivity|].
    unfold emit. cbn [set_obj trace]. rewrite !sleeps_app, !calls_app. cbn [sleeps calls].
    now rewrite !app_nil_r.
  - rewrite (loop_unexpected ops _ _ _ _ _ _ _ _ Hs Hne Hout), Hs,
      (sampled_has_update ops _ _ Hs).
    cbn [first_verdict]. rewrite Hne, Hout.
    eexists. split; [reflexivity|].
    unfold emit. cbn [set_obj trace]. rewrite !sleeps_app, !calls_app. cbn [sleeps calls].
    now rewrite !app_nil_r.
  - rewrite (loop_timed_out ops _ _ _ _ _ _ _ _ Hs Htr Hr), Hs,
      (sampled_has_update ops _ _ Hs).
    cbn [first_verdict]. destruct (in_transit_inv _ _ _ Htr) as (Hne & Hvia).
    rewrite Hne, Hvia.
    eexists. split; [reflexivity|].
    repeat (progress (unfold emit; cbn [time_time snd set_obj trace])).
    rewrite !sleeps_app, !calls_app. cbn [sleeps calls].
    now rewrite !app_nil_r.
  - rewrite (Hstop c Htr) in Hr. discriminate.
Qed.

(** X14.  An empty [via] allows no status on the way.  With [via=[]]
    (which is not [None]) the first sample settles the call: [True] when it
    is the target, the unexpected-status error when it is anything else,
    and the error of [obj.update()] when that fails; one call of
    [update()] is made, the function never sleeps and, whatever [timeout]
    is, never raises the timed-out error. *)
Theorem empty_via_settles_at_first_sample (fuel : nat) (obj : oid) (status : string)
    (timeout : option Z) (sleep_time : Z) (w : World St) :
  exists w',
    wait_for_status ops (S fuel) obj status (Some []) timeout sleep_time w =
      (match sampled ops (store w obj) with
       | Ret c =>
           if String.eqb c status then Ret true
           else Raise (RuntimeError ("Unexpected status: " ++ status))
       | Raise e => Raise e
       | Diverge => Diverge
       end, w') /\
    sleeps (trace w') = sleeps (trace w) /\
    calls (trace w') =
      calls (trace w) ++
      (if has_update ops (store w obj) then [(obj, m_update)] else []).
Proof.
  rewrite wait_for_status_entered.
  destruct (loop_single_round fuel obj status (Some []) (deadline timeout w) sleep_time
              (entered obj status timeout w)) as (w' & Hrun & Hsl & Hcalls).
  { intros c Htr. unfold in_transit in Htr. cbn in Htr. now rewrite andb_false_r in Htr. }
  exists w'. split; [|split].
  - rewrite Hrun. f_equal.
    replace (store (entered obj status timeout w) obj) with (store w obj)
      by (unfold entered; now destruct timeout).
    unfold first_verdict. now destruct (sampled ops (store w obj)) as [c|e|].
  - rewrite Hsl. unfold entered.
    destruct timeout; repeat (progress (unfold emit; cbn [time_time snd trace]));
      rewrite !sleeps_app; cbn [sleeps]; now rewrite !app_nil_r.
  - rewrite Hcalls.
    replace (store (entered obj status timeout w) obj) with (store w obj)
      by (unfold entered; now destruct timeout).
    f_equal. unfold entered.
    destruct timeout; repeat (progress (unfold emit; cbn [time_time snd trace]));
      rewrite !calls_app; cbn [calls]; now rewrite !app_nil_r.
Qed.

(** X15.  A timeout of zero, or less, still gives the object one sample.
    When the clock does not run backwards, [wait_for_status] with such a
    timeout makes exactly one round: [True] when the first sample is the
    target, the unexpected-status error when [via] is given and the sample
    is outside it, the timed-out error otherwise; it never sleeps. *)
Theorem expired_timeout_samples_once (fuel : nat) (obj : oid) (status : string)
    (via : option (list string)) (t : Z) (sleep_time : Z) (w : World St) :
  (t <= 0)%Z ->
  (clock w 0 <= clock w 1)%Z ->
  exists w',
    wait_for_status ops (S fuel) obj status via (Some t) sleep_time w =
      (match sampled ops (store w obj) with
       | Ret c =>
           if String.eqb c status then Ret true
           else if match via with
                   | Some v => not_in c v
                   | None => false
                   end
           then Raise (RuntimeError ("Unexpected status: " ++ status))
           else Raise (RuntimeError "Operation timed out")
       | Raise e => Raise e
       | Diverge => Diverge
       end, w') /\
    sleeps (trace w') = sleeps (trace w) /\
    calls (trace w') =
      calls (trace w) ++
      (if has_update ops (store w obj) then [(obj, m_update)] else []).
Proof.
  intros Ht Hclock. rewrite wait_for_status_entered.
  destruct (loop_single_round fuel obj status via (deadline (Some t) w) sleep_time
              (entered obj status (Some t) w)) as (w' & Hrun & Hsl & Hcalls).
  { intros c _. cbn. apply Z.leb_le. lia. }
  exists w'. split; [|split].
  - rewrite Hrun. reflexivity.
  - rewrite Hsl. unfold entered.
    repeat (progress (unfold emit; cbn [time_time snd trace])).
    rewrite !sleeps_app. cbn [sleeps]. now rewrite !app_nil_r.
  - rewrite Hcalls. f_equal. unfold entered.
    repeat (progress (unfold emit; cbn [time_time snd trace])).
    rewrite !calls_app. cbn [calls]. now rewrite !app_nil_r.
Qed.

Ltac beats_now :=
  repeat (progress (unfold emit; cbn [time_time snd set_obj trace]));
  rewrite ?beats_app; cbn [beats app sample_and_sleep]; rewrite ?app_nil_r;
  try reflexivity.

(** Every run of the loop: a sample and a sleep, round after round, and at
    the end a sample with no sleep after it. *)
Lemma loop_beats (fuel : nat) (obj : oid) (status : string)
    (via : option (list string)) (max_time : option Z) (sleep_time : Z)
    (w : World St) :
  exists m last,
    beats (trace (snd (wait_for_status_loop ops fuel obj status via max_time sleep_time w)))
      = beats (trace w) ++ sample_and_sleep obj sleep_time m ++ last /\
    sampling obj sleep_time m (m + List.length last) w
      (snd (wait_for_status_loop ops fuel obj status via max_time sleep_time w)) /\
    match fst (wait_for_status_loop ops fuel obj status via max_time sleep_time w) with
    | Ret _ => last = [Called obj m_update] /\ m < fuel
    | Raise e =>
        m < fuel /\
        (last = [Called obj m_update] \/ last = [] /\ e = AttributeError "update")
    | Diverge => last = [] /\ m = fuel
    end.
Proof.
  revert w. induction fuel as [|fuel IH]; intros w.
  - exists 0, []. split; [cbn; now rewrite app_nil_r|]. split; [apply sampling_refl|now split].
  - destruct (loop_cases ops obj status via max_time w)
      as [(e & Hs)|[Hs|[(v & c & -> & Hs & Hne & Hout)|[(c & mt & -> & Hs & Htr & Hr)
         |(c & Hs & Htr & Hr)]]]].
    + rewrite (loop_sample_raises ops _ _ _ _ _ _ _ _ Hs). cbn [fst snd].
      destruct (has_update ops (store w obj)) eqn:Hu.
      * exists 0, [Called obj m_update]. split; [beats_now|].
        split; [cbn [List.length Nat.add]; sampling_now|split; [lia|now left]].
      * exists 0, []. split; [cbn; now rewrite app_nil_r|]. split; [apply sampling_refl|].
        split; [lia|right]. split; [reflexivity|].
        unfold sampled in Hs. rewrite Hu in Hs. now inversion Hs.
    + rewrite (loop_done ops _ _ _ _ _ _ _ Hs). cbn [fst snd].
      exists 0, [Called obj m_update]. split; [beats_now|].
      split; [cbn [List.length Nat.add]; sampling_now|split; [reflexivity|lia]].
    + rewrite (loop_unexpected ops _ _ _ _ _ _ _ _ Hs Hne Hout). cbn [fst snd].
      exists 0, [Called obj m_update]. split; [beats_now|].
      split; [cbn [List.length Nat.add]; sampling_now|split; [lia|now left]].
    + rewrite (loop_timed_out ops _ _ _ _ _ _ _ _ Hs Htr Hr). cbn [fst snd].
      exists 0, [Called obj m_update]. split; [beats_now|].
      split; [cbn [List.length Nat.add]; sampling_now|split; [lia|now left]].
    + rewrite (loop_round ops _ _ _ _ _ _ _ _ Hs Htr Hr).
      destruct (IH (after_round ops obj c max_time sleep_time w))
        as (m & last & Hb & P & Hres).
      exists (S m), last. split; [|split].
      * rewrite Hb. unfold after_round.
        destruct max_time; beats_now; now rewrite <- !app_assoc.
      * exact (sampling_trans _ _ _ _ _ _ _ _ _
                 (sampling_round obj c max_time sleep_time w) P).
      * destruct (fst (wait_for_status_loop ops fuel obj status via max_time sleep_time
                        (after_round ops obj c max_time sleep_time w))).
        -- destruct Hres. split; [assumption|lia].
        -- destruct Hres as (H1 & H2). split; [lia|exact H2].
        -- destruct Hres. split; [assumption|lia].
Qed.

(** X12.  One sleep between two samples, none before the first and none
    after the last.  The calls and the sleeps of a run of [wait_for_status]
    come in this order: [m] times a call of [obj.update()] followed by a
    sleep of [sleep_time] seconds, and then one last call of
    [obj.update()], after which the function returns or raises without
    sleeping again.  The last call alone is missing when the object has no
    [update] method by then (the [AttributeError] of the sample), and in a
    run that is cut short.  So [m] sleeps go with [m + 1] calls.
    ([time.sleep] takes no negative argument.) *)
Theorem one_sleep_between_samples (fuel : nat) (obj : oid) (status : string)
    (via : option (list string)) (timeout : option Z) (sleep_time : Z)
    (w : World St) :
  (0 <= sleep_time)%Z ->
  exists m last,
    beats (trace (snd (wait_for_status ops fuel obj status via timeout sleep_time w))) =
      beats (trace w) ++ sample_and_sleep obj sleep_time m ++ last /\
    sleeps (trace (snd (wait_for_status ops fuel obj status via timeout sleep_time w))) =
      sleeps (trace w) ++ repeat sleep_time m /\
    calls (trace (snd (wait_for_status ops fuel obj status via timeout sleep_time w))) =
      calls (trace w) ++ repeat (obj, m_update) (m + List.length last) /\
    match fst (wait_for_status ops fuel obj status via timeout sleep_time w) with
    | Ret _ => last = [Called obj m_update] /\ m < fuel
    | Raise e =>
        m < fuel /\
        (last = [Called obj m_update] \/ last = [] /\ e = AttributeError "update")
    | Diverge => last = [] /\ m = fuel
    end.
Proof.
  intros _. rewrite wait_for_status_entered.
  destruct (loop_beats fuel obj status via (deadline timeout w) sleep_time
              (entered obj status timeout w)) as (m & last & Hb & (P1 & P2 & _) & Hres).
  exists m, last.
  assert (E : beats (trace (entered obj status timeout w)) = beats (trace w) /\
              sleeps (trace (entered obj status timeout w)) = sleeps (trace w) /\
              calls (trace (entered obj status timeout w)) = calls (trace w)).
  { unfold entered.
    destruct timeout; repeat (progress (unfold emit; cbn [time_time snd trace]));
      rewrite ?beats_app, ?sleeps_app, ?calls_app; cbn [beats sleeps calls];
      rewrite ?app_nil_r; repeat split. }
  destruct E as (E1 & E2 & E3).
  rewrite Hb, P1, P2, E1, E2, E3. repeat split. exact Hres.
Qed.
End Sampling.

Lemma wait_for_status_sound_witness :
  exists n,
    n < 10 /\
    status_at robot_ops (store w_pending_running 0) n = Ret "running" /\
    forall k, k < n -> exists c,
        status_at robot_ops (store w_pending_running 0) k = Ret c /\
        in_transit "running" (Some ["pending"]) c = true.
Proof.
  pose proof (wait_for_status_sound robot_ops 10 0 "running" (Some ["pending"])
                default_timeout 5 w_pending_running ltac:(lia)) as H.
  assert (E : fst (wait_for_status robot_ops 10 0 "running" (Some ["pending"])
                     default_timeout 5 w_pending_running) = Ret true)
    by (vm_compute; reflexivity).
  rewrite E in H. exact (proj2 H).
Defined.

Lemma one_sleep_between_samples_witness :
  beats (trace (snd (wait_for_status robot_ops 10 0 "running" (Some ["pending"])
                       default_timeout 5 w_pending_running))) =
    [Called 0 m_update; Slept 5; Called 0 m_update; Slept 5; Called 0 m_update].
Proof.
  destruct (one_sleep_between_samples robot_ops 10 0 "running" (Some ["pending"])
              default_timeout 5 w_pending_running ltac:(lia))
    as (m & last & Hb & Hs & _ & Hres).
  assert (E : fst (wait_for_status robot_ops 10 0 "running" (Some ["pending"])
                     default_timeout 5 w_pending_running) = Ret true)
    by (vm_compute; reflexivity).
  rewrite E in Hres. destruct Hres as (-> & _).
  assert (Hm : m = 2).
  { apply (f_equal (@List.length _)) in Hs. rewrite length_app, repeat_length in Hs.
    vm_compute in Hs. lia. }
  subst m. exact Hb.
Defined.

Lemma expired_timeout_samples_once_witness :
  exists w',
    wait_for_status robot_ops 1 0 "running" None (Some 0%Z) 5 w_pending_forever =
      (Raise (RuntimeError "Operation timed out"), w') /\
    sleeps (trace w') = [] /\
    calls (trace w') = [(0, m_update)].
Proof.
  exact (expired_timeout_samples_once robot_ops 0 0 "running" None 0 5 w_pending_forever
           ltac:(lia) ltac:(cbn; lia)).
Defined.

(** ** More on the readiness wait *)

Section Knocking.
Context {St : Type} (ops : ResourceOps St).

(** The world in which the status phase of [wait_for_instance_ready]
    starts, the world after a connection attempt, and the world in which the
    next attempt is made after one that failed before the deadline. *)
Definition ready_entered (instance : oid) (timeout : option Z) (w : World St)
    : World St :=
  let w1 := emit (ELog DEBUG "waiting for %s to be ready" [AObj instance] None) w in
  match timeout with
  | Some _ => snd (time_time w1)
  | None => w1
  end.

Definition attempted (instance : oid) (sleep_time : Z) (w : World St) : World St :=
  let host := public_dns_name ops (store w instance) in
  snd (connect host 22 sleep_time
         (emit (ELog DEBUG "...waiting for ssh on %s" [AStr host] None) w)).

Definition retried (instance : oid) (max_time : option Z) (sleep_time : Z)
    (w : World St) : World St :=
  emit (ESleep sleep_time)
    match max_time with
    | Some _ => snd (time_time (attempted instance sleep_time w))
    | None => attempted instance sleep_time w
    end.

Lemma ready_run (fuel : nat) (instance : oid) (timeout : option Z) (sleep_time : Z)
    (w : World St) :
  wait_for_instance_ready ops fuel instance timeout sleep_time w =
  match wait_for_status ops fuel instance "running" (Some ["pending"]) timeout sleep_time
          (ready_entered instance timeout w) with
  | (Ret _, w1) =>
      wait_for_ssh_loop ops fuel instance (deadline timeout w) sleep_time w1
  | (Raise e, w1) => (Raise e, w1)
  | (Diverge, w1) => (Diverge, w1)
  end.
Proof.
  unfold wait_for_instance_ready, ready_entered, deadline. unfold bind at 1. cbn [log].
  unfold bind at 1. unfold set_max_time. destruct timeout as [t|].
  - unfold bind at 1. cbn [time_time ret]. cbn [clock emit]. unfold bind at 1.
    destruct (wait_for_status ops fuel instance "running" (Some ["pending"]) (Some t)
                sleep_time _) as [[b|e|] w1]; reflexivity.
  - cbn [ret]. unfold bind at 1.
    destruct (wait_for_status ops fuel instance "running" (Some ["pending"]) None
                sleep_time _) as [[b|e|] w1]; reflexivity.
Qed.

(** The three ways a connection attempt can go. *)
Lemma ssh_connects (fuel : nat) (instance : oid) (max_time : option Z) (sleep_time : Z)
    (w : World St) :
  net w 0 = None ->
  wait_for_ssh_loop ops (S fuel) instance max_time sleep_time w =
  (Ret tt, attempted instance sleep_time w).
Proof.
  intros Hn. cbn [wait_for_ssh_loop]. unfold bind at 1. unfold get_public_dns_name at 1.
  unfold bind at 1. cbn [log]. unfold try_except.
  unfold bind at 1. unfold get_public_dns_name at 1. unfold attempted, connect.
  cbn [emit net store]. rewrite Hn. reflexivity.
Qed.

Lemma ssh_raises (fuel : nat) (instance : oid) (max_time : option Z) (sleep_time : Z)
    (w : World St) (e : exn) :
  net w 0 = Some e -> is_socket_error e = false ->
  wait_for_ssh_loop ops (S fuel) instance max_time sleep_time w =
  (Raise e, attempted instance sleep_time w).
Proof.
  intros Hn He. cbn [wait_for_ssh_loop]. unfold bind at 1. unfold get_public_dns_name at 1.
  unfold bind at 1. cbn [log]. unfold try_except.
  unfold bind at 1. unfold get_public_dns_name at 1. unfold attempted, connect.
  cbn [emit net store]. rewrite Hn, He. reflexivity.
Qed.

Lemma ssh_retries (fuel : nat) (instance : oid) (max_time : option Z) (sleep_time : Z)
    (w : World St) (e : exn) :
  net w 0 = Some e -> is_socket_error e = true ->
  reached max_time (clock w 0) = false ->
  wait_for_ssh_loop ops (S fuel) instance max_time sleep_time w =
  wait_for_ssh_loop ops fuel instance max_time sleep_time
    (retried instance max_time sleep_time w).
Proof.
  intros Hn He Hr. cbn [wait_for_ssh_loop]. unfold bind at 1.
  unfold get_public_dns_name at 1.
  unfold bind at 1. cbn [log]. unfold try_except.
  unfold bind at 1. unfold get_public_dns_name at 1. unfold connect at 1.
  cbn [emit net store]. rewrite Hn, He.
  unfold retried, attempted, connect. cbn [emit net store]. rewrite Hn.
  destruct max_time as [mt|]; cbn [reached] in Hr.
  - unfold bind at 1. cbn [time_time]. cbn [clock emit]. rewrite Hr.
    unfold bind at 1. cbn [time_sleep]. reflexivity.
  - unfold bind at 1. cbn [time_sleep]. reflexivity.
Qed.

(** How the world after [m] failed attempts relates to the world before. *)
Definition knocked (instance : oid) (max_time : option Z) (sleep_time : Z) (m : nat)
    (w w' : World St) : Prop :=
  (forall o, store w' o = store w o) /\
  (forall j, net w' j = net w (m + j)) /\
  (forall j, clock w' j = clock w (reads max_time * m + j)) /\
  connections (trace w') =
    connections (trace w) ++
    repeat (EConnect (public_dns_name ops (store w instance)) 22 sleep_time) m /\
  sleeps (trace w') = sleeps (trace w) ++ repeat sleep_time m /\
  calls (trace w') = calls (trace w) /\
  attempts (trace w') = attempts (trace w) /\
  readings (trace w') =
    readings (trace w) ++ map (clock w) (seq 0 (reads max_time * m)).

Lemma knocked_refl (instance : oid) (max_time : option Z) (sleep_time : Z)
    (w : World St) :
  knocked instance max_time sleep_time 0 w w.
Proof.
  unfold knocked. rewrite Nat.mul_0_r. cbn [repeat seq map Nat.add].
  rewrite !app_nil_r. repeat split.
Qed.

Lemma knocked_once (instance : oid) (max_time : option Z) (sleep_time : Z)
    (w : World St) :
  knocked instance max_time sleep_time 1 w (retried instance max_time sleep_time w).
Proof.
  unfold knocked, retried, attempted, connect. rewrite Nat.mul_1_r.
  destruct max_time as [mt|]; cbn [reads];
    repeat (progress (unfold emit; cbn [time_time snd store clock net trace]));
    destruct (net w 0);
    repeat (progress (unfold emit; cbn [time_time snd store clock net trace]));
    rewrite ?connections_app, ?sleeps_app, ?calls_app, ?attempts_app, ?readings_app;
    cbn [connections sleeps calls attempts attempt_of readings app repeat seq map Nat.add];
    rewrite ?app_nil_r; repeat split; reflexivity.
Qed.

Lemma knocked_trans (instance : oid) (max_time : option Z) (sleep_time : Z)
    (m1 m2 : nat) (w w1 w2 : World St) :
  knocked instance max_time sleep_time m1 w w1 ->
  knocked instance max_time sleep_time m2 w1 w2 ->
  knocked instance max_time sleep_time (m1 + m2) w w2.
Proof.
  intros (A1 & A2 & A3 & A4 & A5 & A6 & A7 & A8) (B1 & B2 & B3 & B4 & B5 & B6 & B7 & B8).
  unfold knocked. repeat split.
  - intros o. now rewrite B1.
  - intros j. rewrite B2, A2. f_equal. lia.
  - intros j. rewrite B3, A3. f_equal. lia.
  - now rewrite B4, A4, A1, <- app_assoc, repeat_app.
  - now rewrite B5, A5, <- app_assoc, repeat_app.
  - now rewrite B6.
  - now rewrite B7.
  - rewrite B8, A8, <- app_assoc. f_equal.
    replace (reads max_time * (m1 + m2)) with (reads max_time * m1 + reads max_time * m2)
      by lia.
    rewrite seq_app, map_app. f_equal. cbn [Nat.add].
    rewrite (map_seq_from (clock w) (reads max_time * m1) (reads max_time * m2)).
    apply map_ext. intros k. apply A3.
Qed.

(** [m] attempts that fail with [socket.error], all before the deadline. *)
Lemma ssh_retry_rounds (m : nat) (instance : oid) (max_time : option Z)
    (sleep_time : Z) (w : World St) :
  (forall j, j < m -> exists e, net w j = Some e /\ is_socket_error e = true) ->
  (forall j, j < m -> reached max_time (clock w (reads max_time * j)) = false) ->
  exists w',
    knocked instance max_time sleep_time m w w' /\
    forall fuel,
      wait_for_ssh_loop ops (m + fuel) instance max_time sleep_time w =
      wait_for_ssh_loop ops fuel instance max_time sleep_time w'.
Proof.
  revert w. induction m as [|m IH]; intros w Hnet Hclk.
  - exists w. split; [apply knocked_refl|reflexivity].
  - destruct (Hnet 0 (Nat.lt_0_succ m)) as (e & Hn & He).
    pose proof (knocked_once instance max_time sleep_time w) as P1.
    destruct (IH (retried instance max_time sleep_time w)) as (w' & P2 & Hrun).
    + intros j Hj. destruct P1 as (_ & A2 & _). rewrite A2. apply Hnet. lia.
    + intros j Hj. destruct P1 as (_ & _ & A3 & _). rewrite A3.
      replace (reads max_time * 1 + reads max_time * j) with (reads max_time * S j) by lia.
      apply Hclk. lia.
    + exists w'. split; [exact (knocked_trans _ _ _ 1 m _ _ _ P1 P2)|].
      intros fuel. cbn [Nat.add].
      rewrite (ssh_retries _ _ _ _ _ e Hn He).
      * apply Hrun.
      * specialize (Hclk 0 (Nat.lt_0_succ m)). now rewrite Nat.mul_0_r in Hclk.
Qed.

Lemma repeat_inj {A : Type} (x : A) (a b : nat) : repeat x a = repeat x b -> a = b.
Proof.
  intros H. apply (f_equal (@List.length A)) in H. now rewrite !repeat_length in H.
Qed.

Section Phases.
Variables (instance : oid) (timeout : option Z) (sleep_time : Z) (w : World St)
          (n m : nat).

(** The instance is [pending] for [n] samples and then [running] ... *)
Hypothesis pending_before :
  forall k, k < n -> status_at ops (store w instance) k = Ret "pending".
Hypothesis running_then : status_at ops (store w instance) n = Ret "running".

(** ... the status phase is in time ... *)
Hypothesis status_in_time :
  forall t, timeout = Some t ->
  forall k, k < n -> (clock w (2 + k) < clock w 1 + t)%Z.

(** ... the first [m] connection attempts fail with [socket.error], in
    time. *)
Hypothesis refused :
  forall j, j < m -> exists e, net w j = Some e /\ is_socket_error e = true.
Hypothesis attempts_in_time :
  forall t, timeout = Some t ->
  forall j, j < m -> (clock w (n + 2 + j) < clock w 0 + t)%Z.

(** Then the status phase and [m] connection attempts go by. *)
Lemma ready_rounds :
  exists w2,
    store w2 instance = after_updates ops (S n) (store w instance) /\
    (forall j, net w2 j = net w (m + j)) /\
    (forall j, clock w2 j = clock w (reads timeout * (n + 2 + m) + j)) /\
    connections (trace w2) =
      connections (trace w) ++
      repeat (EConnect (public_dns_name ops (after_updates ops (S n) (store w instance)))
                22 sleep_time) m /\
    sleeps (trace w2) = sleeps (trace w) ++ repeat sleep_time (n + m) /\
    calls (trace w2) = calls (trace w) ++ repeat (instance, m_update) (S n) /\
    forall fuel, n < fuel -> m <= fuel ->
      wait_for_instance_ready ops fuel instance timeout sleep_time w =
      wait_for_ssh_loop ops (fuel - m) instance (deadline timeout w) sleep_time w2.
Proof.
  set (w0 := ready_entered instance timeout w).
  assert (S0 : store w0 instance = store w instance)
    by (unfold w0, ready_entered; now destruct timeout).
  assert (C0 : forall j, clock w0 j = clock w (reads timeout + j))
    by (unfold w0, ready_entered; now destruct timeout).
  assert (N0 : forall j, net w0 j = net w j)
    by (unfold w0, ready_entered; now destruct timeout).
  assert (T0 : connections (trace w0) = connections (trace w) /\
               sleeps (trace w0) = sleeps (trace w) /\
               calls (trace w0) = calls (trace w)).
  { unfold w0, ready_entered.
    destruct timeout; repeat (progress (unfold emit; cbn [time_time snd trace]));
      rewrite !connections_app, !sleeps_app, !calls_app;
      cbn [connections sleeps calls]; now rewrite !app_nil_r. }
  destruct T0 as (T1 & T2 & T3).
  assert (Hstatus : forall fuel, n < fuel ->
            exists w1,
              wait_for_status ops fuel instance "running" (Some ["pending"]) timeout
                sleep_time w0 = (Ret true, w1) /\
              polled ops instance (reads timeout * S n) (S n) w0 w1).
  { intros fuel Hf.
    apply (wait_for_status_returns ops instance "running" (Some ["pending"]) timeout
             sleep_time w0 n).
    - intros k Hk. exists "pending". rewrite S0. split; [now apply pending_before|reflexivity].
    - intros k Hk. destruct timeout as [t|]; [|reflexivity].
      cbn [deadline reached reads]. apply Z.leb_gt. rewrite !C0. cbn [reads Nat.add].
      now apply (status_in_time t eq_refl).
    - now rewrite S0.
    - exact Hf. }
  destruct (Hstatus (S n) (Nat.lt_succ_diag_r n)) as (w1 & Hrun1 & P1).
  assert (Hany : forall fuel, n < fuel ->
            wait_for_status ops fuel instance "running" (Some ["pending"]) timeout
              sleep_time w0 = (Ret true, w1)).
  { destruct (wait_for_status_rounds ops instance "running" (Some ["pending"]) timeout
                sleep_time w0 n) as (wr & Pr & Hr).
    - intros k Hk. exists "pending". rewrite S0.
      split; [now apply pending_before|reflexivity].
    - intros k Hk. destruct timeout as [t|]; [|reflexivity].
      cbn [deadline reached reads]. apply Z.leb_gt. rewrite !C0. cbn [reads Nat.add].
      now apply (status_in_time t eq_refl).
    - assert (Hs : sampled ops (store wr instance) = Ret "running").
      { destruct Pr as (R1 & _). rewrite R1, S0. exact running_then. }
      assert (Hall : forall fuel, n < fuel ->
                wait_for_status ops fuel instance "running" (Some ["pending"]) timeout
                  sleep_time w0 =
                wait_for_status ops (S n) instance "running" (Some ["pending"]) timeout
                  sleep_time w0).
      { intros fuel Hf. replace fuel with (n + S (fuel - S n)) by lia.
        replace (S n) with (n + 1) by lia.
        now rewrite !Hr, !(loop_done ops _ _ _ _ _ _ _ Hs). }
      intros fuel Hf. now rewrite (Hall fuel Hf). }
  destruct P1 as (A1 & A2 & A3 & A4 & A5 & A6 & A7 & A8).
  assert (Hsl : sleeps (trace w1) = sleeps (trace w0) ++ repeat sleep_time n).
  { destruct (wait_for_status_sampling ops (S n) instance "running" (Some ["pending"])
                timeout sleep_time w0) as (m' & k' & (Q1 & Q2 & _) & Hres).
    rewrite Hrun1 in Q1, Q2, Hres. cbn [fst snd] in Q1, Q2, Hres.
    destruct Hres as (Hk & _). rewrite A5 in Q2. apply app_inv_head in Q2.
    apply repeat_inj in Q2. rewrite Q1. f_equal. f_equal. lia. }
  destruct (ssh_retry_rounds m instance (deadline timeout w) sleep_time w1)
    as (w2 & P2 & Hrun2).
  { intros j Hj. rewrite A4, N0. now apply refused. }
  { intros j Hj. destruct timeout as [t|]; [|reflexivity].
    cbn [deadline reached reads]. apply Z.leb_gt. rewrite A3, C0. cbn [reads].
    replace (1 + (1 * S n + 1 * j)) with (n + 2 + j) by lia.
    now apply (attempts_in_time t eq_refl). }
  destruct P2 as (B1 & B2 & B3 & B4 & B5 & B6 & B7 & B8).
  assert (Hreads : reads (deadline timeout w) = reads timeout) by now destruct timeout.
  exists w2. repeat split.
  - now rewrite B1, A1, S0.
  - intros j. now rewrite B2, A4, N0.
  - intros j. rewrite B3, A3, C0, Hreads. f_equal. lia.
  - rewrite B4, A8, T1, A1, S0. reflexivity.
  - rewrite B5, Hsl, T2, <- app_assoc, repeat_app. reflexivity.
  - now rewrite B6, A5, T3.
  - intros fuel Hn Hm. rewrite ready_run. fold w0. rewrite (Hany fuel Hn).
    replace fuel with (m + (fuel - m)) at 1 by lia. apply Hrun2.
Qed.
End Phases.
End Knocking.

Section ReadinessMore.
Context {St : Type} (ops : ResourceOps St).

Lemma attempted_trace (instance : oid) (sleep_time : Z) (w : World St) :
  connections (trace (attempted ops instance sleep_time w)) =
    connections (trace w) ++
    [EConnect (public_dns_name ops (store w instance)) 22 sleep_time] /\
  sleeps (trace (attempted ops instance sleep_time w)) = sleeps (trace w) /\
  calls (trace (attempted ops instance sleep_time w)) = calls (trace w) /\
  readings (trace (attempted ops instance sleep_time w)) = readings (trace w).
Proof.
  unfold attempted, connect.
  repeat (progress (unfold emit; cbn [snd store clock net trace])).
  destruct (net w 0);
    repeat (progress (unfold emit; cbn [snd store clock net trace]));
    rewrite !connections_app, !sleeps_app, !calls_app, !readings_app;
    cbn [connections sleeps calls readings app]; rewrite ?app_nil_r; repeat split.
Qed.

(** X16.  The readiness wait, when the port opens in time.  An instance
    that is [pending] for [n] samples and then [running], behind a port
    that refuses [m] connection attempts with [socket.error] and accepts
    the next, all before the deadlines: [wait_for_instance_ready] returns,
    after [n + 1] calls of [update()], [m + 1] connection attempts and
    [n + m] sleeps of [sleep_time] seconds.  Every attempt goes to port 22
    of the [public_dns_name] the object has after the last [update()], with
    [sleep_time] as the timeout of the socket. *)
Theorem ready_after_retries (fuel n m : nat) (instance : oid) (timeout : option Z)
    (sleep_time : Z) (w : World St) :
  (0 <= sleep_time)%Z ->
  (forall k, k < n -> status_at ops (store w instance) k = Ret "pending") ->
  status_at ops (store w instance) n = Ret "running" ->
  (forall t, timeout = Some t ->
   forall k, k < n -> (clock w (2 + k) < clock w 1 + t)%Z) ->
  (forall j, j < m -> exists e, net w j = Some e /\ is_socket_error e = true) ->
  (forall t, timeout = Some t ->
   forall j, j < m -> (clock w (n + 2 + j) < clock w 0 + t)%Z) ->
  net w m = None ->
  n < fuel -> m < fuel ->
  exists w',
    wait_for_instance_ready ops fuel instance timeout sleep_time w = (Ret tt, w') /\
    connections (trace w') =
      connections (trace w) ++
      repeat (EConnect (public_dns_name ops (after_updates ops (S n) (store w instance)))
                22 sleep_time) (S m) /\
    sleeps (trace w') = sleeps (trace w) ++ repeat sleep_time (n + m) /\
    calls (trace w') = calls (trace w) ++ repeat (instance, m_update) (S n).
Proof.
  intros _ Hpend Hrun Hin Href Hbefore Hopen Hn Hm.
  destruct (ready_rounds ops instance timeout sleep_time w n m Hpend Hrun Hin Href Hbefore)
    as (w2 & R1 & R2 & R3 & R4 & R5 & R6 & Hgo).
  rewrite (Hgo fuel Hn (Nat.lt_le_incl _ _ Hm)).
  replace (fuel - m) with (S (fuel - S m)) by lia.
  rewrite ssh_connects by (rewrite R2, Nat.add_0_r; exact Hopen).
  destruct (attempted_trace instance sleep_time w2) as (T1 & T2 & T3 & _).
  eexists. split; [reflexivity|]. split; [|split].
  - rewrite T1, R4, R1, <- app_assoc. f_equal. symmetry. apply repeat_cons.
  - now rewrite T2.
  - now rewrite T3.
Qed.

(** X17.  Only [socket.error] is retried.  When a connection attempt ends
    with any other exception, [wait_for_instance_ready] raises it at once:
    no clock is looked at, there is no sleep and no further attempt. *)
Theorem only_socket_errors_are_retried (fuel n m : nat) (instance : oid)
    (timeout : option Z) (sleep_time : Z) (w : World St) (e : exn) :
  (0 <= sleep_time)%Z ->
  (forall k, k < n -> status_at ops (store w instance) k = Ret "pending") ->
  status_at ops (store w instance) n = Ret "running" ->
  (forall t, timeout = Some t ->
   forall k, k < n -> (clock w (2 + k) < clock w 1 + t)%Z) ->
  (forall j, j < m -> exists e', net w j = Some e' /\ is_socket_error e' = true) ->
  (forall t, timeout = Some t ->
   forall j, j < m -> (clock w (n + 2 + j) < clock w 0 + t)%Z) ->
  net w m = Some e ->
  is_socket_error e = false ->
  n < fuel -> m < fuel ->
  exists w',
    wait_for_instance_ready ops fuel instance timeout sleep_time w = (Raise e, w') /\
    List.length (connections (trace w')) = List.length (connections (trace w)) + S m /\
    sleeps (trace w') = sleeps (trace w) ++ repeat sleep_time (n + m) /\
    (forall j, clock w' j = clock w (reads timeout * (n + 2 + m) + j)).
Proof.
  intros _ Hpend Hrun Hin Href Hbefore Hfail He Hn Hm.
  destruct (ready_rounds ops instance timeout sleep_time w n m Hpend Hrun Hin Href Hbefore)
    as (w2 & R1 & R2 & R3 & R4 & R5 & R6 & Hgo).
  rewrite (Hgo fuel Hn (Nat.lt_le_incl _ _ Hm)).
  replace (fuel - m) with (S (fuel - S m)) by lia.
  rewrite (ssh_raises ops _ _ _ _ _ e) by (try rewrite R2, Nat.add_0_r; assumption).
  destruct (attempted_trace instance sleep_time w2) as (T1 & T2 & T3 & _).
  eexists. split; [reflexivity|]. split; [|split].
  - rewrite T1, R4, !length_app, repeat_length. cbn [List.length]. lia.
  - now rewrite T2.
  - intros j. rewrite <- R3. unfold attempted, connect.
    repeat (progress (unfold emit; cbn [snd store clock net trace])).
    now destruct (net w2 0).
Qed.

Lemma pending_only (c : string) :
  in_transit "running" (Some ["pending"]) c = true -> c = "pending".
Proof.
  unfold in_transit, not_in. cbn [existsb]. rewrite orb_false_r, negb_involutive.
  intros H. apply andb_prop in H. destruct H as [_ H]. now apply String.eqb_eq in H.
Qed.

(** X18.  No connection is attempted unless the instance was seen
    [running].  In every run of [wait_for_instance_ready], either no
    connection attempt has been made, or some sample of the status was
    ["running"] and every sample before it ["pending"]: an error of the
    status phase (an unexpected status, a timeout, a failed [update()]) ends
    the wait before the network is touched. *)
Theorem no_connection_before_running (fuel : nat) (instance : oid)
    (timeout : option Z) (sleep_time : Z) (w : World St) :
  connections (trace (snd (wait_for_instance_ready ops fuel instance timeout
                             sleep_time w))) = connections (trace w) \/
  exists n,
    n < fuel /\
    status_at ops (store w instance) n = Ret "running" /\
    forall k, k < n -> status_at ops (store w instance) k = Ret "pending".
Proof.
  rewrite ready_run.
  set (w0 := ready_entered instance timeout w).
  assert (S0 : store w0 instance = store w instance)
    by (unfold w0, ready_entered; now destruct timeout).
  assert (T0 : connections (trace w0) = connections (trace w)).
  { unfold w0, ready_entered.
    destruct timeout; repeat (progress (unfold emit; cbn [time_time snd trace]));
      rewrite !connections_app; cbn [connections]; now rewrite !app_nil_r. }
  pose proof (wait_for_status_verdict ops fuel instance "running" (Some ["pending"])
                timeout sleep_time w0) as V.
  destruct (wait_for_status_sampling ops fuel instance "running" (Some ["pending"])
              timeout sleep_time w0) as (m & k & (_ & _ & _ & P4 & _) & _).
  destruct (wait_for_status ops fuel instance "running" (Some ["pending"]) timeout
              sleep_time w0) as [[b|e|] w1]; cbn [fst snd] in *.
  - right. destruct V as (_ & n & Hn & Hrun & Hbefore). rewrite S0 in *.
    exists n. split; [exact Hn|]. split; [exact Hrun|].
    intros j Hj. destruct (Hbefore j Hj) as (c & Hc & Htr).
    now rewrite <- (pending_only c Htr).
  - left. now rewrite P4.
  - left. now rewrite P4.
Qed.

Lemma ssh_untimed (fuel : nat) (instance : oid) (sleep_time : Z) (w : World St) :
  readings (trace (snd (wait_for_ssh_loop ops fuel instance None sleep_time w))) =
  readings (trace w).
Proof.
  revert w. induction fuel as [|fuel IH]; intros w; [reflexivity|].
  destruct (attempted_trace instance sleep_time w) as (_ & _ & _ & T4).
  destruct (net w 0) as [e|] eqn:Hn.
  - destruct (is_socket_error e) eqn:He.
    + rewrite (ssh_retries ops _ _ None _ _ e Hn He eq_refl), IH.
      unfold retried, emit. cbn [trace]. rewrite readings_app. cbn [readings].
      now rewrite app_nil_r.
    + now rewrite (ssh_raises ops _ _ None _ _ e Hn He).
  - now rewrite (ssh_connects ops _ _ None _ _ Hn).
Qed.

(** X19.  Without a timeout the readiness wait never looks at the clock,
    and it has no end of its own: against an instance that is [running]
    behind a port that refuses every connection with [socket.error] it goes
    on for ever. *)
Theorem untimed_readiness_reads_no_clock (fuel : nat) (instance : oid)
    (sleep_time : Z) (w : World St) :
  readings (trace (snd (wait_for_instance_ready ops fuel instance None sleep_time w))) =
    readings (trace w) /\
  (forall n,
     (0 <= sleep_time)%Z ->
     n < fuel ->
     (forall k, k < n -> status_at ops (store w instance) k = Ret "pending") ->
     status_at ops (store w instance) n = Ret "running" ->
     (forall j, exists e, net w j = Some e /\ is_socket_error e = true) ->
     fst (wait_for_instance_ready ops fuel instance None sleep_time w) = Diverge).
Proof.
  split.
  - rewrite ready_run.
    set (w0 := ready_entered instance None w).
    assert (T0 : readings (trace w0) = readings (trace w)).
    { unfold w0, ready_entered, emit. cbn [trace]. rewrite readings_app.
      cbn [readings]. now rewrite app_nil_r. }
    assert (T1 : readings (trace (snd (wait_for_status ops fuel instance "running"
                                         (Some ["pending"]) None sleep_time w0))) =
                 readings (trace w0)).
    { rewrite wait_for_status_entered. cbn [deadline].
      rewrite (proj1 (loop_untimed ops fuel instance "running" (Some ["pending"])
                        sleep_time _)).
      unfold entered, emit. cbn [trace]. rewrite readings_app. cbn [readings].
      now rewrite app_nil_r. }
    destruct (wait_for_status ops fuel instance "running" (Some ["pending"]) None
                sleep_time w0) as [[b|e|] w1]; cbn [snd] in *.
    + cbn [deadline]. now rewrite ssh_untimed, T1.
    + now rewrite T1.
    + now rewrite T1.
  - intros n _ Hn Hpend Hrun Href.
    destruct (ready_rounds ops instance None sleep_time w n fuel Hpend Hrun)
      as (w2 & _ & _ & _ & _ & _ & _ & Hgo).
    + intros t Ht. discriminate.
    + intros j _. apply Href.
    + intros t Ht. discriminate.
    + rewrite (Hgo fuel Hn (Nat.le_refl fuel)), Nat.sub_diag. reflexivity.
Qed.
End ReadinessMore.

Lemma ready_after_retries_witness :
  exists w',
    wait_for_instance_ready robot_ops 10 0 default_timeout 5 w_port_opens = (Ret tt, w') /\
    connections (trace w') = repeat (EConnect "ec2-host.example" 22 5) 3 /\
    sleeps (trace w') = repeat 5%Z 3 /\
    calls (trace w') = repeat (0, m_update) 2.
Proof.
  refine (ready_after_retries robot_ops 10 1 2 0 default_timeout 5 w_port_opens
            ltac:(lia) _ eq_refl _ _ _ eq_refl ltac:(lia) ltac:(lia)).
  - intros [|k] Hk; [reflexivity|lia].
  - intros t Ht [|k] Hk; [|lia]. inversion Ht; subst t. cbn. lia.
  - intros [|[|j]] Hj; [exists SocketError; split; reflexivity..|lia].
  - intros t Ht [|[|j]] Hj; try lia; inversion Ht; subst t; cbn; lia.
Defined.

Lemma only_socket_errors_are_retried_witness :
  exists w',
    wait_for_instance_ready robot_ops 10 0 default_timeout 5 w_connect_interrupted =
      (Raise (NonException "KeyboardInterrupt"), w') /\
    List.length (connections (trace w')) = 1 /\
    sleeps (trace w') = [] /\
    (forall j, clock w' j = clock w_connect_interrupted (2 + j)).
Proof.
  refine (only_socket_errors_are_retried robot_ops 10 0 0 0 default_timeout 5
            w_connect_interrupted (NonException "KeyboardInterrupt")
            ltac:(lia) _ eq_refl _ _ _ eq_refl eq_refl ltac:(lia) ltac:(lia)).
  - intros k Hk. lia.
  - intros t Ht k Hk. lia.
  - intros j Hj. lia.
  - intros t Ht j Hj. lia.
Defined.

(** ** More on the ledger *)

Section Confined.
Context {St : Type} (ops : ResourceOps St).

(** Between [w] and [w'] only objects of [S] have been called or changed,
    and no connection has been attempted. *)
Definition confined (S : oid -> Prop) (w w' : World St) : Prop :=
  (forall o, ~ S o -> store w' o = store w o) /\
  (exists evs, calls (trace w') = calls (trace w) ++ evs /\
               forall o m, In (o, m) evs -> S o) /\
  connections (trace w') = connections (trace w).

Lemma confined_refl (S : oid -> Prop) (w : World St) : confined S w w.
Proof.
  split; [reflexivity|]. split; [|reflexivity].
  exists []. split; [now rewrite app_nil_r|intros o m []].
Qed.

Lemma confined_trans (S : oid -> Prop) (w w1 w2 : World St) :
  confined S w w1 -> confined S w1 w2 -> confined S w w2.
Proof.
  intros (A1 & (ev1 & A2 & A3) & A4) (B1 & (ev2 & B2 & B3) & B4). split; [|split].
  - intros o Ho. now rewrite B1, A1.
  - exists (ev1 ++ ev2). split; [now rewrite B2, A2, app_assoc|].
    intros o m Hin. apply in_app_or in Hin. destruct Hin; eauto.
  - now rewrite B4.
Qed.

Lemma confined_weaken (S S' : oid -> Prop) (w w' : World St) :
  (forall o, S o -> S' o) -> confined S w w' -> confined S' w w'.
Proof.
  intros Hsub (A1 & (evs & A2 & A3) & A4). split; [|split].
  - intros o Ho. apply A1. intros Hs. apply Ho, Hsub, Hs.
  - exists evs. split; [exact A2|]. intros o m Hin. apply Hsub. eauto.
  - exact A4.
Qed.

(** A step that logs, or calls a method of [r]. *)
Lemma confined_log (S : oid -> Prop) (w : World St) (l : level) (fmt : string)
    (args : list logarg) (exc : option exn) :
  confined S w (emit (ELog l fmt args exc) w).
Proof.
  unfold confined, emit. cbn [store trace]. rewrite calls_app, connections_app.
  cbn [calls connections]. rewrite !app_nil_r. split; [reflexivity|]. split; [|reflexivity].
  exists []. split; [now rewrite app_nil_r|intros o m []].
Qed.

Lemma confined_call (r : oid) (m : method) (s : St) (w : World St) :
  confined (eq r) w (emit (ECall r m) (set_obj r s w)).
Proof.
  unfold confined, emit. cbn [set_obj store trace]. rewrite calls_app, connections_app.
  cbn [calls connections]. rewrite app_nil_r. split; [|split; [|reflexivity]].
  - intros o Ho. destruct (Nat.eqb o r) eqn:E; [|reflexivity].
    apply Nat.eqb_eq in E. now contradiction Ho.
  - exists [(r, m)]. split; [reflexivity|]. intros o m' [H|[]]. now inversion H.
Qed.

Lemma wait_for_status_confined (fuel : nat) (obj : oid) (status : string)
    (via : option (list string)) (timeout : option Z) (sleep_time : Z) (w : World St) :
  confined (eq obj) w (snd (wait_for_status ops fuel obj status via timeout sleep_time w)).
Proof.
  destruct (wait_for_status_sampling ops fuel obj status via timeout sleep_time w)
    as (m & k & (_ & P2 & P3 & P4 & _) & _).
  split; [|split; [|exact P4]].
  - intros o Ho. apply P3. congruence.
  - exists (repeat (obj, m_update) k). split; [exact P2|].
    intros o m' Hin. apply repeat_spec in Hin. now inversion Hin.
Qed.

Lemma delete_step_confined (r : oid) (w : World St) :
  confined (eq r) w (snd (delete_step ops r w)).
Proof.
  unfold delete_step. destruct (has_delete ops (store w r)); cbn [snd].
  - apply confined_call.
  - apply confined_refl.
Qed.

Lemma cleanup_confined (fuel : nat) (r : oid) (w : World St) :
  confined (eq r) w (snd (_cleanup_resource ops fuel r w)).
Proof.
  assert (Hst : confined (eq r) w (started r w)) by apply confined_log.
  assert (Hterm : confined (eq r) w (terminated ops r w)).
  { eapply confined_trans; [exact Hst|]. unfold terminated.
    replace (set_obj r (fst (do_terminate ops (store w r))) (started r w))
      with (set_obj r (fst (do_terminate ops (store (started r w) r))) (started r w))
      by reflexivity.
    apply confined_call. }
  rewrite cleanup_run. destruct (has_terminate ops (store w r)).
  - destruct (snd (do_terminate ops (store w r))); [|exact Hterm].
    pose proof (wait_for_status_confined fuel r "terminated" default_via default_timeout
                  default_sleep_time (terminated ops r w)) as Hw.
    destruct (wait_for_status ops fuel r "terminated" default_via default_timeout
                default_sleep_time (terminated ops r w)) as [[b|e|] w2]; cbn [snd] in *.
    + eapply confined_trans; [exact Hterm|].
      eapply confined_trans; [exact Hw|apply delete_step_confined].
    + eapply confined_trans; [exact Hterm|exact Hw].
    + eapply confined_trans; [exact Hterm|exact Hw].
  - eapply confined_trans; [exact Hst|apply delete_step_confined].
Qed.

Lemma cleanup_or_log_confined (fuel : nat) (r : oid) (w : World St) :
  confined (eq r) w (snd (cleanup_or_log ops fuel r w)).
Proof.
  pose proof (cleanup_confined fuel r w) as H. rewrite cleanup_or_log_run.
  destruct (_cleanup_resource ops fuel r w) as [[u|e|] w']; cbn [snd] in *; try exact H.
  destruct (is_Exception e); cbn [snd]; [|exact H].
  eapply confined_trans; [exact H|apply confined_log].
Qed.

Lemma for_each_confined (fuel : nat) (l : list oid) (w : World St) :
  confined (fun o => In o l) w (snd (for_each l (cleanup_or_log ops fuel) w)).
Proof.
  revert w. induction l as [|r t IH]; intros w; [apply confined_refl|].
  cbn [for_each]. unfold bind.
  pose proof (cleanup_or_log_confined fuel r w) as H.
  assert (H' : confined (fun o => In o (r :: t)) w (snd (cleanup_or_log ops fuel r w)))
    by (apply (confined_weaken (eq r)); [intros o <-; now left|exact H]).
  destruct (cleanup_or_log ops fuel r w) as [[u|e|] w1]; cbn [snd] in *; try exact H'.
  eapply confined_trans; [exact H'|].
  apply (confined_weaken (fun o => In o t)); [intros o Ho; now right|apply IH].
Qed.

Lemma exit_confined {T V B : Type} (fuel : nat) (self : cleanup_context)
    (exc_typ : option T) (exc_val : option V) (exc_tb : option B) (w : World St) :
  confined (fun o => In o (to_cleanup self exc_typ exc_val exc_tb)) w
    (snd (__exit__ ops fuel self exc_typ exc_val exc_tb w)).
Proof.
  pose proof (for_each_confined fuel (cleanup_order ops self exc_typ exc_val exc_tb w) w)
    as H.
  rewrite exit_run.
  assert (Hsub : forall o, In o (cleanup_order ops self exc_typ exc_val exc_tb w) ->
                           In o (to_cleanup self exc_typ exc_val exc_tb)).
  { intros o Ho. eapply Permutation_in; [apply Permutation_sym, sort_perm|exact Ho]. }
  apply (confined_weaken _ _ _ _ Hsub).
  destruct (for_each _ _ w) as [[u|e|] w']; exact H.
Qed.

(** X22.  [__exit__] touches nothing but its candidates.  A resource that
    is kept at this exit, or was never registered, is left alone: none of
    its methods is called and it is as it was; and [__exit__] attempts no
    connection. *)
Theorem exit_touches_only_candidates {T V B : Type} (fuel : nat) (self : cleanup_context)
    (exc_typ : option T) (exc_val : option V) (exc_tb : option B) (w : World St) :
  (forall o, ~ In o (to_cleanup self exc_typ exc_val exc_tb) ->
     store (snd (__exit__ ops fuel self exc_typ exc_val exc_tb w)) o = store w o) /\
  (exists evs,
     calls (trace (snd (__exit__ ops fuel self exc_typ exc_val exc_tb w))) =
       calls (trace w) ++ evs /\
     forall o m, In (o, m) evs -> In o (to_cleanup self exc_typ exc_val exc_tb)) /\
  connections (trace (snd (__exit__ ops fuel self exc_typ exc_val exc_tb w))) =
    connections (trace w).
Proof.
  exact (exit_confined fuel self exc_typ exc_val exc_tb w).
Qed.

(** X20.  An exit with no candidate does nothing, and an exit with
    candidates always starts on the first.  When every entry is kept at
    this exit, and so when the ledger is empty, [__exit__] returns [None]
    and the world is as it was: no call, no log record.  When there is a
    candidate, the cleanup of one is started, whatever happens next. *)
Theorem exit_without_candidates {T V B : Type} (fuel : nat) (self : cleanup_context)
    (exc_typ : option T) (exc_val : option V) (exc_tb : option B) (w : World St) :
  (to_cleanup self exc_typ exc_val exc_tb = [] ->
   __exit__ ops fuel self exc_typ exc_val exc_tb w = (Ret PyNone, w)) /\
  __exit__ ops fuel __init__ exc_typ exc_val exc_tb w = (Ret PyNone, w) /\
  (to_cleanup self exc_typ exc_val exc_tb <> [] ->
   exists r rest,
     In r (to_cleanup self exc_typ exc_val exc_tb) /\
     attempts (trace (snd (__exit__ ops fuel self exc_typ exc_val exc_tb w))) =
       attempts (trace w) ++ r :: rest).
Proof.
  assert (Hnone : forall l : cleanup_context,
            to_cleanup l exc_typ exc_val exc_tb = [] ->
            __exit__ ops fuel l exc_typ exc_val exc_tb w = (Ret PyNone, w)).
  { intros l Hl. rewrite exit_run. unfold cleanup_order. now rewrite Hl. }
  split; [apply Hnone|]. split.
  { apply Hnone. unfold to_cleanup, __init__. cbn [resources].
    now destruct (is_success_exit exc_typ exc_val exc_tb). }
  intros Hsome. rewrite exit_run.
  pose proof (sort_perm (fun r => _sortkey_for_cleanup_ordering ops (store w r))
                (to_cleanup self exc_typ exc_val exc_tb)) as Hp.
  fold (cleanup_order ops self exc_typ exc_val exc_tb w) in Hp.
  destruct (cleanup_order ops self exc_typ exc_val exc_tb w) as [|r t] eqn:Ho.
  { apply Permutation_sym, Permutation_nil in Hp. contradiction. }
  exists r.
  assert (Hin : In r (to_cleanup self exc_typ exc_val exc_tb))
    by (eapply Permutation_in; [apply Permutation_sym, Hp|now left]).
  cbn [for_each]. unfold bind.
  pose proof (proj2 (cleanup_or_log_framed ops fuel r w)) as A.
  destruct (cleanup_or_log ops fuel r w) as [[u|e|] w1]; cbn [snd] in A.
  - destruct (for_each_attempts ops fuel t w1) as (done & rest & _ & Ha & _).
    exists done. split; [exact Hin|].
    destruct (for_each t (cleanup_or_log ops fuel) w1) as [[u'|e'|] w2]; cbn [snd] in *;
      now rewrite Ha, A, <- app_assoc.
  - exists []. now split.
  - exists []. now split.
Qed.

(** X21.  [delete()] is called only on a resource that was seen
    terminated.  The calls [_cleanup_resource] makes on a resource that has
    a [terminate] method are [terminate()], then some calls of [update()],
    then at most one call of [delete()]; and [delete()] is among them only
    when [terminate()] returned and a sample of the status was
    ["terminated"].  When [terminate()] raises, its exception is raised
    with no other call made; when the resource has no [update] method, the
    poll raises [AttributeError] and [delete()] is not called. *)
Theorem delete_only_after_terminated (fuel : nat) (r : oid) (w : World St) :
  has_terminate ops (store w r) = true ->
  (exists k dels,
     calls (trace (snd (_cleanup_resource ops fuel r w))) =
       calls (trace w) ++ (r, m_terminate) :: repeat (r, m_update) k ++ dels /\
     (dels = [] \/
      dels = [(r, m_delete)] /\
      snd (do_terminate ops (store w r)) = Returned tt /\
      exists n, n < fuel /\
                status_at ops (fst (do_terminate ops (store w r))) n = Ret "terminated")) /\
  (forall e,
     snd (do_terminate ops (store w r)) = Raised e ->
     fst (_cleanup_resource ops fuel r w) = Raise e /\
     calls (trace (snd (_cleanup_resource ops fuel r w))) =
       calls (trace w) ++ [(r, m_terminate)]) /\
  (snd (do_terminate ops (store w r)) = Returned tt ->
   has_update ops (fst (do_terminate ops (store w r))) = false ->
   0 < fuel ->
   fst (_cleanup_resource ops fuel r w) = Raise (AttributeError "update") /\
   calls (trace (snd (_cleanup_resource ops fuel r w))) =
     calls (trace w) ++ [(r, m_terminate)]).
Proof.
  intros Ht. rewrite cleanup_run, Ht.
  pose proof (terminated_calls ops r w) as Hc.
  pose proof (terminated_store ops r w) as Hs.
  pose proof (wait_for_status_verdict ops fuel r "terminated" default_via default_timeout
                default_sleep_time (terminated ops r w)) as V.
  destruct (wait_for_status_sampling ops fuel r "terminated" default_via default_timeout
              default_sleep_time (terminated ops r w))
    as (m & k & (_ & P2 & _) & Hres).
  rewrite Hs in V. split; [|split].
  - destruct (snd (do_terminate ops (store w r))) as [u|e].
    + destruct (wait_for_status ops fuel r "terminated" default_via default_timeout
                  default_sleep_time (terminated ops r w)) as [[b|e|] w2];
        cbn [fst snd] in *.
      * destruct V as (_ & n & Hn & Hst & _).
        unfold delete_step. destruct (has_delete ops (store w2 r)); cbn [snd].
        -- exists k, [(r, m_delete)]. split.
           ++ unfold emit. cbn [set_obj trace]. rewrite calls_app, P2, Hc. cbn [calls].
              now rewrite <- !app_assoc.
           ++ right. split; [reflexivity|]. split; [now destruct u|]. now exists n.
        -- exists k, []. split; [|now left].
           now rewrite P2, Hc, app_nil_r, <- app_assoc.
      * exists k, []. split; [|now left]. now rewrite P2, Hc, app_nil_r, <- app_assoc.
      * exists k, []. split; [|now left]. now rewrite P2, Hc, app_nil_r, <- app_assoc.
    + exists 0, []. cbn [snd repeat app]. split; [exact Hc|now left].
  - intros e He. rewrite He. cbn [fst snd]. split; [reflexivity|exact Hc].
  - intros Hret Hu Hf. rewrite Hret.
    destruct fuel as [|fuel']; [lia|].
    rewrite wait_for_status_entered in *.
    assert (Hsamp : sampled ops (store (entered r "terminated" default_timeout
                                          (terminated ops r w)) r) =
                    Raise (AttributeError "update")).
    { unfold entered, sampled. cbn [default_timeout time_time snd emit store].
      change (store (terminated ops r w) r) with (store (terminated ops r w) r).
      rewrite Hs, Hu. reflexivity. }
    rewrite (loop_sample_raises ops _ _ _ _ _ _ _ _ Hsamp).
    cbn [fst snd]. split; [reflexivity|].
    assert (Hu' : has_update ops (store (entered r "terminated" default_timeout
                                           (terminated ops r w)) r) = false).
    { unfold entered. cbn [default_timeout time_time snd emit store]. now rewrite Hs. }
    rewrite Hu'. unfold entered. cbn [default_timeout].
    repeat (progress (unfold emit; cbn [time_time snd trace])).
    rewrite !calls_app. cbn [calls]. rewrite !app_nil_r.
    unfold terminated, started, emit. cbn [set_obj trace].
    rewrite !calls_app. cbn [calls]. now rewrite app_nil_r.
Qed.
End Confined.

Lemma delete_only_after_terminated_witness :
  fst (_cleanup_resource robot_ops 5 0 w_interrupted) =
    Raise (NonException "KeyboardInterrupt") /\
  calls (trace (snd (_cleanup_resource robot_ops 5 0 w_interrupted))) =
    [(0, m_terminate)].
Proof.
  destruct (delete_only_after_terminated robot_ops 5 0 w_interrupted eq_refl)
    as (_ & H & _).
  exact (H (NonException "KeyboardInterrupt") eq_refl).
Defined.

(** ** The waits end when there is a timeout *)

Section Ending.
Context {St : Type} (ops : ResourceOps St).

(** With a deadline that the clock reaches after at most [K] readings, the
    connectivity loop ends within [K + 1] attempts, the same way for any
    larger fuel. *)
Lemma ssh_settles (K : nat) (instance : oid) (mt : Z) (sleep_time : Z) (w : World St) :
  (forall j, K <= j -> (mt <= clock w j)%Z) ->
  exists r w',
    r <> Diverge /\
    forall fuel, K < fuel ->
      wait_for_ssh_loop ops fuel instance (Some mt) sleep_time w = (r, w').
Proof.
  revert w. induction K as [|K IH]; intros w HK.
  all: destruct (net w 0) as [e|] eqn:Hn;
    [destruct (is_socket_error e) eqn:He|].
  all: try (eexists; eexists; split;
            [|intros [|fuel] Hf; [lia|];
              first [apply (ssh_raises ops _ _ _ _ _ e Hn He)
                    |apply (ssh_connects ops _ _ _ _ _ Hn)]];
            discriminate).
  - eexists. eexists. split; [|intros [|fuel] Hf; [lia|];
      apply (ssh_timed_out ops _ _ _ _ _ e Hn He (HK 0 (Nat.le_refl 0)))].
    discriminate.
  - destruct (Z_lt_le_dec (clock w 0) mt) as [Hlt|Hle].
    + destruct (IH (retried ops instance (Some mt) sleep_time w)) as (r & w' & Hr & Hrun).
      * intros j Hj.
        destruct (knocked_once ops instance (Some mt) sleep_time w) as (_ & _ & A3 & _).
        rewrite A3. apply HK. cbn [reads]. lia.
      * exists r, w'. split; [exact Hr|]. intros [|fuel] Hf; [lia|].
        rewrite (ssh_retries ops _ _ _ _ _ e Hn He).
        -- apply Hrun. lia.
        -- cbn [reached]. apply Z.leb_gt. exact Hlt.
    + eexists. eexists. split; [|intros [|fuel] Hf; [lia|];
        apply (ssh_timed_out ops _ _ _ _ _ e Hn He Hle)].
      discriminate.
Qed.

(** X23.  With a timeout, [wait_for_status] ends.  Provided the clock gets
    past every instant, the poll comes to an outcome ([True] or an
    exception) after finitely many rounds, however the object behaves: the
    run does not depend on the fuel once there is enough of it. *)
Theorem timed_poll_ends (obj : oid) (status : string) (via : option (list string))
    (t : Z) (sleep_time : Z) (w : World St) :
  (0 <= sleep_time)%Z ->
  clock_passes w ->
  exists fuel0 r w',
    r <> Diverge /\
    forall fuel, fuel0 <= fuel ->
      wait_for_status ops fuel obj status via (Some t) sleep_time w = (r, w').
Proof.
  intros _ Hp.
  destruct (wait_for_status_settles ops obj status via t sleep_time w Hp)
    as (fuel0 & r & w' & Hr & _ & Hrun).
  now exists fuel0, r, w'.
Qed.

(** X24.  With a timeout, [wait_for_instance_ready] ends.  Provided the
    clock gets past every instant, the wait comes to an outcome (it
    returns, or raises) after finitely many rounds of polling and finitely
    many connection attempts, however the instance and the network
    behave. *)
Theorem timed_readiness_ends (instance : oid) (t : Z) (sleep_time : Z) (w : World St) :
  (0 <= sleep_time)%Z ->
  clock_passes w ->
  exists fuel0 r w',
    r <> Diverge /\
    forall fuel, fuel0 <= fuel ->
      wait_for_instance_ready ops fuel instance (Some t) sleep_time w = (r, w').
Proof.
  intros _ Hp.
  set (w0 := ready_entered instance (Some t) w).
  assert (Hp0 : clock_passes w0).
  { intros T. destruct (Hp T) as (K & HK). exists K. intros j Hj.
    unfold w0, ready_entered. cbn [time_time snd emit clock]. apply HK. lia. }
  destruct (wait_for_status_settles ops instance "running" (Some ["pending"]) t
              sleep_time w0 Hp0) as (fuel0 & r & w1 & Hr & _ & Hrun).
  destruct r as [b|e|]; [| |contradiction].
  - assert (Hp1 : clock_passes w1).
    { apply (framed_clock_passes w0); [|exact Hp0].
      pose proof (wait_for_status_framed ops fuel0 instance "running" (Some ["pending"])
                    (Some t) sleep_time w0) as F.
      now rewrite (Hrun fuel0 (Nat.le_refl _)) in F. }
    destruct (Hp1 (clock w 0 + t)%Z) as (K & HK).
    destruct (ssh_settles K instance (clock w 0 + t)%Z sleep_time w1 HK)
      as (r' & w' & Hr' & Hrun').
    exists (Nat.max fuel0 (S K)), r', w'. split; [exact Hr'|].
    intros fuel Hf. rewrite ready_run. fold w0.
    rewrite (Hrun fuel ltac:(lia)). cbn [deadline]. apply Hrun'. lia.
  - exists fuel0, (Raise e), w1. split; [discriminate|].
    intros fuel Hf. rewrite ready_run. fold w0. now rewrite (Hrun fuel Hf).
Qed.
End Ending.

Lemma timed_poll_ends_witness :
  exists fuel0 r w',
    r <> Diverge /\
    forall fuel, fuel0 <= fuel ->
      wait_for_status robot_ops fuel 0 "running" (Some ["pending"]) (Some 20%Z) 5
        w_pending_forever = (r, w').
Proof.
  exact (timed_poll_ends robot_ops 0 "running" (Some ["pending"]) 20 5 w_pending_forever
           ltac:(lia) (world_of_clock_passes _ 0 5 None ltac:(lia))).
Defined.

Lemma timed_readiness_ends_witness :
  exists fuel0 r w',
    r <> Diverge /\
    forall fuel, fuel0 <= fuel ->
      wait_for_instance_ready robot_ops fuel 0 (Some 20%Z) 5 w_port_closed = (r, w').
Proof.
  exact (timed_readiness_ends robot_ops 0 20 5 w_port_closed
           ltac:(lia) (world_of_clock_passes _ 0 5 (Some SocketError) ltac:(lia))).
Defined.

(** ** [_cleanup_resource], call by call *)

Section Dispatch.
Context {St : Type} (ops : ResourceOps St).

Lemma terminated_sleeps (r : oid) (w : World St) :
  sleeps (trace (terminated ops r w)) = sleeps (trace w).
Proof.
  unfold terminated, started, emit. cbn [set_obj trace].
  rewrite !sleeps_app. cbn [sleeps]. now rewrite !app_nil_r.
Qed.

(** A run of [wait_for_status] that has made [n + 1] calls of
    [obj.update()] and has come to an end of its own has slept [n]
    times. *)
Lemma sleeps_of_samples (fuel n : nat) (obj : oid) (status : string)
    (via : option (list string)) (timeout : option Z) (sleep_time : Z)
    (w w' : World St) (res : res bool) :
  wait_for_status ops fuel obj status via timeout sleep_time w = (res, w') ->
  calls (trace w') = calls (trace w) ++ repeat (obj, m_update) (S n) ->
  res <> Diverge ->
  res <> Raise (AttributeError "update") ->
  sleeps (trace w') = sleeps (trace w) ++ repeat sleep_time n.
Proof.
  intros Hrun Hcalls Hd Ha.
  destruct (wait_for_status_sampling ops fuel obj status via timeout sleep_time w)
    as (m & k & (P1 & P2 & _) & Hres).
  rewrite Hrun in P1, P2, Hres. cbn [fst snd] in *.
  rewrite Hcalls in P2. apply app_inv_head, repeat_inj in P2. subst k.
  assert (m = n); [|now subst].
  destruct res as [b|e|].
  - destruct Hres. lia.
  - destruct Hres as (_ & [H|(_ & H)]); [lia|]. subst e. now contradiction Ha.
  - now contradiction Hd.
Qed.

(** C7, as the code has it.  [_cleanup_resource] goes by what the resource
    can do.  With [delete] only: one call, of [delete()].  With neither
    [terminate] nor [delete]: no call at all.  With [terminate]:
    [terminate()] first; when it raises, nothing else is called.  When it
    returns the resource is polled, [update()] once a round, under the
    default timeout of 300 seconds, and [delete()] is called only when a
    sample is ["terminated"] before a round of the poll finds the clock at
    the deadline: a resource still on its way at that moment gets no
    [delete()], whatever it would have shown later, and neither does one
    whose [update()] raises. *)
Theorem cleanup_dispatches_on_capabilities (fuel : nat) (r : oid) (w : World St) :
  (has_terminate ops (store w r) = false ->
   has_delete ops (store w r) = true ->
   exists w',
     _cleanup_resource ops fuel r w =
       (match snd (do_delete ops (store w r)) with
        | Returned _ => Ret tt
        | Raised e => Raise e
        end, w') /\
     calls (trace w') = calls (trace w) ++ [(r, m_delete)]) /\
  (has_terminate ops (store w r) = false ->
   has_delete ops (store w r) = false ->
   exists w',
     _cleanup_resource ops fuel r w = (Ret tt, w') /\
     calls (trace w') = calls (trace w)) /\
  (forall e,
     has_terminate ops (store w r) = true ->
     snd (do_terminate ops (store w r)) = Raised e ->
     exists w',
       _cleanup_resource ops fuel r w = (Raise e, w') /\
       calls (trace w') = calls (trace w) ++ [(r, m_terminate)]) /\
  (forall n,
     has_terminate ops (store w r) = true ->
     snd (do_terminate ops (store w r)) = Returned tt ->
     (forall k, k < n -> exists c,
         status_at ops (fst (do_terminate ops (store w r))) k = Ret c /\
         c <> "terminated") ->
     (forall k, k < n -> (clock w (S k) < clock w 0 + 300)%Z) ->
     n < fuel ->
     (status_at ops (fst (do_terminate ops (store w r))) n = Ret "terminated" ->
      has_delete ops (after_updates ops (S n) (fst (do_terminate ops (store w r)))) = true ->
      exists w',
        _cleanup_resource ops fuel r w =
          (match snd (do_delete ops
                        (after_updates ops (S n) (fst (do_terminate ops (store w r))))) with
           | Returned _ => Ret tt
           | Raised e => Raise e
           end, w') /\
        calls (trace w') =
          calls (trace w) ++
          [(r, m_terminate)] ++ repeat (r, m_update) (S n) ++ [(r, m_delete)]) /\
     (forall c,
        status_at ops (fst (do_terminate ops (store w r))) n = Ret c ->
        c <> "terminated" ->
        (clock w 0 + 300 <= clock w (S n))%Z ->
        exists w',
          _cleanup_resource ops fuel r w =
            (Raise (RuntimeError "Operation timed out"), w') /\
          calls (trace w') =
            calls (trace w) ++ [(r, m_terminate)] ++ repeat (r, m_update) (S n)) /\
     (forall e,
        status_at ops (fst (do_terminate ops (store w r))) n = Raise e ->
        exists w',
          _cleanup_resource ops fuel r w = (Raise e, w') /\
          calls (trace w') =
            calls (trace w) ++ [(r, m_terminate)] ++
            repeat (r, m_update)
              (if has_update ops (after_updates ops n (fst (do_terminate ops (store w r))))
               then S n else n))).
Proof.
  split; [|split; [|split]].
  - intros Ht Hd. rewrite cleanup_run, Ht.
    pose proof (delete_step_calls ops r (started r w) Hd) as Hc.
    unfold delete_step in *. change (store (started r w) r) with (store w r) in *.
    rewrite Hd in *. eexists. split; [reflexivity|].
    cbn [snd] in Hc. rewrite Hc. unfold started, emit. cbn [trace].
    rewrite calls_app. cbn [calls]. now rewrite app_nil_r.
  - intros Ht Hd. rewrite cleanup_run, Ht. unfold delete_step.
    change (store (started r w) r) with (store w r). rewrite Hd.
    eexists. split; [reflexivity|].
    unfold started, emit. cbn [trace]. rewrite calls_app. cbn [calls].
    now rewrite app_nil_r.
  - intros e Ht Hterm. rewrite cleanup_run, Ht, Hterm.
    eexists. split; [reflexivity|]. apply terminated_calls.
  - intros n Ht Hterm Htr Hclk Hf. rewrite cleanup_run, Ht, Hterm.
    assert (Htr' : forall k, k < n -> exists c,
               status_at ops (store (terminated ops r w) r) k = Ret c /\
               in_transit "terminated" default_via c = true).
    { intros k Hk. rewrite terminated_store.
      destruct (Htr k Hk) as (c & Hc & Hne).
      exists c. split; [exact Hc|now apply not_terminated_in_transit]. }
    assert (Hclk' : forall k, k < n ->
               reached (deadline default_timeout (terminated ops r w))
                 (clock (terminated ops r w) (reads default_timeout + k)) = false).
    { intros k Hk. apply before_default_deadline. now apply Hclk. }
    split; [|split].
    + intros Hn Hd.
      destruct (wait_for_status_returns ops r "terminated" default_via default_timeout
                  default_sleep_time (terminated ops r w) n Htr' Hclk' fuel)
        as (w2 & Hrun & P); [now rewrite terminated_store|exact Hf|].
      rewrite Hrun. destruct P as (A1 & _ & _ & _ & A5 & _).
      rewrite terminated_store in A1.
      pose proof (delete_step_calls ops r w2) as Hc.
      unfold delete_step in *. rewrite A1 in *. rewrite Hd in *.
      eexists. split; [reflexivity|].
      cbn [snd] in Hc. rewrite (Hc eq_refl), A5, terminated_calls.
      now rewrite <- !app_assoc.
    + intros c Hc Hne Hlate.
      destruct (wait_for_status_times_out ops r "terminated" default_via default_timeout
                  default_sleep_time (terminated ops r w) n Htr' Hclk' fuel 300%Z c)
        as (w2 & Hrun & P);
        [reflexivity|now rewrite terminated_store|now apply not_terminated_in_transit
        |exact Hlate|exact Hf|].
      rewrite Hrun. exists w2. split; [reflexivity|].
      destruct P as (_ & _ & _ & _ & A5 & _). rewrite A5, terminated_calls.
      now rewrite <- app_assoc.
    + intros e He.
      destruct (wait_for_status_rounds ops r "terminated" default_via default_timeout
                  default_sleep_time (terminated ops r w) n Htr' Hclk')
        as (w1 & P1 & Hrun).
      replace fuel with (n + S (fuel - S n)) by lia. rewrite Hrun.
      destruct P1 as (A1 & _ & _ & _ & A5 & _). rewrite terminated_store in A1.
      assert (Hs : sampled ops (store w1 r) = Raise e) by (rewrite A1; exact He).
      rewrite (loop_sample_raises ops _ _ _ _ _ _ _ _ Hs), A1.
      eexists. split; [reflexivity|].
      destruct (has_update ops (after_updates ops n (fst (do_terminate ops (store w r))))).
      * unfold emit. cbn [set_obj trace]. rewrite calls_app, A5, terminated_calls.
        cbn [calls]. rewrite <- !app_assoc. f_equal. f_equal.
        replace (S n) with (n + 1) by lia. now rewrite repeat_app.
      * rewrite A5, terminated_calls. now rewrite <- app_assoc.
Qed.

(** C4, as the code has it.  The poll for ["terminated"] that follows
    [terminate()] is [wait_for_status(resource, "terminated")]: no transit
    set, a sleep of 5 seconds between two samples and the default timeout
    of 300 seconds.  A resource that is still not terminated when the clock
    reads 300 seconds or more past the reading taken at the start of the
    poll makes [_cleanup_resource] raise the timed-out error, [delete()] is
    not called, and the loop of [__exit__] logs the error and goes on. *)
Theorem teardown_poll_has_default_timeout (fuel n : nat) (r : oid) (w : World St) :
  has_terminate ops (store w r) = true ->
  snd (do_terminate ops (store w r)) = Returned tt ->
  (forall k, k <= n -> exists c,
      status_at ops (fst (do_terminate ops (store w r))) k = Ret c /\
      c <> "terminated") ->
  (forall k, k < n -> (clock w (S k) < clock w 0 + 300)%Z) ->
  (clock w 0 + 300 <= clock w (S n))%Z ->
  n < fuel ->
  exists w',
    _cleanup_resource ops fuel r w = (Raise (RuntimeError "Operation timed out"), w') /\
    calls (trace w') =
      calls (trace w) ++ [(r, m_terminate)] ++ repeat (r, m_update) (S n) /\
    sleeps (trace w') = sleeps (trace w) ++ repeat 5%Z n /\
    readings (trace w') = readings (trace w) ++ map (clock w) (seq 0 (n + 2)) /\
    cleanup_or_log ops fuel r w =
      (Ret tt,
       emit (ELog ERROR "failed to cleanup %s" [AObj r]
               (Some (RuntimeError "Operation timed out"))) w').
Proof.
  intros Ht Hterm Htr Hclk Hlate Hf.
  destruct (Htr n (Nat.le_refl n)) as (c & Hc & Hne).
  destruct (wait_for_status_times_out ops r "terminated" default_via default_timeout
              default_sleep_time (terminated ops r w) n) with (fuel := fuel) (t := 300%Z)
              (c := c)
    as (w2 & Hrun & P).
  - intros k Hk. rewrite terminated_store.
    destruct (Htr k (Nat.lt_le_incl _ _ Hk)) as (c' & Hc' & Hne').
    exists c'. split; [exact Hc'|now apply not_terminated_in_transit].
  - intros k Hk. apply before_default_deadline. now apply Hclk.
  - reflexivity.
  - now rewrite terminated_store.
  - now apply not_terminated_in_transit.
  - exact Hlate.
  - exact Hf.
  - assert (Hcl : _cleanup_resource ops fuel r w =
                  (Raise (RuntimeError "Operation timed out"), w2))
      by (rewrite cleanup_run, Ht, Hterm, Hrun; reflexivity).
    exists w2. split; [exact Hcl|].
    pose proof P as (_ & _ & _ & _ & A5 & _ & A7 & _).
    split; [|split; [|split]].
    + rewrite A5, terminated_calls. now rewrite <- app_assoc.
    + rewrite (sleeps_of_samples _ _ _ _ _ _ _ _ _ _ Hrun A5); [|discriminate..].
      now rewrite terminated_sleeps.
    + rewrite A7. unfold terminated, started, emit. cbn [set_obj trace clock].
      rewrite !readings_app. cbn [readings]. now rewrite !app_nil_r.
    + unfold cleanup_or_log, try_except. rewrite Hcl. reflexivity.
Qed.
End Dispatch.

Lemma instance_script_after (k n : nat) (s rest : string) :
  k <= n ->
  after_updates robot_ops k (instance (repeat s n) rest) = instance (repeat s (n - k)) rest.
Proof.
  revert n. induction k as [|k IH]; intros n Hk.
  - now rewrite Nat.sub_0_r.
  - destruct n as [|n]; [lia|]. cbn [after_updates Nat.sub].
    rewrite <- (IH n) by lia. reflexivity.
Qed.

Lemma w_late_shutting_down (k : nat) :
  k < 70 ->
  status_at robot_ops (fst (do_terminate robot_ops (store w_late 0))) k =
    Ret "shutting-down".
Proof.
  intros Hk. unfold status_at.
  change (fst (do_terminate robot_ops (store w_late 0)))
    with (instance (repeat "shutting-down" 70) "terminated").
  rewrite instance_script_after by lia.
  destruct (70 - k) as [|d] eqn:E; [lia|]. reflexivity.
Qed.

Lemma cleanup_dispatches_on_capabilities_witness :
  (exists w',
     _cleanup_resource robot_ops 10 1 w_teardown = (Ret tt, w') /\
     calls (trace w') = [(1, m_delete)]) /\
  (exists w',
     _cleanup_resource robot_ops 10 2 w_teardown = (Ret tt, w') /\
     calls (trace w') = []) /\
  (exists w',
     _cleanup_resource robot_ops 10 0 w_interrupted =
       (Raise (NonException "KeyboardInterrupt"), w') /\
     calls (trace w') = [(0, m_terminate)]) /\
  (exists w',
     _cleanup_resource robot_ops 10 0 w_teardown = (Ret tt, w') /\
     calls (trace w') =
       [(0, m_terminate); (0, m_update); (0, m_update); (0, m_delete)]) /\
  (exists w',
     _cleanup_resource robot_ops 100 0 w_late =
       (Raise (RuntimeError "Operation timed out"), w') /\
     calls (trace w') = [(0, m_terminate)] ++ repeat (0, m_update) 60).
Proof.
  split; [|split; [|split; [|split]]].
  - destruct (cleanup_dispatches_on_capabilities robot_ops 10 1 w_teardown) as (H & _).
    exact (H eq_refl eq_refl).
  - destruct (cleanup_dispatches_on_capabilities robot_ops 10 2 w_teardown)
      as (_ & H & _).
    exact (H eq_refl eq_refl).
  - destruct (cleanup_dispatches_on_capabilities robot_ops 10 0 w_interrupted)
      as (_ & _ & H & _).
    exact (H (NonException "KeyboardInterrupt") eq_refl eq_refl).
  - destruct (cleanup_dispatches_on_capabilities robot_ops 10 0 w_teardown)
      as (_ & _ & _ & H).
    destruct (H 1 eq_refl eq_refl) as (H1 & _).
    + intros [|k] Hk; [|lia]. exists "shutting-down". split; [reflexivity|discriminate].
    + intros [|k] Hk; [reflexivity|lia].
    + lia.
    + exact (H1 eq_refl eq_refl).
  - destruct (cleanup_dispatches_on_capabilities robot_ops 100 0 w_late)
      as (_ & _ & _ & H).
    destruct (H 59 eq_refl eq_refl) as (_ & H2 & _).
    + intros k Hk. exists "shutting-down".
      split; [apply w_late_shutting_down; lia|discriminate].
    + intros k Hk. cbn [w_late world_of clock]. lia.
    + lia.
    + refine (H2 "shutting-down" _ _ _).
      * apply w_late_shutting_down. lia.
      * discriminate.
      * cbn [w_late world_of clock]. lia.
Defined.

(** C7 as the specification has it fails: a resource that has [terminate]
    and [delete] is not always polled until it is ["terminated"] and then
    deleted.  An instance that would show ["terminated"] at its
    seventy-first sample, under a clock that advances five seconds a
    reading, gets [terminate()] and sixty calls of [update()]; then the
    poll times out and [delete()] is never called. *)
Lemma late_termination_is_never_deleted :
  has_terminate robot_ops (store w_late 0) = true /\
  has_delete robot_ops (store w_late 0) = true /\
  snd (do_terminate robot_ops (store w_late 0)) = Returned tt /\
  status_at robot_ops (fst (do_terminate robot_ops (store w_late 0))) 70 =
    Ret "terminated" /\
  fst (_cleanup_resource robot_ops 100 0 w_late) =
    Raise (RuntimeError "Operation timed out") /\
  calls (trace (snd (_cleanup_resource robot_ops 100 0 w_late))) =
    [(0, m_terminate)] ++ repeat (0, m_update) 60 /\
  ~ In (0, m_delete) (calls (trace (snd (_cleanup_resource robot_ops 100 0 w_late)))).
Proof.
  assert (Hc : calls (trace (snd (_cleanup_resource robot_ops 100 0 w_late))) =
               [(0, m_terminate)] ++ repeat (0, m_update) 60)
    by (vm_compute; reflexivity).
  split; [reflexivity|]. split; [reflexivity|]. split; [reflexivity|].
  split; [vm_compute; reflexivity|]. split; [vm_compute; reflexivity|].
  split; [exact Hc|].
  rewrite Hc. intros [H|H]; [discriminate|].
  apply repeat_spec in H. discriminate.
Qed.

Lemma teardown_poll_has_default_timeout_witness :
  exists w',
    _cleanup_resource robot_ops 100 0 w_stuck =
      (Raise (RuntimeError "Operation timed out"), w') /\
    calls (trace w') = [(0, m_terminate)] ++ repeat (0, m_update) 60 /\
    sleeps (trace w') = repeat 5%Z 59 /\
    readings (trace w') = map (fun k => (5 * Z.of_nat k)%Z) (seq 0 61) /\
    cleanup_or_log robot_ops 100 0 w_stuck =
      (Ret tt,
       emit (ELog ERROR "failed to cleanup %s" [AObj 0]
               (Some (RuntimeError "Operation timed out"))) w').
Proof.
  refine (teardown_poll_has_default_timeout robot_ops 100 59 0 w_stuck
            eq_refl eq_refl _ _ _ _).
  - intros k Hk. exists "shutting-down". split; [|discriminate].
    unfold status_at.
    change (fst (do_terminate robot_ops (store w_stuck 0)))
      with (instance [] "shutting-down").
    rewrite instance_rest_forever. reflexivity.
  - intros k Hk. cbn [w_stuck world_of clock]. lia.
  - cbn [w_stuck world_of clock]. lia.
  - lia.
Defined.

(** C4 as the specification has it fails: an instance that never leaves
    [shutting-down] does not block [_cleanup_resource] for ever; with a
    clock that advances five seconds a reading the timed-out error is raised
    in the sixtieth round, after fifty-nine sleeps of five seconds. *)
Lemma teardown_poll_times_out_on_stuck_resource :
  (forall k,
     status_at robot_ops (fst (do_terminate robot_ops (store w_stuck 0))) k =
       Ret "shutting-down") /\
  fst (_cleanup_resource robot_ops 100 0 w_stuck) =
    Raise (RuntimeError "Operation timed out") /\
  calls (trace (snd (_cleanup_resource robot_ops 100 0 w_stuck))) =
    [(0, m_terminate)] ++ repeat (0, m_update) 60 /\
  sleeps (trace (snd (_cleanup_resource robot_ops 100 0 w_stuck))) = repeat 5%Z 59.
Proof.
  split.
  - intros k. unfold status_at.
    change (fst (do_terminate robot_ops (store w_stuck 0)))
      with (instance [] "shutting-down").
    rewrite instance_rest_forever. reflexivity.
  - repeat split; vm_compute; reflexivity.
Qed.

(** ** [__exit__], call by call *)

Section Sweep.
Context {St : Type} (ops : ResourceOps St).

(** The calls that destroy [r], for a cleanup started when [r] is in state
    [s]: with a [terminate] method, [terminate()], then calls of
    [update()], then at most one call of [delete()]; with [delete] only,
    one call of [delete()]; with neither, no call. *)
Definition destroys (r : oid) (s : St) (b : list (oid * method)) : Prop :=
  if has_terminate ops s then
    exists k tail,
      b = (r, m_terminate) :: repeat (r, m_update) k ++ tail /\
      (tail = [] \/ tail = [(r, m_delete)])
  else if has_delete ops s then b = [(r, m_delete)]
  else b = [].

Lemma destroys_on (r : oid) (s : St) (b : list (oid * method)) :
  destroys r s b -> forall c, In c b -> fst c = r.
Proof.
  unfold destroys. destruct (has_terminate ops s).
  - intros (k & tail & -> & Htail) c [<- | Hin]; [reflexivity|].
    apply in_app_or in Hin. destruct Hin as [Hin|Hin].
    + apply repeat_spec in Hin. now subst c.
    + destruct Htail as [-> | ->]; [destruct Hin|].
      destruct Hin as [<- | []]. reflexivity.
  - destruct (has_delete ops s); intros -> c Hin; [|destruct Hin].
    destruct Hin as [<- | []]. reflexivity.
Qed.

Lemma started_calls (r : oid) (w : World St) :
  calls (trace (started r w)) = calls (trace w).
Proof.
  unfold started, emit. cbn [trace]. rewrite calls_app. cbn [calls]. apply app_nil_r.
Qed.

(** What [_cleanup_resource] calls. *)
Lemma cleanup_destroys (fuel : nat) (r : oid) (w : World St) :
  exists b,
    calls (trace (snd (_cleanup_resource ops fuel r w))) = calls (trace w) ++ b /\
    destroys r (store w r) b.
Proof.
  rewrite cleanup_run. unfold destroys.
  destruct (has_terminate ops (store w r)) eqn:Ht.
  - destruct (snd (do_terminate ops (store w r))) as [u|e].
    + destruct (wait_for_status_sampling ops fuel r "terminated" default_via
                  default_timeout default_sleep_time (terminated ops r w))
        as (m & k & (_ & P2 & _) & _).
      rewrite terminated_calls in P2.
      destruct (wait_for_status ops fuel r "terminated" default_via default_timeout
                  default_sleep_time (terminated ops r w)) as [[b|e|] w2];
        cbn [snd] in *.
      * unfold delete_step. destruct (has_delete ops (store w2 r)); cbn [snd].
        -- exists ((r, m_terminate) :: repeat (r, m_update) k ++ [(r, m_delete)]).
           split; [|exists k, [(r, m_delete)]; split; [reflexivity|now right]].
           unfold emit. cbn [set_obj trace]. rewrite calls_app, P2. cbn [calls].
           now rewrite <- !app_assoc.
        -- exists ((r, m_terminate) :: repeat (r, m_update) k ++ []).
           split; [|exists k, []; split; [reflexivity|now left]].
           now rewrite P2, app_nil_r, <- app_assoc.
      * exists ((r, m_terminate) :: repeat (r, m_update) k ++ []).
        split; [|exists k, []; split; [reflexivity|now left]].
        now rewrite P2, app_nil_r, <- app_assoc.
      * exists ((r, m_terminate) :: repeat (r, m_update) k ++ []).
        split; [|exists k, []; split; [reflexivity|now left]].
        now rewrite P2, app_nil_r, <- app_assoc.
    + exists [(r, m_terminate)]. cbn [snd]. split; [apply terminated_calls|].
      exists 0, []. split; [reflexivity|now left].
  - unfold delete_step. change (store (started r w) r) with (store w r).
    destruct (has_delete ops (store w r)); cbn [snd].
    + exists [(r, m_delete)]. split; [|reflexivity].
      unfold emit. cbn [set_obj trace]. now rewrite calls_app, started_calls.
    + exists []. split; [|reflexivity]. now rewrite started_calls, app_nil_r.
Qed.

Lemma cleanup_or_log_destroys (fuel : nat) (r : oid) (w : World St) :
  exists b,
    calls (trace (snd (cleanup_or_log ops fuel r w))) = calls (trace w) ++ b /\
    destroys r (store w r) b.
Proof.
  destruct (cleanup_destroys fuel r w) as (b & Hc & Hd).
  exists b. split; [|exact Hd]. rewrite cleanup_or_log_run.
  destruct (_cleanup_resource ops fuel r w) as [[u|e|] w']; cbn [snd] in *;
    try exact Hc.
  destruct (is_Exception e); cbn [snd]; [|exact Hc].
  unfold emit. cbn [trace]. rewrite calls_app, Hc. cbn [calls]. apply app_nil_r.
Qed.

(** The loop of [__exit__], candidate by candidate: the cleanups started
    are the first so many of the candidates, and the calls made are, block
    after block, the calls that destroy them; the block of a candidate that
    comes for the first time is the one its capabilities in [w] call
    for. *)
Lemma for_each_sweep (fuel : nat) (l : list oid) (w : World St) :
  exists done rest blocks,
    l = done ++ rest /\
    attempts (trace (snd (for_each l (cleanup_or_log ops fuel) w))) =
      attempts (trace w) ++ done /\
    (fst (for_each l (cleanup_or_log ops fuel) w) = Ret tt -> rest = []) /\
    calls (trace (snd (for_each l (cleanup_or_log ops fuel) w))) =
      calls (trace w) ++ List.concat blocks /\
    Forall2 (fun r b => forall c, In c b -> fst c = r) done blocks /\
    (forall i r b,
       nth_error done i = Some r -> nth_error blocks i = Some b ->
       ~ In r (firstn i done) -> destroys r (store w r) b).
Proof.
  revert w. induction l as [|r t IH]; intros w.
  - exists [], [], []. cbn. rewrite !app_nil_r. repeat split; [constructor|].
    intros [|i] r b H; discriminate.
  - cbn [for_each]. unfold bind.
    destruct (cleanup_or_log_framed ops fuel r w) as (_ & A).
    destruct (cleanup_or_log_destroys fuel r w) as (b1 & C & D).
    pose proof (cleanup_or_log_confined ops fuel r w) as (S1 & _).
    assert (Hone : forall i r' b,
               nth_error [r] i = Some r' -> nth_error [b1] i = Some b ->
               destroys r' (store w r') b).
    { intros [|[|i]] r' b Hr Hb; try discriminate.
      inversion Hr; inversion Hb; subst. exact D. }
    destruct (cleanup_or_log ops fuel r w) as [[u|e|] w1] eqn:E; cbn [snd] in *.
    + destruct (IH w1) as (done & rest & blocks & Hl & Ha & Hr & Hc & Hon & Hfirst).
      exists (r :: done), rest, (b1 :: blocks).
      split; [now rewrite Hl|]. split; [now rewrite Ha, A, <- app_assoc|].
      split; [exact Hr|]. split; [cbn [List.concat]; now rewrite Hc, C, <- app_assoc|].
      split; [constructor; [exact (destroys_on _ _ _ D)|exact Hon]|].
      intros [|i] r' b Hr' Hb Hnew; cbn [nth_error firstn] in *.
      * inversion Hr'; inversion Hb; subst. exact D.
      * assert (Hne : r <> r') by (intros ->; apply Hnew; now left).
        rewrite <- (S1 r' Hne). apply (Hfirst i r' b Hr' Hb).
        intros Hin. apply Hnew. now right.
    + exists [r], t, [b1]. cbn [List.concat]. rewrite app_nil_r.
      split; [reflexivity|]. split; [exact A|]. split; [discriminate|].
      split; [exact C|]. split; [repeat constructor; exact (destroys_on _ _ _ D)|].
      intros i r' b Hr' Hb _. now apply (Hone i).
    + exists [r], t, [b1]. cbn [List.concat]. rewrite app_nil_r.
      split; [reflexivity|]. split; [exact A|]. split; [discriminate|].
      split; [exact C|]. split; [repeat constructor; exact (destroys_on _ _ _ D)|].
      intros i r' b Hr' Hb _. now apply (Hone i).
Qed.

Lemma exit_sweep {T V B : Type} (fuel : nat) (self : cleanup_context)
    (exc_typ : option T) (exc_val : option V) (exc_tb : option B) (w : World St) :
  exists done rest blocks,
    cleanup_order ops self exc_typ exc_val exc_tb w = done ++ rest /\
    attempts (trace (snd (__exit__ ops fuel self exc_typ exc_val exc_tb w))) =
      attempts (trace w) ++ done /\
    (fst (__exit__ ops fuel self exc_typ exc_val exc_tb w) = Ret PyNone -> rest = []) /\
    calls (trace (snd (__exit__ ops fuel self exc_typ exc_val exc_tb w))) =
      calls (trace w) ++ List.concat blocks /\
    Forall2 (fun r b => forall c, In c b -> fst c = r) done blocks /\
    (forall i r b,
       nth_error done i = Some r -> nth_error blocks i = Some b ->
       ~ In r (firstn i done) -> destroys r (store w r) b).
Proof.
  destruct (for_each_sweep fuel (cleanup_order ops self exc_typ exc_val exc_tb w) w)
    as (done & rest & blocks & Hl & Ha & Hr & Hc & Hon & Hfirst).
  exists done, rest, blocks. split; [exact Hl|]. rewrite exit_run.
  destruct (for_each _ _ w) as [[u|e|] w']; cbn [fst snd] in *.
  - repeat split; try assumption. intros _. apply Hr. now destruct u.
  - repeat split; try assumption. discriminate.
  - repeat split; try assumption. discriminate.
Qed.

(** An exit with one candidate. *)
Lemma exit_single {T V B : Type} (fuel : nat) (self : cleanup_context)
    (exc_typ : option T) (exc_val : option V) (exc_tb : option B) (w : World St)
    (r : oid) :
  to_cleanup self exc_typ exc_val exc_tb = [r] ->
  attempts (trace (snd (__exit__ ops fuel self exc_typ exc_val exc_tb w))) =
    attempts (trace w) ++ [r] /\
  exists b,
    calls (trace (snd (__exit__ ops fuel self exc_typ exc_val exc_tb w))) =
      calls (trace w) ++ b /\
    destroys r (store w r) b.
Proof.
  intros Hl. rewrite exit_run. unfold cleanup_order. rewrite Hl.
  cbn [sort_by_key insert_by_key for_each]. unfold bind.
  pose proof (proj2 (cleanup_or_log_framed ops fuel r w)) as A.
  destruct (cleanup_or_log_destroys fuel r w) as (b & C & D).
  destruct (cleanup_or_log ops fuel r w) as [[u|e|] w1]; cbn [snd] in *;
    (split; [exact A|exists b; now split]).
Qed.

(** An exit with no candidate. *)
Lemma exit_none {T V B : Type} (fuel : nat) (self : cleanup_context)
    (exc_typ : option T) (exc_val : option V) (exc_tb : option B) (w : World St) :
  to_cleanup self exc_typ exc_val exc_tb = [] ->
  __exit__ ops fuel self exc_typ exc_val exc_tb w = (Ret PyNone, w).
Proof.
  intros Hl. rewrite exit_run. unfold cleanup_order. now rewrite Hl.
Qed.

(** C1.  The candidates are destroyed in the order of their sort keys:
    those of key 0 (the instances), then those of key 1 (the volumes that
    are not instances), of key 2 (the snapshots that are neither) and of key
    3, the number of classes in the table (the resources of no class of the
    table); inside each group the order is that of registration.  [__exit__]
    goes through the candidates in that order: at any moment the cleanups
    started are the first so many of the sorted candidates, all of them
    once [__exit__] has returned, and the calls made so far are, block after
    block in that same order, calls on these candidates: for a candidate
    that comes for the first time, the calls its capabilities ask for
    ([terminate()] first, then the [update()]s of the poll and at most one
    [delete()]; or [delete()] alone; or nothing). *)
Theorem teardown_order {T V B : Type} (fuel : nat) (self : cleanup_context)
    (exc_typ : option T) (exc_val : option V) (exc_tb : option B) (w : World St) :
  let key := fun r => _sortkey_for_cleanup_ordering ops (store w r) in
  let cands := to_cleanup self exc_typ exc_val exc_tb in
  cleanup_order ops self exc_typ exc_val exc_tb w =
    with_key key 0 cands ++ with_key key 1 cands ++
    with_key key 2 cands ++ with_key key 3 cands /\
  (forall r,
     (key r = 0 <-> isinstance ops (store w r) Instance = true) /\
     (key r = 1 <->
        isinstance ops (store w r) Instance = false /\
        isinstance ops (store w r) Volume = true) /\
     (key r = 2 <->
        isinstance ops (store w r) Instance = false /\
        isinstance ops (store w r) Volume = false /\
        isinstance ops (store w r) Snapshot = true) /\
     (key r = 3 <->
        isinstance ops (store w r) Instance = false /\
        isinstance ops (store w r) Volume = false /\
        isinstance ops (store w r) Snapshot = false)) /\
  List.length ordered_classes = 3 /\
  exists done rest blocks,
    cleanup_order ops self exc_typ exc_val exc_tb w = done ++ rest /\
    attempts (trace (snd (__exit__ ops fuel self exc_typ exc_val exc_tb w))) =
      attempts (trace w) ++ done /\
    (fst (__exit__ ops fuel self exc_typ exc_val exc_tb w) = Ret PyNone -> rest = []) /\
    calls (trace (snd (__exit__ ops fuel self exc_typ exc_val exc_tb w))) =
      calls (trace w) ++ List.concat blocks /\
    Forall2 (fun r b => forall c, In c b -> fst c = r) done blocks /\
    (forall i r b,
       nth_error done i = Some r -> nth_error blocks i = Some b ->
       ~ In r (firstn i done) -> destroys r (store w r) b).
Proof.
  intros key cands. split; [|split; [|split]].
  - unfold cleanup_order. fold key. fold cands.
    rewrite (sort_by_key_buckets key 4 cands).
    + cbn [seq flat_map]. now rewrite app_nil_r.
    + intros r _. apply sortkey_bound.
  - intros r. apply sortkey_rank.
  - reflexivity.
  - apply exit_sweep.
Qed.

(** C2.  A resource is a candidate of an exit exactly when it has an entry
    that is not kept at that exit: whose [keep_on_success] flag is false at
    a success exit (three [None]s), whose [keep_on_error] flag is false at a
    failure exit.  The cleanups [__exit__] starts are cleanups of
    candidates, of every candidate once it has returned, and the calls it
    makes are the calls that destroy them, block after block; a resource
    that is no candidate gets no call and stays as it is.  So a resource
    registered with [keep_on_success=True] only is left alone by a success
    exit, which then does nothing at all, and is destroyed by a failure
    exit ([terminate()], or [delete()], as its capabilities ask for); and
    one registered with [keep_on_error=True] only the other way round. *)
Theorem exit_candidates {T V B : Type} (fuel : nat) (self : cleanup_context)
    (exc_typ : option T) (exc_val : option V) (exc_tb : option B) (w : World St) :
  (is_success_exit exc_typ exc_val exc_tb = true <->
     exc_typ = None /\ exc_val = None /\ exc_tb = None) /\
  (forall r,
     In r (to_cleanup self exc_typ exc_val exc_tb) <->
     exists e, In e (resources self) /\ fst (fst e) = r /\
               kept exc_typ exc_val exc_tb e = false) /\
  (exists done blocks,
     attempts (trace (snd (__exit__ ops fuel self exc_typ exc_val exc_tb w))) =
       attempts (trace w) ++ done /\
     (forall r, In r done -> In r (to_cleanup self exc_typ exc_val exc_tb)) /\
     (fst (__exit__ ops fuel self exc_typ exc_val exc_tb w) = Ret PyNone ->
      Permutation (to_cleanup self exc_typ exc_val exc_tb) done) /\
     calls (trace (snd (__exit__ ops fuel self exc_typ exc_val exc_tb w))) =
       calls (trace w) ++ List.concat blocks /\
     Forall2 (fun r b => forall c, In c b -> fst c = r) done blocks /\
     (forall i r b,
        nth_error done i = Some r -> nth_error blocks i = Some b ->
        ~ In r (firstn i done) -> destroys r (store w r) b) /\
     (forall o m, In (o, m) (List.concat blocks) ->
                  In o (to_cleanup self exc_typ exc_val exc_tb))) /\
  (forall o, ~ In o (to_cleanup self exc_typ exc_val exc_tb) ->
     store (snd (__exit__ ops fuel self exc_typ exc_val exc_tb w)) o = store w o) /\
  (forall r,
     let on_success := add __init__ r true false in
     let on_error := add __init__ r false true in
     let destroyed (w' : World St) :=
       attempts (trace w') = attempts (trace w) ++ [r] /\
       exists b, calls (trace w') = calls (trace w) ++ b /\ destroys r (store w r) b in
     __exit__ ops fuel on_success (@None T) (@None V) (@None B) w = (Ret PyNone, w) /\
     destroyed (snd (__exit__ ops fuel on_error (@None T) (@None V) (@None B) w)) /\
     (is_success_exit exc_typ exc_val exc_tb = false ->
      destroyed (snd (__exit__ ops fuel on_success exc_typ exc_val exc_tb w)) /\
      __exit__ ops fuel on_error exc_typ exc_val exc_tb w = (Ret PyNone, w))).
Proof.
  split; [|split; [|split; [|split]]].
  - unfold is_success_exit. destruct exc_typ, exc_val, exc_tb; split; intros H;
      try discriminate H; try (destruct H as (H1 & H2 & H3); discriminate);
      repeat split; reflexivity.
  - intros r. apply to_cleanup_In.
  - destruct (exit_sweep fuel self exc_typ exc_val exc_tb w)
      as (done & rest & blocks & Hl & Ha & Hr & Hc & Hon & Hfirst).
    exists done, blocks. split; [exact Ha|].
    assert (Hp : Permutation (to_cleanup self exc_typ exc_val exc_tb) (done ++ rest)).
    { rewrite <- Hl. apply sort_perm. }
    assert (Hin : forall r, In r done -> In r (to_cleanup self exc_typ exc_val exc_tb)).
    { intros r Hin. eapply Permutation_in; [apply Permutation_sym, Hp|].
      apply in_or_app. now left. }
    split; [exact Hin|]. split.
    { intros Hret. rewrite (Hr Hret), app_nil_r in Hp. exact Hp. }
    split; [exact Hc|]. split; [exact Hon|]. split; [exact Hfirst|].
    clear Hl Ha Hr Hc Hfirst Hp. intros o m Hom.
    induction Hon as [|r b done' blocks' Hb Hrest IH]; [destruct Hom|].
    cbn [List.concat] in Hom. apply in_app_or in Hom. destruct Hom as [Hom|Hom].
    + apply Hin. left. symmetry. exact (Hb _ Hom).
    + apply IH; [|exact Hom]. intros r' Hr'. apply Hin. now right.
  - apply (exit_confined ops fuel self exc_typ exc_val exc_tb w).
  - intros r on_success on_error destroyed.
    split; [apply exit_none; reflexivity|].
    split; [apply exit_single; reflexivity|].
    intros Hfail. split.
    + apply exit_single. unfold to_cleanup. now rewrite Hfail.
    + apply exit_none. unfold to_cleanup. now rewrite Hfail.
Qed.
End Sweep.

Lemma teardown_order_witness :
  cleanup_order robot_ops mixed_ledger (@None string) (@None exn) (@None unit) w_mixed =
    [3; 5; 2; 4; 0; 1] /\
  attempts (trace (snd (__exit__ robot_ops 10 mixed_ledger
                          (@None string) (@None exn) (@None unit) w_mixed))) =
    [3; 5; 2; 4; 0; 1] /\
  calls (trace (snd (__exit__ robot_ops 10 mixed_ledger
                       (@None string) (@None exn) (@None unit) w_mixed))) =
    [(3, m_terminate); (3, m_update); (3, m_delete);
     (5, m_terminate); (5, m_update); (5, m_delete);
     (2, m_delete); (4, m_delete); (0, m_delete)] /\
  exists rest,
    calls (trace (snd (__exit__ robot_ops 10 mixed_ledger
                         (@None string) (@None exn) (@None unit) w_mixed))) =
      (3, m_terminate) :: rest.
Proof.
  destruct (teardown_order robot_ops 10 mixed_ledger (@None string) (@None exn)
              (@None unit) w_mixed)
    as (Horder & _ & _ & done & rest & blocks & Hl & Ha & Hr & Hc & Hon & Hfirst).
  assert (Hr' : rest = []) by (apply Hr; vm_compute; reflexivity).
  subst rest. rewrite app_nil_r in Hl.
  split; [exact Horder|].
  split; [rewrite Ha, <- Hl, Horder; reflexivity|].
  split; [vm_compute; reflexivity|].
  rewrite Horder in Hl. subst done.
  destruct blocks as [|b0 blocks]; [inversion Hon|].
  destruct (Hfirst 0 3 b0 eq_refl eq_refl (fun H => H)) as (k & tail & -> & _).
  rewrite Hc. eexists. reflexivity.
Defined.

Lemma exit_candidates_witness :
  __exit__ robot_ops 10 (add __init__ 1 true false) (@None string) (@None exn)
    (@None unit) w_teardown = (Ret PyNone, w_teardown) /\
  calls (trace (snd (__exit__ robot_ops 10 (add __init__ 1 false true) (@None string)
                       (@None exn) (@None unit) w_teardown))) = [(1, m_delete)] /\
  calls (trace (snd (__exit__ robot_ops 10 (add __init__ 1 true false) (Some "type")
                       (Some (RuntimeError "boom")) (Some tt) w_teardown))) =
    [(1, m_delete)] /\
  __exit__ robot_ops 10 (add __init__ 1 false true) (Some "type")
    (Some (RuntimeError "boom")) (Some tt) w_teardown = (Ret PyNone, w_teardown).
Proof.
  destruct (exit_candidates robot_ops 10 __init__ (Some "type")
              (Some (RuntimeError "boom")) (Some tt) w_teardown)
    as (_ & _ & _ & _ & H).
  destruct (H 1) as (H1 & (_ & b2 & C2 & D2) & H3).
  destruct (H3 eq_refl) as ((_ & b3 & C3 & D3) & H4).
  split; [exact H1|]. split; [|split; [|exact H4]].
  - rewrite C2. unfold destroys in D2. cbn in D2. now subst b2.
  - rewrite C3. unfold destroys in D3. cbn in D3. now subst b3.
Defined.
